(** * SlaveShell: the plan-execution dispatcher of [index.js]

    A shallow embedding of the session state ([projectState]), the resource
    registries (JavaScript [Map]s), the action executors and the dispatcher
    loop of [index.js], together with the properties the specification
    states about them.

    Conventions of the embedding.
    - A JavaScript computation either returns a value or throws; the
      session state survives a throw (nothing is rolled back), so the monad
      is [State -> outcome A * State].
    - Everything outside the program (the shell, the file system, child
      processes, chokidar, the MongoDB driver, the clock, Node's [path]
      module) is an [Env]: an abstract [World] and one oracle per external
      call.  All theorems hold for every environment.
    - Every external call is recorded in [trace], oldest first, so that
      "a signal was sent" or "nothing ran after the failure" can be stated.
    - [await] is sequencing: the shell runs one command at a time.  The one
      asynchronous callback that touches a registry, the child's ['exit']
      observer, is the separate transition [onExit].
    - Console decoration (chalk colours, ora spinners, emoji) is left out;
      the console lines themselves are [EvConsole] events.
    - The logger of [logger.js] and [getApiKey] touch the session in no
      way; they are embedded on their own, as functions of what they read
      (the log file, the configuration store, the user's answer). *)

From Stdlib Require Import List String Ascii Bool Arith NArith ZArith Lia.
Import ListNotations.
Open Scope string_scope.

Set Implicit Arguments.
Set Warnings "-register-all".

(** ** Outcomes of JavaScript computations *)

Inductive outcome (A : Type) : Type :=
| Returned (a : A)
| Thrown (message : string).

Arguments Returned {A} a.
Arguments Thrown {A} message.

Definition returned {A} (o : outcome A) : bool :=
  match o with Returned _ => true | Thrown _ => false end.

(** ** JavaScript [Map]: insertion-ordered, one entry per key *)

Module JsMap.

Section Ops.
Variable V : Type.

Definition t := list (string * V).

Definition empty : t := [].

Fixpoint get (k : string) (m : t) : option V :=
  match m with
  | [] => None
  | (k', v) :: m' => if String.eqb k k' then Some v else get k m'
  end.

Definition has (k : string) (m : t) : bool :=
  match get k m with Some _ => true | None => false end.

(** [set] on a present key replaces the value in place; on an absent key
    it appends, as [Map.prototype.set] does. *)
Fixpoint set (k : string) (v : V) (m : t) : t :=
  match m with
  | [] => [(k, v)]
  | (k', v') :: m' =>
      if String.eqb k k' then (k, v) :: m' else (k', v') :: set k v m'
  end.

Definition delete (k : string) (m : t) : t :=
  filter (fun e => negb (String.eqb k (fst e))) m.

Definition keys (m : t) : list string := map fst m.

Definition size (m : t) : nat := List.length m.

(** Number of entries stored under [k]. *)
Definition count (k : string) (m : t) : nat :=
  List.length (filter (fun e => String.eqb k (fst e)) m).

(** The invariant of a [Map]: no key occurs twice. *)
Definition wf (m : t) : Prop := NoDup (keys m).
End Ops.

Arguments empty {V}.

End JsMap.

(** ** JavaScript string helpers used by the executors *)

(** [s.split(sep)] for a one-character separator: never the empty list. *)
Fixpoint split_on (sep : ascii) (s : string) : list string :=
  match s with
  | EmptyString => [EmptyString]
  | String c rest =>
      if Ascii.eqb c sep then EmptyString :: split_on sep rest
      else match split_on sep rest with
           | [] => [String c EmptyString]
           | w :: ws => String c w :: ws
           end
  end.

(** The one-character string holding a double quote. *)
Definition dquote : string := String (ascii_of_nat 34) EmptyString.

(** [xs.join(' ')]. *)
Fixpoint join_space (xs : list string) : string :=
  match xs with
  | [] => EmptyString
  | [x] => x
  | x :: rest => x ++ " " ++ join_space rest
  end.

(** Truthiness of an optional string field: [undefined] and [''] are falsy. *)
Definition truthy (o : option string) : option string :=
  match o with
  | Some s => if String.eqb s EmptyString then None else Some s
  | None => None
  end.

(** [a || b] on an optional string. *)
Definition js_or (a : option string) (b : string) : string :=
  match truthy a with Some s => s | None => b end.

(** A template literal prints a missing value as [undefined]. *)
Definition show (o : option string) : string :=
  match o with Some s => s | None => "undefined" end.

(** ** Data model *)

Definition Handle := nat.

(** [projectState.runningProcesses] values. *)
Record ProcessEntry : Type := {
  pe_process : Handle;
  pe_command : string;
  pe_startTime : nat;
  pe_logFile : option string
}.

Record HistoryEntry : Type := {
  he_command : string;
  he_timestamp : nat;
  he_type : string;
  he_description : string
}.

(** The [options] object of a process-operation. *)
Record ProcessOptions : Type := {
  po_name : option string;
  po_waitForExit : bool;
  po_cwd : option string;
  po_logFile : option string
}.

(** [options = {}]. *)
Definition no_options : ProcessOptions :=
  {| po_name := None; po_waitForExit := false; po_cwd := None; po_logFile := None |}.

(** Mutating calls of [fs.promises]. *)
Inductive FsWrite : Type :=
| FsWriteFile (path content : string)
| FsAppendFile (path content : string)
| FsUnlink (path : string)
| FsRename (path newPath : string)
| FsMkdir (path : string)
| FsRm (path : string)
| FsRmdir (path : string).

(** Calls of the MongoDB driver made by [handleMongoDBOperation]. *)
Inductive MongoCall : Type :=
| MongoCreateCollection (collection : string)
| MongoInsertMany (collection data : string)
| MongoFind (collection query : string)
| MongoDrop (collection : string).

Inductive Stdio : Type :=
| StdioInherit
| StdioLog (out err : nat).

(** What the program does to the outside world, in order. *)
Inductive Event : Type :=
| EvExec (command cwd : string)
| EvChdir (dir : string)
| EvSpawn (cmd : string) (args : list string) (cwd : string) (stdio : Stdio) (child : Handle)
| EvSpawnFailed (cmd : string) (args : list string) (cwd : string) (stdio : Stdio)
| EvKill (child : Handle)
| EvOpenSync (path : string)
| EvReadFile (path : string)
| EvReaddir (path : string)
| EvFsWrite (call : FsWrite)
| EvWatch (dir : string) (watcher : Handle)
| EvWatcherClose (watcher : Handle)
| EvConnect (connectionString : string)
| EvMongo (call : MongoCall)
| EvConnectionClose (connection : Handle)
| EvConsole (line : string)
| EvConsoleTable (rows : list (string * string * nat * string)).

(** Values returned by the executors. *)
Inductive Reply : Type :=
| ReplyMessage (success : bool) (message : string)
| ReplyError (error : string)
| ReplyOutput (output : string)
| ReplyProcessName (processName : string)
| ReplyContent (content : string)
| ReplyFiles (files : list string)
| ReplyInserted (inserted : nat)
| ReplyData (data : list string)
| ReplyNull.

(** The [success] field of a reply ([null] has none). *)
Definition success (r : Reply) : bool :=
  match r with
  | ReplyMessage b _ => b
  | ReplyError _ => false
  | ReplyNull => false
  | _ => true
  end.

(** ** Actions of a plan

    The JSON objects of [plan.actions], decoded by their [type] (and, for
    process operations and steps, by the field the source switches on).
    Fields the source tests for presence are [option]s. *)

Record FileOp : Type := {
  fo_action : string;
  fo_path : string;
  fo_content : string;
  fo_newPath : string;
  fo_recursive : bool
}.

Record PackageOp : Type := {
  pk_manager : string;
  pk_action : string;
  pk_packages : option (list string);
  pk_options : option string;
  pk_directory : option string
}.

Record DatabaseOp : Type := {
  db_dbType : option string;
  db_action : string;
  db_connectionString : string;
  db_collection : string;
  db_data : string;
  db_query : string
}.

Record GitOp : Type := {
  git_action : string;
  git_repository : option string;
  git_branch : option string;
  git_message : option string
}.

Inductive SetupStep : Type :=
| StepMkdir (path : string)
| StepWrite (path content : string)
| StepExec (command : string)
| StepInstall (manager : string) (packages : option (list string)) (options : option string)
| StepStart (command : string) (options : option ProcessOptions)
| StepGit (details : GitOp)
| StepDatabase (details : DatabaseOp)
| StepOther (type : string).

Record Setup : Type := {
  su_projectType : string;
  su_name : string;
  su_path : option string;
  su_steps : list SetupStep
}.

Inductive DeployStep : Type :=
| DeployBuild (command : string)
| DeployConfig (path content command : option string)
| DeployUpload (command : string)
| DeployInvoke (command : string)
| DeployOther (type : string).

Record Deployment : Type := {
  dp_platform : string;
  dp_steps : list DeployStep
}.

Inductive Action : Type :=
| ProjectSetup (setup : Setup)
| FileOperation (operation : FileOp)
| PackageOperation (operation : PackageOp)
| ProcessStart (command : string) (options : option ProcessOptions)
| ProcessStop (options : option ProcessOptions)
| ProcessList
| ProcessOther (action : string)
| DatabaseOperation (operation : DatabaseOp)
| GitOperation (operation : GitOp)
| DeployOperation (deployment : Deployment)
| UnsupportedAction (type : string).

Record Plan : Type := {
  plan_type : string;
  plan_actions : list Action;
  plan_description : string;
  plan_needsMonitoring : bool
}.

(** ** The environment *)

Record Env : Type := {
  World : Type;
  (** Node's [path] module. *)
  path_isAbsolute : string -> bool;
  path_join : string -> string -> string;
  (** [new Date()]. *)
  now : World -> nat;
  (** Whether [process.chdir(dir)] succeeds. *)
  can_chdir : string -> World -> bool;
  (** [child_process.exec(command, {cwd})]: trimmed stdout, or the error. *)
  sh_exec : string -> string -> World -> outcome string * World;
  (** [fs.promises]; a relative path is resolved against the process
      working directory, the second argument. *)
  fs_readFile : string -> string -> World -> outcome string * World;
  fs_readdir : string -> string -> World -> outcome (list string) * World;
  fs_write : FsWrite -> string -> World -> outcome unit * World;
  (** [fs.openSync(logFile, 'a')] as called by [startProcess].  ([fs] is
      bound to [require('fs').promises] there, which has no [openSync]; the
      oracle may throw on every call.) *)
  fs_openSync : string -> World -> outcome nat * World;
  (** [child_process.spawn(cmd, args, {stdio, shell: true, cwd})] for a
      [cmd] that is not empty: the child, or the error [spawn] throws.  (A
      command the shell cannot run is reported later, through the child's
      ['error'] and ['exit'] events, and is no throw.) *)
  cp_spawn : string -> list string -> string -> Stdio -> World -> outcome Handle * World;
  (** [ChildProcess.prototype.kill()]: [true] when the signal was delivered,
      [false] when there was nothing to signal (the child is already dead),
      or a thrown error. *)
  cp_kill : Handle -> World -> outcome bool * World;
  chokidar_watch : string -> World -> Handle * World;
  watcher_close : Handle -> World -> outcome unit * World;
  mongoose_connect : string -> World -> outcome Handle * World;
  mongo_call : MongoCall -> World -> outcome (nat * list string) * World;
  connection_close : Handle -> World -> outcome unit * World
}.

Section Shell.

Variable env : Env.

(** [projectState] together with the process working directory, the outside
    world and the trace of external calls. *)
Record State : Type := {
  world : World env;
  cwd : string;
  currentDirectory : string;
  runningProcesses : JsMap.t ProcessEntry;
  fileWatchers : JsMap.t Handle;
  databases : JsMap.t Handle;
  history : list HistoryEntry;
  trace : list Event
}.

Definition with_world (w : World env) (s : State) : State :=
  {| world := w; cwd := cwd s; currentDirectory := currentDirectory s;
     runningProcesses := runningProcesses s; fileWatchers := fileWatchers s;
     databases := databases s; history := history s; trace := trace s |}.

Definition with_cwd (d : string) (s : State) : State :=
  {| world := world s; cwd := d; currentDirectory := currentDirectory s;
     runningProcesses := runningProcesses s; fileWatchers := fileWatchers s;
     databases := databases s; history := history s; trace := trace s |}.

Definition with_currentDirectory (d : string) (s : State) : State :=
  {| world := world s; cwd := cwd s; currentDirectory := d;
     runningProcesses := runningProcesses s; fileWatchers := fileWatchers s;
     databases := databases s; history := history s; trace := trace s |}.

Definition with_runningProcesses (m : JsMap.t ProcessEntry) (s : State) : State :=
  {| world := world s; cwd := cwd s; currentDirectory := currentDirectory s;
     runningProcesses := m; fileWatchers := fileWatchers s;
     databases := databases s; history := history s; trace := trace s |}.

Definition with_fileWatchers (m : JsMap.t Handle) (s : State) : State :=
  {| world := world s; cwd := cwd s; currentDirectory := currentDirectory s;
     runningProcesses := runningProcesses s; fileWatchers := m;
     databases := databases s; history := history s; trace := trace s |}.

Definition with_databases (m : JsMap.t Handle) (s : State) : State :=
  {| world := world s; cwd := cwd s; currentDirectory := currentDirectory s;
     runningProcesses := runningProcesses s; fileWatchers := fileWatchers s;
     databases := m; history := history s; trace := trace s |}.

Definition with_history (h : list HistoryEntry) (s : State) : State :=
  {| world := world s; cwd := cwd s; currentDirectory := currentDirectory s;
     runningProcesses := runningProcesses s; fileWatchers := fileWatchers s;
     databases := databases s; history := h; trace := trace s |}.

Definition with_trace (t : list Event) (s : State) : State :=
  {| world := world s; cwd := cwd s; currentDirectory := currentDirectory s;
     runningProcesses := runningProcesses s; fileWatchers := fileWatchers s;
     databases := databases s; history := history s; trace := t |}.

(** The state at start-up: [currentDirectory: process.cwd()], empty maps. *)
Definition initial (w : World env) (dir : string) : State :=
  {| world := w; cwd := dir; currentDirectory := dir;
     runningProcesses := JsMap.empty; fileWatchers := JsMap.empty;
     databases := JsMap.empty; history := []; trace := [] |}.

(** ** The monad of the executors *)

Definition M (A : Type) : Type := State -> outcome A * State.

Definition ret {A} (a : A) : M A := fun s => (Returned a, s).

Definition throw {A} (message : string) : M A := fun s => (Thrown message, s).

Definition bind {A B} (m : M A) (k : A -> M B) : M B :=
  fun s =>
    match m s with
    | (Returned a, s') => k a s'
    | (Thrown e, s') => (Thrown e, s')
    end.

(** [try { m } catch (error) { handler error }]. *)
Definition try_catch {A} (m : M A) (handler : string -> M A) : M A :=
  fun s =>
    match m s with
    | (Returned a, s') => (Returned a, s')
    | (Thrown e, s') => handler e s'
    end.

Definition gets {A} (f : State -> A) : M A := fun s => (Returned (f s), s).

Definition modify (f : State -> State) : M unit := fun s => (Returned tt, f s).

Definition emit (e : Event) : M unit :=
  modify (fun s => with_trace (trace s ++ [e]) s).

(** An external call: record it, then let the environment answer. *)
Definition call {A} (e : Event) (oracle : World env -> outcome A * World env) : M A :=
  fun s =>
    let s1 := with_trace (trace s ++ [e]) s in
    let (r, w) := oracle (world s1) in
    (r, with_world w s1).

(** An external call that cannot fail and whose event shows its result. *)
Definition call_total {A} (oracle : World env -> A * World env) (e : A -> Event) : M A :=
  fun s =>
    let (a, w) := oracle (world s) in
    (Returned a, with_world w (with_trace (trace s ++ [e a]) s)).

(** An external call whose event shows its result, or that it threw. *)
Definition call_shown {A} (oracle : World env -> outcome A * World env)
    (e : A -> Event) (failed : Event) : M A :=
  fun s =>
    match oracle (world s) with
    | (Returned a, w) => (Returned a, with_world w (with_trace (trace s ++ [e a]) s))
    | (Thrown error, w) => (Thrown error, with_world w (with_trace (trace s ++ [failed]) s))
    end.

Notation "x <- m ;; k" := (bind m (fun x => k))
  (at level 61, m at next level, right associativity).
Notation "m ;; k" := (bind m (fun _ => k))
  (at level 61, right associativity).

(** [for (const x of xs) { await body(x) }]: a throw ends the loop. *)
Fixpoint for_each {A} (xs : list A) (body : A -> M unit) : M unit :=
  match xs with
  | [] => ret tt
  | x :: rest => body x ;; for_each rest body
  end.

Definition console (line : string) : M unit := emit (EvConsole line).

Definition clock : M nat := gets (fun s => now env (world s)).

(** [process.chdir(dir)]. *)
Definition chdir (dir : string) : M unit :=
  fun s =>
    let s1 := with_trace (trace s ++ [EvChdir dir]) s in
    if can_chdir env dir (world s) then (Returned tt, with_cwd dir s1)
    else (Thrown ("ENOENT: no such file or directory, chdir " ++ dir), s1).

(** ** Utilities of [index.js] *)

Definition resolveProjectPath (filePath : string) : M string :=
  gets (fun s =>
    if path_isAbsolute env filePath then filePath
    else path_join env (currentDirectory s) filePath).

(** [execPromise]: one attempt, run in [projectState.currentDirectory]. *)
Definition execPromise (command : string) : M string :=
  fun s =>
    call (EvExec command (currentDirectory s))
         (sh_exec env command (currentDirectory s)) s.

(** ** File watchers *)

Definition watchFiles (dirPath : string) : M unit :=
  watched <- gets (fun s => JsMap.has dirPath (fileWatchers s)) ;;
  if watched then ret tt
  else
    watcher <- call_total (chokidar_watch env dirPath) (EvWatch dirPath) ;;
    modify (fun s => with_fileWatchers (JsMap.set dirPath watcher (fileWatchers s)) s) ;;
    console ("Watching directory: " ++ dirPath).

(** ** Database operations *)

Definition handleMongoDBOperation (operation : DatabaseOp) : M Reply :=
  let connectionString := db_connectionString operation in
  let collection := db_collection operation in
  connected <- gets (fun s => JsMap.has connectionString (databases s)) ;;
  (if connected then ret tt
   else
     connection <- call (EvConnect connectionString) (mongoose_connect env connectionString) ;;
     modify (fun s => with_databases (JsMap.set connectionString connection (databases s)) s)) ;;
  if String.eqb (db_action operation) "create-collection" then
    call (EvMongo (MongoCreateCollection collection))
         (mongo_call env (MongoCreateCollection collection)) ;;
    ret (ReplyMessage true ("Collection " ++ collection ++ " created"))
  else if String.eqb (db_action operation) "insert" then
    result <- call (EvMongo (MongoInsertMany collection (db_data operation)))
                   (mongo_call env (MongoInsertMany collection (db_data operation))) ;;
    ret (ReplyInserted (fst result))
  else if String.eqb (db_action operation) "query" then
    docs <- call (EvMongo (MongoFind collection (db_query operation)))
                 (mongo_call env (MongoFind collection (db_query operation))) ;;
    ret (ReplyData (snd docs))
  else if String.eqb (db_action operation) "drop-collection" then
    call (EvMongo (MongoDrop collection)) (mongo_call env (MongoDrop collection)) ;;
    ret (ReplyMessage true ("Collection " ++ collection ++ " dropped"))
  else throw ("Unsupported MongoDB operation: " ++ db_action operation).

(** The [switch] on [operation.dbType]. *)
Inductive DbKind : Type := DbMongo | DbStub | DbUnknown.

Definition db_kind (dbType : option string) : DbKind :=
  match dbType with
  | Some t =>
      if String.eqb t "mongodb" then DbMongo
      else if String.eqb t "mysql" then DbStub
      else if String.eqb t "postgres" then DbStub
      else if String.eqb t "sqlite" then DbStub
      else DbUnknown
  | None => DbUnknown
  end.

Definition handleDatabaseOperation (operation : DatabaseOp) : M Reply :=
  try_catch
    (match db_kind (db_dbType operation) with
     | DbMongo => handleMongoDBOperation operation
     | DbStub =>
         console (show (db_dbType operation) ++ " operations not yet implemented") ;;
         ret ReplyNull
     | DbUnknown => throw ("Unsupported database type: " ++ show (db_dbType operation))
     end)
    (fun error => console ("Database error: " ++ error) ;; throw error).

(** ** Git operations *)

Definition handleGitOperation (operation : GitOp) : M Reply :=
  let action := git_action operation in
  try_catch
    (if String.eqb action "init" then
       execPromise "git init" ;;
       ret (ReplyMessage true "Git repository initialized")
     else if String.eqb action "clone" then
       execPromise ("git clone " ++ show (git_repository operation)) ;;
       ret (ReplyMessage true ("Repository cloned from " ++ show (git_repository operation)))
     else if String.eqb action "add" then
       execPromise "git add ." ;;
       ret (ReplyMessage true "Changes staged")
     else if String.eqb action "commit" then
       execPromise ("git commit -m " ++ dquote
                      ++ js_or (git_message operation) "Commit by AI Agent" ++ dquote) ;;
       ret (ReplyMessage true "Changes committed")
     else if String.eqb action "push" then
       execPromise ("git push origin " ++ js_or (git_branch operation) "main") ;;
       ret (ReplyMessage true ("Pushed to " ++ js_or (git_branch operation) "main"))
     else if String.eqb action "checkout" then
       execPromise ("git checkout " ++ show (git_branch operation)) ;;
       ret (ReplyMessage true ("Switched to branch " ++ show (git_branch operation)))
     else throw ("Unsupported Git operation: " ++ action))
    (fun error => console ("Git error: " ++ error) ;; throw error).

(** ** Package management *)

(** [packages.join(' ')]; [packages] may be missing. *)
Definition join_packages (packages : option (list string)) : M string :=
  match packages with
  | Some ps => ret (join_space ps)
  | None => throw "Cannot read properties of undefined (reading 'join')"
  end.

(** The two nested [switch]es that build the one shell command. *)
Definition package_command (operation : PackageOp) : M string :=
  let manager := pk_manager operation in
  let action := pk_action operation in
  let packages := pk_packages operation in
  let options := pk_options operation in
  if String.eqb manager "npm" then
    if String.eqb action "install" then
      ps <- join_packages packages ;; ret ("npm install " ++ ps ++ " " ++ js_or options EmptyString)
    else if String.eqb action "uninstall" then
      ps <- join_packages packages ;; ret ("npm uninstall " ++ ps)
    else if String.eqb action "update" then
      ps <- join_packages packages ;; ret ("npm update " ++ ps)
    else if String.eqb action "init" then ret "npm init -y"
    else if String.eqb action "run" then ret ("npm run " ++ show options)
    else throw ("Unsupported NPM action: " ++ action)
  else if String.eqb manager "pip" then
    if String.eqb action "install" then
      ps <- join_packages packages ;; ret ("pip install " ++ ps ++ " " ++ js_or options EmptyString)
    else if String.eqb action "uninstall" then
      ps <- join_packages packages ;; ret ("pip uninstall -y " ++ ps)
    else if String.eqb action "update" then
      ps <- join_packages packages ;; ret ("pip install --upgrade " ++ ps)
    else throw ("Unsupported pip action: " ++ action)
  else throw ("Unsupported package manager: " ++ manager).

Definition handlePackageOperation (operation : PackageOp) : M Reply :=
  let directory := truthy (pk_directory operation) in
  try_catch
    ((match directory with
      | Some d => target <- resolveProjectPath d ;; chdir target
      | None => ret tt
      end) ;;
     command <- package_command operation ;;
     result <- execPromise command ;;
     (match directory with
      | Some _ => saved <- gets currentDirectory ;; chdir saved
      | None => ret tt
      end) ;;
     ret (ReplyOutput result))
    (fun error =>
       saved <- gets currentDirectory ;;
       chdir saved ;;
       console ("Package management error: " ++ error) ;;
       throw error).

(** ** Process management *)

(** The branch of [stopProcess] for a name that is not registered. *)
Definition noRunningProcess (shown : string) : M Reply :=
  console ("No running process named " ++ shown) ;;
  ret (ReplyMessage false ("No running process named " ++ shown)).

Definition stopProcess (processName : string) : M Reply :=
  entry <- gets (fun s => JsMap.get processName (runningProcesses s)) ;;
  match entry with
  | None => noRunningProcess processName
  | Some details =>
      try_catch
        (call (EvKill (pe_process details)) (cp_kill env (pe_process details)) ;;
         modify (fun s => with_runningProcesses
                            (JsMap.delete processName (runningProcesses s)) s) ;;
         console ("Stopped process: " ++ processName) ;;
         ret (ReplyMessage true ("Process " ++ processName ++ " stopped")))
        (fun error =>
           console ("Error stopping process " ++ processName ++ ": " ++ error) ;;
           ret (ReplyError error))
  end.

(** [command.split(' ')[0]]. *)
Definition first_field (command : string) : string :=
  hd EmptyString (split_on " "%char command).

(** [name || command.split(' ')[0]]. *)
Definition process_key (command : string) (options : ProcessOptions) : string :=
  js_or (po_name options) (first_field command).

(** [spawn(cmd, args, {stdio, shell: true, cwd})].  Node validates the
    file first and throws on an empty one, before anything is spawned. *)
Definition spawn (cmd : string) (args : list string) (dir : string) (stdio : Stdio)
  : M Handle :=
  if String.eqb cmd EmptyString
  then throw "The argument 'file' cannot be empty. Received ''"
  else call_shown (cp_spawn env cmd args dir stdio)
                  (EvSpawn cmd args dir stdio) (EvSpawnFailed cmd args dir stdio).

Definition startProcess (command : string) (options : ProcessOptions) : M Reply :=
  sessionDir <- gets currentDirectory ;;
  let spawnDir := match po_cwd options with Some d => d | None => sessionDir end in
  let logFile := po_logFile options in
  let processName := process_key command options in
  registered <- gets (fun s => JsMap.has processName (runningProcesses s)) ;;
  (if registered then stopProcess processName ;; ret tt else ret tt) ;;
  if po_waitForExit options then
    result <- execPromise command ;;
    ret (ReplyOutput result)
  else
    let cmd := first_field command in
    let args := tl (split_on " "%char command) in
    stdio <- (match truthy logFile with
              | Some f =>
                  out <- call (EvOpenSync f) (fs_openSync env f) ;;
                  err <- call (EvOpenSync f) (fs_openSync env f) ;;
                  ret (StdioLog out err)
              | None => ret StdioInherit
              end) ;;
    childProcess <- spawn cmd args spawnDir stdio ;;
    startTime <- clock ;;
    modify (fun s => with_runningProcesses
                       (JsMap.set processName
                          {| pe_process := childProcess; pe_command := command;
                             pe_startTime := startTime; pe_logFile := logFile |}
                          (runningProcesses s)) s) ;;
    console ("Started process: " ++ processName) ;;
    ret (ReplyProcessName processName).

(** The ['exit'] observer installed by [startProcess]; the event loop runs it
    some time after the child has exited. *)
Definition onExit (processName code : string) : M unit :=
  console ("Process " ++ processName ++ " exited with code " ++ code) ;;
  modify (fun s => with_runningProcesses
                     (JsMap.delete processName (runningProcesses s)) s).

Definition listProcesses : M (list (string * string * nat * string)) :=
  time <- clock ;;
  gets (fun s =>
    map (fun e : string * ProcessEntry =>
           let (name, details) := e in
           (name, pe_command details,
            (time - pe_startTime details) / 1000,
            js_or (pe_logFile details) "N/A"))
        (runningProcesses s)).

(** ** File operations *)

Definition fs_do (c : FsWrite) : M unit :=
  fun s => call (EvFsWrite c) (fs_write env c (cwd s)) s.

Definition performFileOperation (operation : FileOp) : M Reply :=
  let action := fo_action operation in
  let filePath := fo_path operation in
  try_catch
    (fullPath <- resolveProjectPath filePath ;;
     if String.eqb action "read" then
       data <- (fun s => call (EvReadFile fullPath) (fs_readFile env fullPath (cwd s)) s) ;;
       ret (ReplyContent data)
     else if String.eqb action "write" then
       fs_do (FsWriteFile fullPath (fo_content operation)) ;;
       ret (ReplyMessage true ("File written: " ++ filePath))
     else if String.eqb action "append" then
       fs_do (FsAppendFile fullPath (fo_content operation)) ;;
       ret (ReplyMessage true ("Content appended to: " ++ filePath))
     else if String.eqb action "delete" then
       fs_do (FsUnlink fullPath) ;;
       ret (ReplyMessage true ("File deleted: " ++ filePath))
     else if String.eqb action "rename" then
       target <- resolveProjectPath (fo_newPath operation) ;;
       fs_do (FsRename fullPath target) ;;
       ret (ReplyMessage true
              ("File renamed from " ++ filePath ++ " to " ++ fo_newPath operation))
     else if String.eqb action "mkdir" then
       fs_do (FsMkdir fullPath) ;;
       ret (ReplyMessage true ("Directory created: " ++ filePath))
     else if String.eqb action "rmdir" then
       (if fo_recursive operation then fs_do (FsRm fullPath) else fs_do (FsRmdir fullPath)) ;;
       ret (ReplyMessage true ("Directory removed: " ++ filePath))
     else if String.eqb action "list" then
       files <- (fun s => call (EvReaddir fullPath) (fs_readdir env fullPath (cwd s)) s) ;;
       ret (ReplyFiles files)
     else if String.eqb action "watch" then
       watchFiles fullPath ;;
       ret (ReplyMessage true ("Watching: " ++ filePath))
     else throw ("Unsupported file operation: " ++ action))
    (fun error => console ("File operation error: " ++ error) ;; throw error).

(** ** Project setup and deployment *)

Definition setup_step (step : SetupStep) : M unit :=
  match step with
  | StepMkdir path =>
      fs_do (FsMkdir path) ;; console ("Created directory: " ++ path)
  | StepWrite path content =>
      fs_do (FsWriteFile path content) ;; console ("Created file: " ++ path)
  | StepExec command => execPromise command ;; ret tt
  | StepInstall manager packages options =>
      handlePackageOperation
        {| pk_manager := manager; pk_action := "install"; pk_packages := packages;
           pk_options := options; pk_directory := None |} ;;
      ret tt
  | StepStart command options =>
      startProcess command (match options with Some o => o | None => no_options end) ;;
      ret tt
  | StepGit details => handleGitOperation details ;; ret tt
  | StepDatabase details => handleDatabaseOperation details ;; ret tt
  | StepOther type => console ("Unsupported setup step: " ++ type)
  end.

Definition handleProjectSetup (setup : Setup) : M unit :=
  console ("Setting up " ++ su_projectType setup ++ " project: " ++ su_name setup) ;;
  try_catch
    (projectPath <- resolveProjectPath (js_or (su_path setup) (su_name setup)) ;;
     fs_do (FsMkdir projectPath) ;;
     chdir projectPath ;;
     modify (with_currentDirectory projectPath) ;;
     for_each (su_steps setup) setup_step ;;
     console ("Project setup complete: " ++ su_name setup))
    (fun error => console ("Project setup error: " ++ error) ;; throw error).

Definition deploy_step (platform : string) (step : DeployStep) : M unit :=
  match step with
  | DeployBuild command =>
      console "Building for deployment..." ;; execPromise command ;; ret tt
  | DeployConfig path content command =>
      console "Configuring deployment..." ;;
      match truthy path, truthy content, truthy command with
      | Some p, Some c, _ => fs_do (FsWriteFile p c)
      | _, _, Some cmd => execPromise cmd ;; ret tt
      | _, _, None => ret tt
      end
  | DeployUpload command =>
      console ("Uploading to " ++ platform ++ "...") ;; execPromise command ;; ret tt
  | DeployInvoke command =>
      console "Invoking deployment command..." ;; execPromise command ;; ret tt
  | DeployOther type => console ("Unsupported deployment step: " ++ type)
  end.

Definition handleDeployment (deployment : Deployment) : M unit :=
  console ("Deploying to " ++ dp_platform deployment ++ "...") ;;
  try_catch
    (for_each (dp_steps deployment) (deploy_step (dp_platform deployment)) ;;
     console ("Deployment to " ++ dp_platform deployment ++ " complete!"))
    (fun error => console ("Deployment error: " ++ error) ;; throw error).

(** ** The plan dispatcher *)

(** The body of the loop over [plan.actions]: the [switch] on [action.type]. *)
Definition dispatch (action : Action) : M unit :=
  match action with
  | ProjectSetup setup => handleProjectSetup setup
  | FileOperation operation =>
      result <- performFileOperation operation ;;
      match result with
      | ReplyContent content =>
          if String.eqb content EmptyString then ret tt
          else console "File contents:" ;; console content
      | _ => ret tt
      end
  | PackageOperation operation => handlePackageOperation operation ;; ret tt
  | ProcessStart command options =>
      startProcess command (match options with Some o => o | None => no_options end) ;;
      ret tt
  | ProcessStop None => throw "Cannot read properties of undefined (reading 'name')"
  | ProcessStop (Some options) =>
      match po_name options with
      | Some name => stopProcess name
      | None => noRunningProcess "undefined"
      end ;;
      ret tt
  | ProcessList =>
      processes <- listProcesses ;; emit (EvConsoleTable processes)
  | ProcessOther _ => ret tt
  | DatabaseOperation operation => handleDatabaseOperation operation ;; ret tt
  | GitOperation operation => handleGitOperation operation ;; ret tt
  | DeployOperation deployment => handleDeployment deployment
  | UnsupportedAction type => console ("Unsupported action type: " ++ type)
  end.

Definition run_actions (actions : list Action) : M unit := for_each actions dispatch.

(** Lines 547-555: the plan is announced and recorded in the history. *)
Definition record_command (userCommand : string) (plan : Plan) : M unit :=
  console ("Command parsed: " ++ plan_description plan) ;;
  timestamp <- clock ;;
  modify (fun s => with_history
                     (history s ++
                        [{| he_command := userCommand; he_timestamp := timestamp;
                            he_type := plan_type plan;
                            he_description := plan_description plan |}]) s).

(** [executeAICommand] from the point where the model's answer has been
    parsed ([parsed] is the outcome of the parsing step, see [PlanText]):
    history entry, the loop over the actions, and the catch-all. *)
Definition executeAICommand (userCommand : string) (parsed : outcome Plan) : M bool :=
  try_catch
    (plan <- match parsed with Returned p => ret p | Thrown e => throw e end ;;
     record_command userCommand plan ;;
     run_actions (plan_actions plan) ;;
     (if plan_needsMonitoring plan then console "Setting up monitoring..." else ret tt) ;;
     ret true)
    (fun error => console ("Error: " ++ error) ;; ret false).

(** ** Shutdown *)

(** The [exit] branch of [main].  The three loops walk the live maps; since
    [stopProcess name] removes at most the entry being visited, walking the
    keys present when the loop starts visits the same entries. *)
Definition exit_sequence : M unit :=
  console "Cleaning up before exit..." ;;
  names <- gets (fun s => JsMap.keys (runningProcesses s)) ;;
  for_each names (fun name =>
    console ("Stopping process: " ++ name) ;;
    stopProcess name ;;
    ret tt) ;;
  watchers <- gets fileWatchers ;;
  for_each watchers (fun entry : string * Handle =>
    console ("Stopping file watcher for: " ++ fst entry) ;;
    call (EvWatcherClose (snd entry)) (watcher_close env (snd entry))) ;;
  connections <- gets databases ;;
  for_each connections (fun entry : string * Handle =>
    console ("Closing database connection: " ++ fst entry) ;;
    call (EvConnectionClose (snd entry)) (connection_close env (snd entry))) ;;
  console "Thank you for using Super AI Agent! Goodbye.".

(** The clean-up of the fatal-error handler at the bottom of [index.js]:
    every kill and close sits in its own [try]/[catch]. *)
Definition fatal_cleanup : M unit :=
  processes <- gets runningProcesses ;;
  (match processes with
   | [] => ret tt
   | _ => console "Attempting to stop running processes before exit..."
   end) ;;
  for_each processes (fun entry : string * ProcessEntry =>
    try_catch
      (call (EvKill (pe_process (snd entry))) (cp_kill env (pe_process (snd entry))) ;;
       console ("Stopped process: " ++ fst entry))
      (fun e => console ("Failed to stop process " ++ fst entry ++ ": " ++ e))) ;;
  watchers <- gets fileWatchers ;;
  for_each watchers (fun entry : string * Handle =>
    try_catch
      (call (EvWatcherClose (snd entry)) (watcher_close env (snd entry)) ;;
       console ("Stopped file watcher for: " ++ fst entry))
      (fun e => console ("Failed to close watcher for " ++ fst entry ++ ": " ++ e))) ;;
  connections <- gets databases ;;
  for_each connections (fun entry : string * Handle =>
    try_catch
      (call (EvConnectionClose (snd entry)) (connection_close env (snd entry)) ;;
       console ("Closed database connection: " ++ fst entry))
      (fun e => console ("Failed to close database connection " ++ fst entry ++ ": " ++ e))).

End Shell.

Arguments initial env w dir : clear implicits.

(** ** The text of the model's answer

    Lines 526-545 of [executeAICommand]: trimming, the chain of
    [String.prototype.replace] calls, the two [JSON.parse] calls and the
    extraction of the span between the first [{] and the last [}].  A
    JavaScript string is its sequence of UTF-16 code units. *)

Module PlanText.

Local Open Scope N_scope.

Definition jsstring := list N.

Fixpoint of_string (s : string) : jsstring :=
  match s with
  | EmptyString => []
  | String c rest => N_of_ascii c :: of_string rest
  end.

(** *** Character classes of ECMAScript *)

Definition is_line_terminator (c : N) : bool :=
  (c =? 10) || (c =? 13) || (c =? 0x2028) || (c =? 0x2029).

Definition is_white_space (c : N) : bool :=
  (c =? 9) || (c =? 11) || (c =? 12) || (c =? 32) || (c =? 160) || (c =? 0xFEFF)
  || (c =? 0x1680) || ((0x2000 <=? c) && (c <=? 0x200A))
  || (c =? 0x202F) || (c =? 0x205F) || (c =? 0x3000).

(** The regular-expression class [\s], also what [trim] strips. *)
Definition is_space (c : N) : bool := is_white_space c || is_line_terminator c.

(** The class of U+200B to U+200D and U+FEFF. *)
Definition is_zero_width (c : N) : bool :=
  ((0x200B <=? c) && (c <=? 0x200D)) || (c =? 0xFEFF).

(** *** String methods *)

Fixpoint trimStart (s : jsstring) : jsstring :=
  match s with
  | [] => []
  | c :: rest => if is_space c then trimStart rest else s
  end.

Definition trim (s : jsstring) : jsstring :=
  rev (trimStart (rev (trimStart s))).

Fixpoint starts_with (prefix s : jsstring) : bool :=
  match prefix, s with
  | [], _ => true
  | _ :: _, [] => false
  | p :: prefix', c :: s' => (p =? c) && starts_with prefix' s'
  end.

Fixpoint indexOf (c : N) (s : jsstring) : option nat :=
  match s with
  | [] => None
  | d :: rest =>
      if d =? c then Some O
      else match indexOf c rest with Some i => Some (S i) | None => None end
  end.

Fixpoint lastIndexOf (c : N) (s : jsstring) : option nat :=
  match s with
  | [] => None
  | d :: rest =>
      match lastIndexOf c rest with
      | Some i => Some (S i)
      | None => if d =? c then Some O else None
      end
  end.

Definition includes (c : N) (s : jsstring) : bool :=
  match indexOf c s with Some _ => true | None => false end.

(** [s.substring(a, b)]: the arguments are swapped when [a > b]. *)
Definition substring (a b : nat) (s : jsstring) : jsstring :=
  firstn (Nat.max a b - Nat.min a b) (skipn (Nat.min a b) s).

(** [s.replace(re, '')] for a global [re] that never matches the empty
    string: [match_length s] is the length of the match of [re] at the start
    of [s], if there is one.  Scanning resumes after each match. *)
Fixpoint remove_matches (match_length : jsstring -> option nat) (skip : nat)
    (s : jsstring) : jsstring :=
  match s with
  | [] => []
  | c :: rest =>
      match skip with
      | S k => remove_matches match_length k rest
      | O =>
          match match_length s with
          | Some (S k) => remove_matches match_length k rest
          | _ => c :: remove_matches match_length O rest
          end
      end
  end.

(** *** The five patterns *)

Definition optional_space (s : jsstring) : nat :=
  match s with
  | c :: _ => if is_space c then 1%nat else O
  | [] => O
  end.

Definition backticks : jsstring := [96; 96; 96].

(** [/```json\s?/]. *)
Definition fence_json (s : jsstring) : option nat :=
  let opening := (backticks ++ of_string "json")%list in
  if starts_with opening s
  then Some (List.length opening + optional_space (skipn (List.length opening) s))%nat
  else None.

(** [/```\s?/]. *)
Definition fence (s : jsstring) : option nat :=
  if starts_with backticks s
  then Some (3 + optional_space (skipn 3 s))%nat
  else None.

(** The character class of [is_zero_width], as a pattern. *)
Definition zero_width (s : jsstring) : option nat :=
  match s with
  | c :: _ => if is_zero_width c then Some 1%nat else None
  | [] => None
  end.

(** Length of the longest prefix without a line terminator: what [.+] or
    [.*] takes. *)
Fixpoint dots (s : jsstring) : nat :=
  match s with
  | [] => O
  | c :: rest => if is_line_terminator c then O else S (dots rest)
  end.

(** [/\/\/.+/]. *)
Definition line_comment (s : jsstring) : option nat :=
  match s with
  | 47 :: 47 :: rest =>
      match dots rest with
      | O => None
      | n => Some (2 + n)%nat
      end
  | _ => None
  end.

(** Position just after the first [*/] of [s]. *)
Fixpoint after_close (s : jsstring) : option nat :=
  match s with
  | [] => None
  | c :: rest =>
      if (c =? 42) && starts_with [47] rest then Some 2%nat
      else match after_close rest with Some n => Some (S n) | None => None end
  end.

(** [/\/\*[\s\S]*?\*\//]. *)
Definition block_comment (s : jsstring) : option nat :=
  match s with
  | 47 :: 42 :: rest =>
      match after_close rest with
      | Some n => Some (2 + n)%nat
      | None => None
      end
  | _ => None
  end.

(** [cleanJson]. *)
Definition clean (planText : jsstring) : jsstring :=
  remove_matches block_comment O
    (remove_matches line_comment O
       (remove_matches zero_width O
          (remove_matches fence O
             (remove_matches fence_json O planText)))).

(** The span the source extracts: from the first [{] to the last [}]. *)
Definition brace_span (planText : jsstring) : option jsstring :=
  match indexOf 123 planText, lastIndexOf 125 planText with
  | Some jsonStart, Some last => Some (substring jsonStart (S last) planText)
  | _, _ => None
  end.

(** *** [JSON.parse]

    The JSON grammar of ECMA-404 as a recursive-descent parser.  Nesting is
    bounded by [fuel]; [JSON_parse] supplies more than any input can use
    (see [JSON_parse_fuel]). *)

Inductive json : Type :=
| JNull
| JBool (b : bool)
| JNumber (lexeme : jsstring)
| JString (s : jsstring)
| JArray (items : list json)
| JObject (members : list (jsstring * json)).

Inductive parsed (A : Type) : Type :=
| Parsed (a : A) (rest : jsstring)
| SyntaxError
| OutOfFuel.

Arguments Parsed {A} a rest.
Arguments SyntaxError {A}.
Arguments OutOfFuel {A}.

Definition is_json_ws (c : N) : bool :=
  (c =? 9) || (c =? 10) || (c =? 13) || (c =? 32).

Fixpoint skip_ws (s : jsstring) : jsstring :=
  match s with
  | [] => []
  | c :: rest => if is_json_ws c then skip_ws rest else s
  end.

Definition is_digit (c : N) : bool := (48 <=? c) && (c <=? 57).

Definition hex_value (c : N) : option N :=
  if is_digit c then Some (c - 48)
  else if (97 <=? c) && (c <=? 102) then Some (c - 87)
  else if (65 <=? c) && (c <=? 70) then Some (c - 55)
  else None.

(** The character after a backslash, [u] apart. *)
Definition unescape (c : N) : option N :=
  if c =? 34 then Some 34
  else if c =? 92 then Some 92
  else if c =? 47 then Some 47
  else if c =? 98 then Some 8
  else if c =? 102 then Some 12
  else if c =? 110 then Some 10
  else if c =? 114 then Some 13
  else if c =? 116 then Some 9
  else None.

(** A string after its opening quote: the contents and what follows the
    closing quote. *)
Fixpoint string_body (s : jsstring) : option (jsstring * jsstring) :=
  match s with
  | [] => None
  | c :: rest =>
      if c =? 34 then Some ([], rest)
      else if c =? 92 then
        match rest with
        | [] => None
        | e :: rest' =>
            if e =? 117 then
              match rest' with
              | h1 :: h2 :: h3 :: h4 :: rest'' =>
                  match hex_value h1, hex_value h2, hex_value h3, hex_value h4 with
                  | Some a, Some b, Some c', Some d =>
                      match string_body rest'' with
                      | Some (body, r) => Some ((((a * 16 + b) * 16 + c') * 16 + d) :: body, r)
                      | None => None
                      end
                  | _, _, _, _ => None
                  end
              | _ => None
              end
            else
              match unescape e with
              | Some ch =>
                  match string_body rest' with
                  | Some (body, r) => Some (ch :: body, r)
                  | None => None
                  end
              | None => None
              end
        end
      else if c <? 32 then None
      else
        match string_body rest with
        | Some (body, r) => Some (c :: body, r)
        | None => None
        end
  end.

Fixpoint digits (s : jsstring) : jsstring * jsstring :=
  match s with
  | [] => ([], [])
  | c :: rest =>
      if is_digit c then let (ds, r) := digits rest in (c :: ds, r)
      else ([], s)
  end.

Definition fraction (s : jsstring) : option (jsstring * jsstring) :=
  match s with
  | c :: r =>
      if c =? 46 then
        match digits r with
        | ([], _) => None
        | (ds, r') => Some (46 :: ds, r')
        end
      else Some ([], s)
  | [] => Some ([], s)
  end.

Definition exponent_sign (s : jsstring) : jsstring * jsstring :=
  match s with
  | x :: r => if (x =? 43) || (x =? 45) then ([x], r) else ([], s)
  | [] => ([], s)
  end.

Definition exponent (s : jsstring) : option (jsstring * jsstring) :=
  match s with
  | e :: r =>
      if (e =? 101) || (e =? 69) then
        let (sign, r1) := exponent_sign r in
        match digits r1 with
        | ([], _) => None
        | (ds, r2) => Some ((e :: sign ++ ds)%list, r2)
        end
      else Some ([], s)
  | [] => Some ([], s)
  end.

(** A number, first character not a minus sign. *)
Definition unsigned_number (s : jsstring) : option (jsstring * jsstring) :=
  match s with
  | [] => None
  | d :: r =>
      if is_digit d then
        let (int, s1) := if d =? 48 then ([d], r)
                         else let (ds, r') := digits r in (d :: ds, r') in
        match fraction s1 with
        | None => None
        | Some (frac, s2) =>
            match exponent s2 with
            | None => None
            | Some (exp, s3) => Some ((int ++ frac ++ exp)%list, s3)
            end
        end
      else None
  end.

Definition number (s : jsstring) : option (jsstring * jsstring) :=
  match s with
  | c :: r =>
      if c =? 45 then
        match unsigned_number r with
        | Some (lexeme, rest) => Some (45 :: lexeme, rest)
        | None => None
        end
      else unsigned_number s
  | [] => None
  end.

(** White space, then the character [c]: what follows it. *)
Definition expect (c : N) (s : jsstring) : option jsstring :=
  match skip_ws s with
  | d :: rest => if d =? c then Some rest else None
  | [] => None
  end.

Fixpoint value (fuel : nat) (s : jsstring) {struct fuel} : parsed json :=
  match fuel with
  | O => OutOfFuel
  | S fuel' =>
      match skip_ws s with
      | [] => SyntaxError
      | c :: rest =>
          if c =? 123 then
            match expect 125 rest with
            | Some rest' => Parsed (JObject []) rest'
            | None =>
                match members fuel' rest with
                | Parsed ms r => Parsed (JObject ms) r
                | SyntaxError => SyntaxError
                | OutOfFuel => OutOfFuel
                end
            end
          else if c =? 91 then
            match expect 93 rest with
            | Some rest' => Parsed (JArray []) rest'
            | None =>
                match elements fuel' rest with
                | Parsed vs r => Parsed (JArray vs) r
                | SyntaxError => SyntaxError
                | OutOfFuel => OutOfFuel
                end
            end
          else if c =? 34 then
            match string_body rest with
            | Some (str, r) => Parsed (JString str) r
            | None => SyntaxError
            end
          else if starts_with (of_string "true") (c :: rest) then
            Parsed (JBool true) (skipn 4 (c :: rest))
          else if starts_with (of_string "false") (c :: rest) then
            Parsed (JBool false) (skipn 5 (c :: rest))
          else if starts_with (of_string "null") (c :: rest) then
            Parsed JNull (skipn 4 (c :: rest))
          else
            match number (c :: rest) with
            | Some (lexeme, r) => Parsed (JNumber lexeme) r
            | None => SyntaxError
            end
      end
  end
with members (fuel : nat) (s : jsstring) {struct fuel} : parsed (list (jsstring * json)) :=
  match fuel with
  | O => OutOfFuel
  | S fuel' =>
      match expect 34 s with
      | None => SyntaxError
      | Some rest =>
          match string_body rest with
          | None => SyntaxError
          | Some (key, r1) =>
              match expect 58 r1 with
              | None => SyntaxError
              | Some r2 =>
                  match value fuel' r2 with
                  | Parsed v r3 =>
                      match expect 44 r3 with
                      | Some r4 =>
                          match members fuel' r4 with
                          | Parsed ms r5 => Parsed ((key, v) :: ms) r5
                          | SyntaxError => SyntaxError
                          | OutOfFuel => OutOfFuel
                          end
                      | None =>
                          match expect 125 r3 with
                          | Some r4 => Parsed [(key, v)] r4
                          | None => SyntaxError
                          end
                      end
                  | SyntaxError => SyntaxError
                  | OutOfFuel => OutOfFuel
                  end
              end
          end
      end
  end
with elements (fuel : nat) (s : jsstring) {struct fuel} : parsed (list json) :=
  match fuel with
  | O => OutOfFuel
  | S fuel' =>
      match value fuel' s with
      | Parsed v r1 =>
          match expect 44 r1 with
          | Some r2 =>
              match elements fuel' r2 with
              | Parsed vs r3 => Parsed (v :: vs) r3
              | SyntaxError => SyntaxError
              | OutOfFuel => OutOfFuel
              end
          | None =>
              match expect 93 r1 with
              | Some r2 => Parsed [v] r2
              | None => SyntaxError
              end
          end
      | SyntaxError => SyntaxError
      | OutOfFuel => OutOfFuel
      end
  end.

(** [JSON.parse(text)]: one value, then nothing but white space. *)
Definition JSON_parse (text : jsstring) : parsed json :=
  match value (2 * List.length text + 2) text with
  | Parsed v rest =>
      match skip_ws rest with
      | [] => Parsed v []
      | _ :: _ => SyntaxError
      end
  | SyntaxError => SyntaxError
  | OutOfFuel => OutOfFuel
  end.

(** *** The parsing step of [executeAICommand]

    [cleanJson] is parsed first and its value discarded; the plan that is
    used comes from the untouched [planText]. *)
Definition parse_response (response : jsstring) : parsed json :=
  let planText := trim response in
  let cleanJson := clean planText in
  match JSON_parse cleanJson with
  | Parsed _ _ =>
      if includes 123 planText && includes 125 planText then
        match brace_span planText with
        | Some jsonStr => JSON_parse jsonStr
        | None => JSON_parse planText
        end
      else JSON_parse planText
  | SyntaxError => SyntaxError
  | OutOfFuel => OutOfFuel
  end.

(** *** Sample answers of the model *)

(** A first character of ordinary prose: an ASCII letter other than the
    [t], [f] and [n] that begin the JSON literals. *)
Definition is_prose_letter (c : N) : bool :=
  ((65 <=? c) && (c <=? 90))
  || ((97 <=? c) && (c <=? 122)
      && negb (c =? 116) && negb (c =? 102) && negb (c =? 110)).

Definition quoted (s : string) : string := dquote ++ s ++ dquote.

Definition newline : string := String (ascii_of_nat 10) EmptyString.

Definition member (key value : string) : string := quoted key ++ ":" ++ value.

(** A complete plan with no action. *)
Definition plan_object : string :=
  "{" ++ member "type" (quoted "file") ++ ","
      ++ member "actions" "[]" ++ ","
      ++ member "context" ("{" ++ member "description" (quoted "nothing to do") ++ "}")
      ++ "}".

(** The plan between two sentences of prose. *)
Definition prose_response : string :=
  "Here is the plan: " ++ plan_object ++ " Hope this helps.".

(** The plan in a markdown fence. *)
Definition fenced_response : string :=
  "```json" ++ newline ++ plan_object ++ newline ++ "```".

(** A plan whose one action clones a repository by its URL, in a fence. *)
Definition clone_response : string :=
  "```json" ++ newline ++
  "{" ++ member "type" (quoted "git") ++ ","
      ++ member "actions"
           ("[{" ++ member "type" (quoted "git-operation") ++ ","
                 ++ member "action" (quoted "clone") ++ ","
                 ++ member "repository" (quoted "https://example.org/repo.git") ++ "}]")
      ++ ","
      ++ member "context" ("{" ++ member "description" (quoted "clone") ++ "}")
      ++ "}" ++ newline ++ "```".

(** The value [JSON.parse] gives for [plan_object]. *)
Definition plan_value : json :=
  JObject
    [(of_string "type", JString (of_string "file"));
     (of_string "actions", JArray []);
     (of_string "context",
      JObject [(of_string "description", JString (of_string "nothing to do"))])].

End PlanText.

(** ** A concrete environment

    A small world for examples: a flat table of files, a counter for
    handles, commands that fail, directories that are gone and handles
    whose kill or close throws. *)

Module Demo.

Record world : Type := {
  files : JsMap.t string;
  gone : list string;
  failing : list string;
  stuck : list Handle;
  next : Handle;
  time : nat
}.

Definition with_files (f : JsMap.t string) (w : world) : world :=
  {| files := f; gone := gone w; failing := failing w; stuck := stuck w;
     next := next w; time := time w |}.

Definition fresh (w : world) : Handle * world :=
  (next w,
   {| files := files w; gone := gone w; failing := failing w; stuck := stuck w;
      next := S (next w); time := time w |}).

Definition mem (x : string) (xs : list string) : bool := existsb (String.eqb x) xs.

Definition is_stuck (h : Handle) (w : world) : bool := existsb (Nat.eqb h) (stuck w).

Definition exec (command cwd : string) (w : world) : outcome string * world :=
  if mem command (failing w) then (Thrown ("Command failed: " ++ command), w)
  else (Returned "ok", w).

Definition readFile (path cwd : string) (w : world) : outcome string * world :=
  match JsMap.get path (files w) with
  | Some content => (Returned content, w)
  | None => (Thrown ("ENOENT: no such file or directory, open " ++ path), w)
  end.

Definition readdir (path cwd : string) (w : world) : outcome (list string) * world :=
  (Returned (JsMap.keys (files w)), w).

Definition write (c : FsWrite) (cwd : string) (w : world) : outcome unit * world :=
  match c with
  | FsWriteFile path content => (Returned tt, with_files (JsMap.set path content (files w)) w)
  | FsAppendFile path content =>
      let old := match JsMap.get path (files w) with Some x => x | None => EmptyString end in
      (Returned tt, with_files (JsMap.set path (old ++ content) (files w)) w)
  | FsUnlink path =>
      if JsMap.has path (files w)
      then (Returned tt, with_files (JsMap.delete path (files w)) w)
      else (Thrown ("ENOENT: no such file or directory, unlink " ++ path), w)
  | FsRename path newPath =>
      match JsMap.get path (files w) with
      | Some content =>
          (Returned tt, with_files (JsMap.set newPath content (JsMap.delete path (files w))) w)
      | None => (Thrown ("ENOENT: no such file or directory, rename " ++ path), w)
      end
  | FsMkdir _ => (Returned tt, w)
  | FsRm _ => (Returned tt, w)
  | FsRmdir _ => (Returned tt, w)
  end.

Definition guarded {A} (faulty : bool) (h : Handle) (a : A) (what : string) (w : world)
  : outcome A * world :=
  if faulty && is_stuck h w then (Thrown what, w) else (Returned a, w).

(** With [faulty] the stuck handles throw; without it no kill or close
    ever does. *)
Definition make (faulty : bool) : Env :=
  {| World := world;
     path_isAbsolute := fun p => match p with String "/" _ => true | _ => false end;
     path_join := fun a b => a ++ "/" ++ b;
     now := time;
     can_chdir := fun d w => negb (mem d (gone w));
     sh_exec := exec;
     fs_readFile := readFile;
     fs_readdir := readdir;
     fs_write := write;
     fs_openSync := fun _ w => (Thrown "fs.openSync is not a function", w);
     cp_spawn := fun _ _ _ _ w => let (h, w') := fresh w in (Returned h, w');
     cp_kill := fun h => guarded faulty h true "kill EPERM";
     chokidar_watch := fun _ w => fresh w;
     watcher_close := fun h => guarded faulty h tt "watcher is stuck";
     mongoose_connect := fun _ w => let (h, w') := fresh w in (Returned h, w');
     mongo_call := fun _ w => (Returned (O, []), w);
     connection_close := fun h => guarded faulty h tt "connection is stuck" |}.

Definition env : Env := make true.

Definition calm : Env := make false.

(** The calm environment with its own [chdir] and its own way of closing
    a database connection. *)
Definition make_with (can : string -> world -> bool)
    (close : Handle -> world -> outcome unit * world) : Env :=
  {| World := world;
     path_isAbsolute := path_isAbsolute calm;
     path_join := path_join calm;
     now := time;
     can_chdir := can;
     sh_exec := exec;
     fs_readFile := readFile;
     fs_readdir := readdir;
     fs_write := write;
     fs_openSync := fs_openSync calm;
     cp_spawn := fun _ _ _ _ w => let (h, w') := fresh w in (Returned h, w');
     cp_kill := fun h => guarded false h true "kill EPERM";
     chokidar_watch := fun _ w => fresh w;
     watcher_close := fun h => guarded false h tt "watcher is stuck";
     mongoose_connect := fun _ w => let (h, w') := fresh w in (Returned h, w');
     mongo_call := fun _ w => (Returned (O, []), w);
     connection_close := close |}.

(** Every directory can be entered. *)
Definition steady : Env :=
  make_with (fun _ _ => true) (fun _ w => (Returned tt, w)).


Definition quiet : world :=
  {| files := []; gone := []; failing := []; stuck := []; next := 1; time := 0 |}.

(** The session as [main] finds it, in [/home/u]. *)
Definition start : State env := initial env quiet "/home/u".

Definition file_op (action path content : string) : FileOp :=
  {| fo_action := action; fo_path := path; fo_content := content;
     fo_newPath := EmptyString; fo_recursive := false |}.

Definition named (name : string) : ProcessOptions :=
  {| po_name := Some name; po_waitForExit := false; po_cwd := None; po_logFile := None |}.

Definition mongo_op (action : string) : DatabaseOp :=
  {| db_dbType := Some "mongodb"; db_action := action;
     db_connectionString := "mongodb-local"; db_collection := "users";
     db_data := EmptyString; db_query := EmptyString |}.

Definition mysql_query : DatabaseOp :=
  {| db_dbType := Some "mysql"; db_action := "query";
     db_connectionString := "mysql-local"; db_collection := "users";
     db_data := EmptyString; db_query := EmptyString |}.

Definition oracle_query : DatabaseOp :=
  {| db_dbType := Some "oracle"; db_action := "query";
     db_connectionString := "oracle-local"; db_collection := "users";
     db_data := EmptyString; db_query := EmptyString |}.

Definition npm_install (directory : option string) : PackageOp :=
  {| pk_manager := "npm"; pk_action := "install"; pk_packages := Some ["express"];
     pk_options := None; pk_directory := directory |}.

(** A plan whose second action fails: [missing.txt] does not exist. *)
Definition write_read_write : Plan :=
  {| plan_type := "file";
     plan_actions :=
       [FileOperation (file_op "write" "a.txt" "hi");
        FileOperation (file_op "read" "missing.txt" EmptyString);
        FileOperation (file_op "write" "b.txt" "never")];
     plan_description := "write, read, write";
     plan_needsMonitoring := false |}.

(** The actions that register one process, one watcher and one connection. *)
Definition one_of_each : list Action :=
  [ProcessStart "sleep 1000" (Some (named "bg"));
   FileOperation (file_op "watch" "src" EmptyString);
   DatabaseOperation (mongo_op "create-collection")].

(** A session with one tracked process, one watcher and one connection. *)
Definition busy : State env := snd (run_actions one_of_each start).

(** The same session where no kill or close throws. *)
Definition busy_calm : State calm :=
  snd (run_actions one_of_each (initial calm quiet "/home/u")).

(** A session whose watcher cannot be closed. *)
Definition busy_stuck : State env :=
  snd (run_actions one_of_each
         (initial env
            {| files := []; gone := []; failing := []; stuck := [2]; next := 1; time := 0 |}
            "/home/u")).

(** The entry a start of [sleep 1000] under the name [bg] registers. *)
Definition bg_entry : ProcessEntry :=
  {| pe_process := 1; pe_command := "sleep 1000"; pe_startTime := 0; pe_logFile := None |}.

(** The session after that start. *)
Definition tracking : State env := snd (startProcess "sleep 1000" (named "bg") start).

(** A session in which [npm install] fails. *)
Definition offline : State env :=
  initial env
    {| files := []; gone := []; failing := ["npm install express "]; stuck := [];
       next := 1; time := 0 |}
    "/home/u".

(** A session whose one process cannot be signalled. *)
Definition unkillable : State env :=
  snd (startProcess "sleep 1000" (named "bg")
         (initial env
            {| files := []; gone := []; failing := []; stuck := [1]; next := 1; time := 0 |}
            "/home/u")).

(** *** Inputs of the further examples *)

Definition git_op (action : string) : GitOp :=
  {| git_action := action; git_repository := None; git_branch := None;
     git_message := None |}.

(** A manager the prompt offers and the executor does not know. *)
Definition yarn_add : PackageOp :=
  {| pk_manager := "yarn"; pk_action := "add"; pk_packages := Some ["left-pad"];
     pk_options := None; pk_directory := Some "app" |}.

(** A blocking start under the name [bg]. *)
Definition waiting : ProcessOptions :=
  {| po_name := Some "bg"; po_waitForExit := true; po_cwd := None; po_logFile := None |}.

(** A background start under the name [bg] with a log file. *)
Definition logged : ProcessOptions :=
  {| po_name := Some "bg"; po_waitForExit := false; po_cwd := None;
     po_logFile := Some "out.log" |}.

(** A plan of two actions the dispatcher has no case for. *)
Definition unknown_actions : Plan :=
  {| plan_type := "system";
     plan_actions := [UnsupportedAction "send-email"; ProcessOther "restart"];
     plan_description := "mail and restart";
     plan_needsMonitoring := false |}.

(** A project whose second step, the install, fails in [offline]. *)
Definition app_setup : Setup :=
  {| su_projectType := "node"; su_name := "app"; su_path := None;
     su_steps := [StepExec "npm init -y";
                  StepInstall "npm" (Some ["express"]) None;
                  StepWrite "index.js" "// never written"] |}.

Definition app_plan : Plan :=
  {| plan_type := "project"; plan_actions := [ProjectSetup app_setup];
     plan_description := "new project"; plan_needsMonitoring := false |}.

Definition firebase : Deployment :=
  {| dp_platform := "firebase";
     dp_steps := [DeployBuild "npm run build"; DeployUpload "firebase deploy";
                  DeployInvoke "curl example.org"] |}.

(** A session in which the upload fails. *)
Definition unreachable : State env :=
  initial env
    {| files := []; gone := []; failing := ["firebase deploy"]; stuck := [];
       next := 1; time := 0 |}
    "/home/u".


End Demo.

(** ** Vocabulary of the statements *)

(** The wording of the specification for the default registry key: the
    first white-space-separated token of the command. *)
Definition is_whitespace (c : ascii) : bool :=
  let n := nat_of_ascii c in
  Nat.eqb n 32 || (Nat.leb 9 n && Nat.leb n 13).

Fixpoint skip_whitespace (s : string) : string :=
  match s with
  | EmptyString => EmptyString
  | String c rest => if is_whitespace c then skip_whitespace rest else s
  end.

Fixpoint until_whitespace (s : string) : string :=
  match s with
  | EmptyString => EmptyString
  | String c rest => if is_whitespace c then EmptyString else String c (until_whitespace rest)
  end.

Definition first_whitespace_token (command : string) : string :=
  until_whitespace (skip_whitespace command).

(** The one-character string holding a tab. *)
Definition tab : string := String (ascii_of_nat 9) EmptyString.

Section Vocabulary.
Variable env : Env.

(** The state [stopProcess] leaves when [kill()] returned. *)
Definition stopped (name : string) (child : Handle) (w : World env) (s : State env)
  : State env :=
  with_trace (trace s ++ [EvKill child; EvConsole ("Stopped process: " ++ name)])
    (with_runningProcesses (JsMap.delete name (runningProcesses s))
       (with_world w s)).

(** The value of [resolveProjectPath(filePath)] in state [s]. *)
Definition full_path (s : State env) (filePath : string) : string :=
  if path_isAbsolute env filePath then filePath
  else path_join env (currentDirectory s) filePath.

(** The state [watchFiles] leaves when it installs a watcher. *)
Definition watching (dirPath : string) (watcher : Handle) (w : World env)
    (s : State env) : State env :=
  with_trace
    (trace s ++ [EvWatch dirPath watcher; EvConsole ("Watching directory: " ++ dirPath)])
    (with_fileWatchers (JsMap.set dirPath watcher (fileWatchers s)) (with_world w s)).

(** [n] further invocations of one file operation. *)
Definition repeat_operation (n : nat) (operation : FileOp) (s : State env) : State env :=
  Nat.iter n (fun st => snd (performFileOperation operation st)) s.

(** The [cwd] option of a start, [projectState.currentDirectory] by default. *)
Definition spawn_dir (options : ProcessOptions) (s : State env) : string :=
  match po_cwd options with Some d => d | None => currentDirectory s end.

(** The state a background [startProcess] without log file leaves, from a
    state in which the key is free. *)
Definition started (command : string) (options : ProcessOptions) (child : Handle)
    (w : World env) (s : State env) : State env :=
  with_trace
    (trace s ++
       [EvSpawn (first_field command) (tl (split_on " "%char command))
          (spawn_dir options s) StdioInherit child;
        EvConsole ("Started process: " ++ process_key command options)])
    (with_runningProcesses
       (JsMap.set (process_key command options)
          {| pe_process := child; pe_command := command;
             pe_startTime := now env w; pe_logFile := po_logFile options |}
          (runningProcesses s))
       (with_world w s)).

(** [m] keeps the state property [P], whether it returns or throws. *)
Definition preserves {A} (P : State env -> Prop) (m : M env A) : Prop :=
  forall s, P s -> P (snd (m s)).

(** The three registries are [Map]s: no key twice. *)
Definition registries_wf (s : State env) : Prop :=
  JsMap.wf (runningProcesses s) /\ JsMap.wf (fileWatchers s) /\ JsMap.wf (databases s).

(** The process working directory is the session directory. *)
Definition synced (s : State env) : Prop := cwd s = currentDirectory s.

(** The trace of the state extends [t0]: nothing recorded is ever lost. *)
Definition extends (t0 : list Event) (s : State env) : Prop :=
  exists t, trace s = (t0 ++ t)%list.

Definition is_console (e : Event) : bool :=
  match e with
  | EvConsole _ | EvConsoleTable _ => true
  | _ => false
  end.

(** The external calls of a piece of trace: everything but console output. *)
Definition external (t : list Event) : list Event :=
  filter (fun e => negb (is_console e)) t.

(** The body of the first loop of [exit_sequence]. *)
Definition exit_stop (name : string) : M env unit :=
  bind (console ("Stopping process: " ++ name))
    (fun _ => bind (stopProcess name) (fun _ => ret tt)).

(** The body of a closing loop of [exit_sequence]. *)
Definition exit_close (label : string) (event : Handle -> Event)
    (oracle : Handle -> World env -> outcome unit * World env)
    (entry : string * Handle) : M env unit :=
  bind (console (label ++ fst entry))
    (fun _ => call (event (snd entry)) (oracle (snd entry))).

(** The calls a complete shutdown of [s] makes, in registry order. *)
Definition shutdown_calls (s : State env) : list Event :=
  map (fun e : string * ProcessEntry => EvKill (pe_process (snd e))) (runningProcesses s)
  ++ map (fun e : string * Handle => EvWatcherClose (snd e)) (fileWatchers s)
  ++ map (fun e : string * Handle => EvConnectionClose (snd e)) (databases s).

(** The entries whose [kill()] throws when the processes of [entries] are
    signalled one after the other, from world [w] on, and the world after
    the last signal. *)
Fixpoint unkilled (entries : list (string * ProcessEntry)) (w : World env)
  : list (string * ProcessEntry) * World env :=
  match entries with
  | [] => ([], w)
  | entry :: rest =>
      match cp_kill env (pe_process (snd entry)) w with
      | (Returned _, w') => unkilled rest w'
      | (Thrown _, w') => let (kept, w'') := unkilled rest w' in (entry :: kept, w'')
      end
  end.

(** What can happen to the process registry during a session: a start, a
    stop, or the ['exit'] observer of a child firing. *)
Inductive ProcessCall : Type :=
| CallStart (command : string) (options : ProcessOptions)
| CallStop (name : string)
| ChildExit (name code : string).

Definition process_call (c : ProcessCall) (s : State env) : State env :=
  match c with
  | CallStart command options => snd (startProcess command options s)
  | CallStop name => snd (stopProcess name s)
  | ChildExit name code => snd (onExit name code s)
  end.

Definition run_calls (calls : list ProcessCall) (s : State env) : State env :=
  fold_left (fun s c => process_call c s) calls s.

End Vocabulary.

(** ** Vocabulary of the further properties *)

Section FurtherVocabulary.
Variable env : Env.

(** The events a run from [s] to [s'] has added to the trace. *)
Definition added (s s' : State env) : list Event :=
  skipn (List.length (trace s)) (trace s').

(** The shell commands among some events, with the directory each ran in. *)
Fixpoint executed (t : list Event) : list (string * string) :=
  match t with
  | [] => []
  | EvExec command dir :: rest => (command, dir) :: executed rest
  | _ :: rest => executed rest
  end.

(** The paths handed to [fs.promises] by an event. *)
Definition fs_paths (e : Event) : list string :=
  match e with
  | EvReadFile p => [p]
  | EvReaddir p => [p]
  | EvFsWrite (FsWriteFile p _) => [p]
  | EvFsWrite (FsAppendFile p _) => [p]
  | EvFsWrite (FsUnlink p) => [p]
  | EvFsWrite (FsRename p q) => [p; q]
  | EvFsWrite (FsMkdir p) => [p]
  | EvFsWrite (FsRm p) => [p]
  | EvFsWrite (FsRmdir p) => [p]
  | _ => []
  end.

(** The file-system actions of [performFileOperation], [watch] apart. *)
Definition fs_actions : list string :=
  ["read"; "write"; "append"; "delete"; "rename"; "mkdir"; "rmdir"; "list"].

(** The paths of a file operation as the plan gives them. *)
Definition plan_paths (operation : FileOp) : list string :=
  if String.eqb (fo_action operation) "rename"
  then [fo_path operation; fo_newPath operation]
  else [fo_path operation].

(** The actions [handleGitOperation] has a case for. *)
Definition git_actions : list string :=
  ["init"; "clone"; "add"; "commit"; "push"; "checkout"].

(** The actions of a plan that [dispatch] has no case for. *)
Definition skipped (action : Action) : bool :=
  match action with
  | UnsupportedAction _ | ProcessOther _ => true
  | _ => false
  end.

(** The name of a row of [listProcesses]. *)
Definition row_name (row : string * string * nat * string) : string :=
  fst (fst (fst row)).

(** A call of [spawn], answered or not. *)
Definition is_spawn (e : Event) : bool :=
  match e with
  | EvSpawn _ _ _ _ _ | EvSpawnFailed _ _ _ _ => true
  | _ => false
  end.

(** The parts of the session no console line or external call touches. *)
Definition same_session (s s' : State env) : Prop :=
  cwd s' = cwd s /\ currentDirectory s' = currentDirectory s /\
  runningProcesses s' = runningProcesses s /\ fileWatchers s' = fileWatchers s /\
  databases s' = databases s /\ history s' = history s.

(** [history.slice(-5).reverse()] of the [info] command of [main]. *)
Definition recentCommands (s : State env) : list HistoryEntry :=
  rev (skipn (List.length (history s) - 5) (history s)).

(** What happens in a session between start-up and [exit]: a command goes
    through [executeAICommand] (with the outcome of its parsing step), or a
    child exits and its ['exit'] observer runs. *)
Inductive SessionStep : Type :=
| Command (userCommand : string) (parsed : outcome Plan)
| Exited (processName code : string).

Definition session_step (step : SessionStep) (s : State env) : State env :=
  match step with
  | Command userCommand parsed => snd (executeAICommand userCommand parsed s)
  | Exited processName code => snd (onExit processName code s)
  end.

Definition run_session (steps : list SessionStep) (s : State env) : State env :=
  fold_left (fun st step => session_step step st) steps s.

(** The steps that add to the history: commands whose answer parsed. *)
Definition is_recorded (step : SessionStep) : bool :=
  match step with
  | Command _ (Returned _) => true
  | _ => false
  end.

End FurtherVocabulary.

(** ** Vocabulary of the parsing step *)

Module PlanTextVocabulary.
Import PlanText.

Local Open Scope N_scope.

(** One of the patterns of [cleanJson] matches at the start of [s].  A
    match of the first pattern is also a match of the second. *)
Definition matches_here (s : jsstring) : bool :=
  match fence s, zero_width s, line_comment s, block_comment s with
  | None, None, None, None => false
  | _, _, _, _ => true
  end.

(** No pattern matches anywhere in [s]. *)
Fixpoint free_of_patterns (s : jsstring) : bool :=
  match s with
  | [] => true
  | _ :: rest => negb (matches_here s) && free_of_patterns rest
  end.




End PlanTextVocabulary.

(** ** The logger of [logger.js] *)

Module Logger.

(** What [this.levels[name]] evaluates to: the rank of one of the five own
    keys, a member of [Object.prototype] found through the prototype chain,
    or [undefined]. *)
Inductive LevelValue : Type :=
| Rank (n : nat)
| Inherited
| Undefined.

(** The property names of [Object.prototype]. *)
Definition prototype_names : list string :=
  ["constructor"; "__defineGetter__"; "__defineSetter__"; "hasOwnProperty";
   "__lookupGetter__"; "__lookupSetter__"; "isPrototypeOf"; "propertyIsEnumerable";
   "toString"; "valueOf"; "__proto__"; "toLocaleString"].

Definition levels (name : string) : LevelValue :=
  if String.eqb name "debug" then Rank 0
  else if String.eqb name "info" then Rank 1
  else if String.eqb name "warn" then Rank 2
  else if String.eqb name "error" then Rank 3
  else if String.eqb name "none" then Rank 4
  else if existsb (String.eqb name) prototype_names then Inherited
  else Undefined.

(** [a >= b]: [undefined], functions and objects convert to [NaN], and
    every comparison with [NaN] is false. *)
Definition js_ge (a b : LevelValue) : bool :=
  match a, b with
  | Rank x, Rank y => Nat.leb y x
  | _, _ => false
  end.

Record logger : Type := {
  logLevel : string;
  logFile : string
}.

(** [new Logger(options)]; [defaultFile] is [~/.ai-agent.log]. *)
Definition constructor (optLevel optFile : option string) (defaultFile : string) : logger :=
  {| logLevel := js_or optLevel "info"; logFile := js_or optFile defaultFile |}.

Definition shouldLog (level : string) (l : logger) : bool :=
  js_ge (levels level) (levels (logLevel l)).

(** The four logging methods. *)
Inductive Method : Type := Debug | Info | Warn | Error.

Definition method_name (m : Method) : string :=
  match m with Debug => "debug" | Info => "info" | Warn => "warn" | Error => "error" end.

(** [level.toUpperCase()]. *)
Definition upper (m : Method) : string :=
  match m with Debug => "DEBUG" | Info => "INFO" | Warn => "WARN" | Error => "ERROR" end.

(** What a call does outside the logger: a console line ([console.error]
    for [Error], [console.log] otherwise) and the [fs.appendFile] started
    by [_writeToFile]. *)
Inductive Output : Type :=
| Print (m : Method) (message : string) (args : list string)
| AppendFile (file data : string).

Definition line_feed : string := String (ascii_of_nat 10) EmptyString.

(** The line [_writeToFile] formats, without its line feed; [timestamp] is
    [new Date().toISOString()]. *)
Definition entry (timestamp : string) (m : Method) (message : string) : string :=
  timestamp ++ " [" ++ upper m ++ "] " ++ message.

Definition _writeToFile (timestamp : string) (m : Method) (message : string) (l : logger)
  : Output :=
  AppendFile (logFile l) (entry timestamp m message ++ line_feed).

(** [debug], [info], [warn] and [error]. *)
Definition log (m : Method) (timestamp message : string) (args : list string) (l : logger)
  : list Output :=
  if shouldLog (method_name m) l
  then [Print m message args;
        _writeToFile timestamp m (message ++ " " ++ join_space args) l]
  else [].

Definition setLogLevel (level timestamp : string) (l : logger) : logger * list Output :=
  match levels level with
  | Undefined =>
      (l, log Warn timestamp
            ("Invalid log level: " ++ level ++ ". Using current level: " ++ logLevel l)
            [] l)
  | _ =>
      let l' := {| logLevel := level; logFile := logFile l |} in
      (l', log Info timestamp ("Log level set to " ++ level) [] l')
  end.

(** The answer of [fs.readFile(this.logFile, 'utf8')]. *)
Inductive ReadResult : Type :=
| Data (data : string)
| Failure (code message : string).

Definition nonempty (s : string) : bool := negb (String.eqb s EmptyString).

(** [xs.slice(start)] for an integer [start]. *)
Definition slice {A} (start : Z) (xs : list A) : list A :=
  let len := Z.of_nat (List.length xs) in
  let from := if (start <? 0)%Z then Z.max (len + start) 0 else Z.min start len in
  skipn (Z.to_nat from) xs.

(** [getLogHistory(lines)]; without argument [lines] is 10. *)
Definition getLogHistory (lines : option Z) (read : ReadResult) : outcome (list string) :=
  let lines := match lines with Some n => n | None => 10%Z end in
  match read with
  | Data data =>
      Returned (slice (- lines) (filter nonempty (split_on (ascii_of_nat 10) data)))
  | Failure code message =>
      if String.eqb code "ENOENT" then Returned [] else Thrown message
  end.

(** No line feed in [s]. *)
Fixpoint single_line (s : string) : bool :=
  match s with
  | EmptyString => true
  | String c rest => negb (Ascii.eqb c (ascii_of_nat 10)) && single_line rest
  end.

End Logger.

(** ** The stored API key

    [getApiKey] reads the key from the configuration store and asks for it
    when there is none; [answer] is what the user types when asked. *)

Module ApiKey.

Definition key_name : string := "gemini-api-key".

(** The result: the key, the store afterwards, and whether the user was
    asked. *)
Record Result : Type := {
  apiKey : string;
  config : JsMap.t string;
  asked : bool
}.

Definition getApiKey (store : JsMap.t string) (answer : string) : Result :=
  match truthy (JsMap.get key_name store) with
  | Some stored => {| apiKey := stored; config := store; asked := false |}
  | None =>
      {| apiKey := answer; config := JsMap.set key_name answer store; asked := true |}
  end.

End ApiKey.

(** * Properties *)

(** Case analysis on the scrutinee of a [match] or [if] of the goal. *)
Ltac break :=
  match goal with
  | |- context [match ?x with _ => _ end] =>
      lazymatch x with
      | context [match _ with _ => _ end] => fail
      | _ => destruct x eqn:?
      end
  | |- context [if ?x then _ else _] =>
      lazymatch x with
      | context [match _ with _ => _ end] => fail
      | _ => destruct x eqn:?
      end
  end.

(** Unfolds the monad so that an executor applied to a state computes. *)
Ltac run :=
  unfold bind, ret, throw, try_catch, gets, modify, emit, console, clock,
    call, call_total, call_shown in *; simpl in *.

(** ** Facts about [JsMap] *)

Module JsMapFacts.
Import JsMap.

Section Facts.
Variable V : Type.
Implicit Types (m : t V) (k : string) (v : V).

Lemma has_get k m : has k m = true <-> exists v, get k m = Some v.
Proof.
  unfold has. destruct (get k m); split; intros H; eauto; try discriminate.
  destruct H as [? H]. discriminate.
Qed.

Lemma has_false_get k m : has k m = false <-> get k m = None.
Proof.
  unfold has. destruct (get k m); split; intros H; congruence.
Qed.

Lemma has_in_keys k m : has k m = true <-> In k (keys m).
Proof.
  unfold has. induction m as [|[k' v'] m IH]; simpl.
  - split; [discriminate | tauto].
  - destruct (String.eqb_spec k k') as [->|N].
    + split; auto.
    + rewrite IH. split; [auto | intros [E|H]; [congruence | exact H]].
Qed.

Lemma get_delete_same k m : get k (delete k m) = None.
Proof.
  induction m as [|[k' v'] m IH]; simpl; auto.
  destruct (String.eqb_spec k k') as [->|N]; simpl; auto.
  destruct (String.eqb_spec k k'); [contradiction | exact IH].
Qed.

Lemma has_delete_same k m : has k (delete k m) = false.
Proof. apply has_false_get, get_delete_same. Qed.

Lemma get_delete_other k k' m : k <> k' -> get k' (delete k m) = get k' m.
Proof.
  intros N. induction m as [|[k0 v0] m IH]; simpl; auto.
  destruct (String.eqb_spec k k0) as [->|N0]; simpl.
  - destruct (String.eqb_spec k' k0); [congruence | exact IH].
  - destruct (String.eqb_spec k' k0); [reflexivity | exact IH].
Qed.

Lemma keys_delete_incl k m : incl (keys (delete k m)) (keys m).
Proof.
  unfold keys, delete. intros x Hx. apply in_map_iff in Hx as [e [<- He]].
  apply filter_In in He as [He _]. apply in_map. exact He.
Qed.

Lemma delete_incl k m : incl (delete k m) m.
Proof. unfold delete. intros e He. apply filter_In in He. tauto. Qed.

Lemma wf_delete k m : wf m -> wf (delete k m).
Proof.
  unfold wf, keys, delete. induction m as [|[k' v'] m IH]; simpl; intros H; auto.
  inversion H as [|? ? Hn Hd]; subst.
  destruct (String.eqb k k'); simpl; auto.
  constructor; auto.
  intros Hin. apply Hn. apply (keys_delete_incl k m). exact Hin.
Qed.

Lemma delete_absent k m : has k m = false -> delete k m = m.
Proof.
  unfold has, delete. induction m as [|[k' v'] m IH]; simpl; auto.
  destruct (String.eqb_spec k k'); simpl; [discriminate|].
  intros H. f_equal. auto.
Qed.

Lemma get_set_same k v m : get k (set k v m) = Some v.
Proof.
  induction m as [|[k' v'] m IH]; simpl.
  - rewrite String.eqb_refl. reflexivity.
  - destruct (String.eqb_spec k k') as [->|N]; simpl.
    + rewrite String.eqb_refl. reflexivity.
    + destruct (String.eqb_spec k k'); [contradiction | exact IH].
Qed.

Lemma get_set_other k k' v m : k <> k' -> get k' (set k v m) = get k' m.
Proof.
  intros N. induction m as [|[k0 v0] m IH]; simpl.
  - destruct (String.eqb_spec k' k); [congruence | reflexivity].
  - destruct (String.eqb_spec k k0) as [->|N0]; simpl.
    + destruct (String.eqb_spec k' k0); [congruence | reflexivity].
    + destruct (String.eqb_spec k' k0); [reflexivity | exact IH].
Qed.

Lemma keys_set_present k v m : has k m = true -> keys (set k v m) = keys m.
Proof.
  unfold has. induction m as [|[k' v'] m IH]; simpl; [discriminate|].
  destruct (String.eqb_spec k k') as [->|N]; simpl; auto.
  intros H. f_equal. auto.
Qed.

Lemma keys_set_absent k v m : has k m = false -> keys (set k v m) = (keys m ++ [k])%list.
Proof.
  unfold has. induction m as [|[k' v'] m IH]; simpl; auto.
  destruct (String.eqb_spec k k') as [->|N]; simpl; [discriminate|].
  intros H. f_equal. auto.
Qed.

Lemma wf_set k v m : wf m -> wf (set k v m).
Proof.
  unfold wf. intros H. destruct (has k m) eqn:E.
  - rewrite keys_set_present; auto.
  - rewrite keys_set_absent by auto.
    apply NoDup_app; auto.
    + repeat constructor. intros [].
    + intros x Hx [<-|[]]. apply has_in_keys in Hx. congruence.
Qed.

Lemma count_absent k m : has k m = false -> count k m = 0.
Proof.
  unfold has, count. induction m as [|[k' v'] m IH]; simpl; auto.
  destruct (String.eqb_spec k k'); simpl; [discriminate | auto].
Qed.

Lemma count_wf k m : wf m -> count k m <= 1.
Proof.
  unfold wf, count. induction m as [|[k' v'] m IH]; simpl; intros H; auto.
  inversion H as [|? ? Hn Hd]; subst.
  destruct (String.eqb_spec k k') as [->|N]; simpl; auto.
  assert (E : has k' m = false).
  { destruct (has k' m) eqn:E; auto. apply has_in_keys in E. contradiction. }
  apply count_absent in E. unfold count in E. rewrite E. auto.
Qed.

Lemma count_present_wf k m : wf m -> has k m = true -> count k m = 1.
Proof.
  unfold wf, has, count. induction m as [|[k' v'] m IH]; simpl; intros H; [discriminate|].
  inversion H as [|? ? Hn Hd]; subst.
  destruct (String.eqb_spec k k') as [->|N]; simpl; auto.
  intros _.
  assert (E : has k' m = false).
  { destruct (has k' m) eqn:E; auto. apply has_in_keys in E. contradiction. }
  apply count_absent in E. unfold count in E. rewrite E. reflexivity.
Qed.

Lemma wf_empty : wf (@empty V).
Proof. constructor. Qed.

End Facts.
End JsMapFacts.

(** ** The default registry key *)

Lemma split_on_cons sep s : exists w ws, split_on sep s = w :: ws.
Proof.
  destruct s as [|c rest]; simpl; [eauto|].
  destruct (Ascii.eqb c sep); [eauto|].
  destruct (split_on sep rest); eauto.
Qed.

(** [command.split(' ')[0]] is the text before the first space. *)
Lemma first_field_prefix command :
  exists rest,
    command = first_field command ++ rest /\
    (rest = EmptyString \/ exists r, rest = String " " r) /\
    (forall c, In c (list_ascii_of_string (first_field command)) -> c <> " "%char).
Proof.
  unfold first_field. induction command as [|a r IH]; simpl.
  - exists EmptyString. split; [reflexivity|]. split; [left; reflexivity|].
    intros c [].
  - destruct (Ascii.eqb_spec a " ") as [->|N]; simpl.
    + exists (String " " r). split; [reflexivity|]. split; [right; eauto|].
      intros c [].
    + destruct IH as [rest [E [Hrest Hno]]].
      destruct (split_on_cons " " r) as [w [ws Hw]]. rewrite Hw in *. simpl in *.
      exists rest. split; [congruence|]. split; [exact Hrest|].
      intros c [<-|Hc]; [exact N | apply Hno, Hc].
Qed.

Lemma until_whitespace_field f rest :
  (forall c, In c (list_ascii_of_string f) -> is_whitespace c = false) ->
  rest = EmptyString \/ (exists r, rest = String " " r) ->
  until_whitespace (f ++ rest) = f.
Proof.
  intros Hf Hrest. induction f as [|c f IH]; simpl.
  - destruct Hrest as [->|[r ->]]; reflexivity.
  - rewrite (Hf c) by (simpl; auto). f_equal. apply IH.
    intros c' Hc'. apply Hf. simpl. auto.
Qed.

(** The key agrees with the specification's wording on commands that do
    not begin with a space and whose first field holds no other white
    space. *)
Lemma first_field_is_first_token command :
  (forall c, In c (list_ascii_of_string (first_field command)) -> is_whitespace c = false) ->
  command = EmptyString \/ first_field command <> EmptyString ->
  first_field command = first_whitespace_token command.
Proof.
  intros Hws Hne.
  destruct (first_field_prefix command) as [rest [E [Hrest _]]].
  unfold first_whitespace_token.
  destruct (first_field command) as [|c f] eqn:Hf.
  - destruct Hne as [->|Hne]; [reflexivity | congruence].
  - rewrite E at 1. simpl.
    rewrite (Hws c) by (simpl; auto).
    change (String c (f ++ rest)) with (String c f ++ rest).
    symmetry. apply until_whitespace_field; auto.
Qed.

(** ** Process management *)

Section ProcessProperties.
Variable env : Env.
Implicit Types (s : State env) (name command : string).

Lemma stopProcess_not_registered s name :
  JsMap.has name (runningProcesses s) = false ->
  stopProcess name s =
    (Returned (ReplyMessage false ("No running process named " ++ name)),
     with_trace (trace s ++ [EvConsole ("No running process named " ++ name)]) s).
Proof.
  intros H. apply JsMapFacts.has_false_get in H.
  unfold stopProcess, noRunningProcess. run. rewrite H. reflexivity.
Qed.

Lemma stopProcess_kill_returns s name details delivered w :
  JsMap.get name (runningProcesses s) = Some details ->
  cp_kill env (pe_process details) (world s) = (Returned delivered, w) ->
  stopProcess name s =
    (Returned (ReplyMessage true ("Process " ++ name ++ " stopped")),
     stopped name (pe_process details) w s).
Proof.
  intros Hget Hkill. unfold stopProcess, stopped. run.
  rewrite Hget. run. rewrite Hkill. run.
  rewrite <- app_assoc. reflexivity.
Qed.

(** When [kill()] throws, the [catch] branch answers with a failure and the
    entry stays. *)
Lemma stopProcess_kill_throws s name details error w :
  JsMap.get name (runningProcesses s) = Some details ->
  cp_kill env (pe_process details) (world s) = (Thrown error, w) ->
  stopProcess name s =
    (Returned (ReplyError error),
     with_trace (trace s ++ [EvKill (pe_process details);
                             EvConsole ("Error stopping process " ++ name ++ ": " ++ error)])
       (with_world w s)).
Proof.
  intros Hget Hkill. unfold stopProcess. run.
  rewrite Hget. run. rewrite Hkill. run.
  rewrite <- app_assoc. reflexivity.
Qed.

(** [stopProcess] never throws. *)
Lemma stopProcess_returns s name :
  exists reply s', stopProcess name s = (Returned reply, s').
Proof.
  destruct (JsMap.get name (runningProcesses s)) as [details|] eqn:Hget.
  - destruct (cp_kill env (pe_process details) (world s)) as [[b|e] w] eqn:Hkill.
    + erewrite stopProcess_kill_returns by eauto. eauto.
    + erewrite stopProcess_kill_throws by eauto. eauto.
  - rewrite stopProcess_not_registered by (apply JsMapFacts.has_false_get; exact Hget).
    eauto.
Qed.

(** C8.  [stopProcess] on a name that is not registered returns a failure
    result ([success: false]), throws nothing, makes no external call and
    leaves the process registry, like the other registries and the outside
    world, as it was: the one effect is the console line. *)
Theorem stopProcess_absent_fails_quietly s name :
  JsMap.has name (runningProcesses s) = false ->
  exists reply s',
    stopProcess name s = (Returned reply, s') /\
    success reply = false /\
    runningProcesses s' = runningProcesses s /\
    fileWatchers s' = fileWatchers s /\
    databases s' = databases s /\
    world s' = world s /\
    cwd s' = cwd s /\
    trace s' = (trace s ++ [EvConsole ("No running process named " ++ name)])%list.
Proof.
  intros H. rewrite (stopProcess_not_registered _ _ H).
  eexists _, _. split; [reflexivity|]. simpl. repeat split; reflexivity.
Qed.

(** C7.  For a registered name, whenever [kill()] returns, [true] for a
    delivered signal or [false] because the child is already dead,
    [stopProcess] has sent the signal to the registered child, removed the
    entry and reports success. *)
Theorem stopProcess_present_succeeds s name details delivered w :
  JsMap.get name (runningProcesses s) = Some details ->
  cp_kill env (pe_process details) (world s) = (Returned delivered, w) ->
  exists reply s',
    stopProcess name s = (Returned reply, s') /\
    success reply = true /\
    JsMap.has name (runningProcesses s') = false /\
    runningProcesses s' = JsMap.delete name (runningProcesses s) /\
    trace s' = (trace s ++ [EvKill (pe_process details);
                            EvConsole ("Stopped process: " ++ name)])%list.
Proof.
  intros Hget Hkill. rewrite (stopProcess_kill_returns _ _ Hget Hkill).
  eexists _, _. split; [reflexivity|]. simpl.
  repeat split; try reflexivity. apply JsMapFacts.has_delete_same.
Qed.

Lemma stopProcess_wf s name :
  JsMap.wf (runningProcesses s) ->
  JsMap.wf (runningProcesses (snd (stopProcess name s))).
Proof.
  intros H. unfold stopProcess, noRunningProcess. run.
  repeat break; simpl; auto using JsMapFacts.wf_delete.
Qed.

Lemma onExit_wf s name code :
  JsMap.wf (runningProcesses s) ->
  JsMap.wf (runningProcesses (snd (onExit name code s))).
Proof.
  intros H. unfold onExit. run. auto using JsMapFacts.wf_delete.
Qed.

Lemma startProcess_wf s command options :
  JsMap.wf (runningProcesses s) ->
  JsMap.wf (runningProcesses (snd (startProcess command options s))).
Proof.
  intros H. unfold startProcess, spawn, execPromise, stopProcess, noRunningProcess. run.
  repeat break; simpl; auto using JsMapFacts.wf_delete, JsMapFacts.wf_set.
Qed.

Lemma run_calls_wf calls : forall s,
  JsMap.wf (runningProcesses s) ->
  JsMap.wf (runningProcesses (run_calls calls s)).
Proof.
  induction calls as [|c calls IH]; intros s H; [exact H|].
  unfold run_calls. cbn [fold_left]. apply IH.
  destruct c; unfold process_call.
  - apply startProcess_wf, H.
  - apply stopProcess_wf, H.
  - apply onExit_wf, H.
Qed.

(** A start on a registered name is a stop followed by a start on the
    state the stop leaves. *)
Lemma startProcess_stops_first s command options details delivered w :
  JsMap.get (process_key command options) (runningProcesses s) = Some details ->
  cp_kill env (pe_process details) (world s) = (Returned delivered, w) ->
  startProcess command options s =
  startProcess command options
    (stopped (process_key command options) (pe_process details) w s).
Proof.
  intros Hget Hkill.
  unfold startProcess at 1. run.
  assert (Hhas : JsMap.has (process_key command options) (runningProcesses s) = true).
  { apply JsMapFacts.has_get. eauto. }
  rewrite Hhas. run.
  pose proof (stopProcess_kill_returns _ _ Hget Hkill) as Hstop. run.
  rewrite Hstop.
  unfold startProcess. run.
  rewrite JsMapFacts.has_delete_same. reflexivity.
Qed.

Lemma startProcess_background s command options child w :
  JsMap.has (process_key command options) (runningProcesses s) = false ->
  po_waitForExit options = false ->
  truthy (po_logFile options) = None ->
  first_field command <> EmptyString ->
  cp_spawn env (first_field command) (tl (split_on " "%char command))
    (spawn_dir options s) StdioInherit (world s) = (Returned child, w) ->
  startProcess command options s =
    (Returned (ReplyProcessName (process_key command options)),
     started command options child w s).
Proof.
  intros Hhas Hwait Hlog Hfile Hspawn.
  unfold startProcess, spawn, started, spawn_dir in *. run.
  rewrite Hhas, Hwait, Hlog. run.
  destruct (String.eqb_spec (first_field command) EmptyString); [contradiction|].
  run. rewrite Hspawn. run.
  rewrite <- app_assoc. reflexivity.
Qed.

(** A background start on a registered name: kill of the old child, spawn
    of the new one, and the name holds the new entry. *)
Lemma startProcess_replaces s command options details delivered w child w' :
  JsMap.get (process_key command options) (runningProcesses s) = Some details ->
  cp_kill env (pe_process details) (world s) = (Returned delivered, w) ->
  po_waitForExit options = false ->
  truthy (po_logFile options) = None ->
  first_field command <> EmptyString ->
  cp_spawn env (first_field command) (tl (split_on " "%char command))
    (spawn_dir options s) StdioInherit w = (Returned child, w') ->
  exists s',
    startProcess command options s =
      (Returned (ReplyProcessName (process_key command options)), s') /\
    trace s' =
      (trace s ++
         [EvKill (pe_process details);
          EvConsole ("Stopped process: " ++ process_key command options);
          EvSpawn (first_field command) (tl (split_on " "%char command))
            (spawn_dir options s) StdioInherit child;
          EvConsole ("Started process: " ++ process_key command options)])%list /\
    JsMap.get (process_key command options) (runningProcesses s') =
      Some {| pe_process := child; pe_command := command;
              pe_startTime := now env w'; pe_logFile := po_logFile options |}.
Proof.
  intros Hget Hkill Hwait Hlog Hfile Hspawn.
  rewrite (startProcess_stops_first _ _ _ Hget Hkill).
  erewrite startProcess_background; eauto.
  - eexists. split; [reflexivity|]. split.
    + simpl. rewrite <- app_assoc. reflexivity.
    + simpl. apply JsMapFacts.get_set_same.
  - apply JsMapFacts.has_delete_same.
Qed.

(** A command without a first field, as one that begins with a space. *)
Lemma first_field_after_space rest : first_field (String " " rest) = EmptyString.
Proof.
  unfold first_field. simpl.
  destruct (split_on " " rest); reflexivity.
Qed.

(** Computes the events a run has added to the trace. *)
Ltac count_added :=
  unfold added; simpl; rewrite <- ?app_assoc;
  rewrite ?skipn_app, ?skipn_all, ?Nat.sub_diag; simpl.

(** [spawn] refuses an empty file: a background start whose command has an
    empty first field throws; it registers nothing and spawns nothing, and
    the registered process of its name, if any, has been stopped by then. *)
Lemma startProcess_empty_file s command options :
  po_waitForExit options = false ->
  first_field command = EmptyString ->
  returned (fst (startProcess command options s)) = false /\
  incl (runningProcesses (snd (startProcess command options s))) (runningProcesses s) /\
  filter is_spawn (added s (snd (startProcess command options s))) = [] /\
  (forall details delivered w,
     JsMap.get (process_key command options) (runningProcesses s) = Some details ->
     cp_kill env (pe_process details) (world s) = (Returned delivered, w) ->
     JsMap.has (process_key command options)
       (runningProcesses (snd (startProcess command options s))) = false /\
     In (EvKill (pe_process details)) (added s (snd (startProcess command options s)))).
Proof.
  intros Hwait Hfile. unfold startProcess, spawn. rewrite Hfile. run.
  destruct (JsMap.get (process_key command options) (runningProcesses s))
    as [details|] eqn:Hget.
  - assert (Hhas : JsMap.has (process_key command options) (runningProcesses s) = true)
      by (apply JsMapFacts.has_get; eauto).
    rewrite Hhas. simpl.
    destruct (cp_kill env (pe_process details) (world s)) as [[b|e] w] eqn:Hkill.
    + pose proof (stopProcess_kill_returns _ _ Hget Hkill) as Hstop. run.
      rewrite Hstop. simpl. rewrite Hwait.
      repeat break; count_added;
        (split; [reflexivity|]); (split; [apply JsMapFacts.delete_incl|]);
        (split; [reflexivity|]);
        intros ? ? ? Hd Hk; (split; [apply JsMapFacts.has_delete_same|]);
        inversion Hd; subst; simpl; auto.
    + pose proof (stopProcess_kill_throws _ _ Hget Hkill) as Hstop. run.
      rewrite Hstop. simpl. rewrite Hwait.
      repeat break; count_added;
        (split; [reflexivity|]); (split; [apply incl_refl|]);
        (split; [reflexivity|]);
        intros ? ? ? Hd Hk; congruence.
  - assert (Hhas : JsMap.has (process_key command options) (runningProcesses s) = false)
      by (apply JsMapFacts.has_false_get; exact Hget).
    rewrite Hhas. simpl. rewrite Hwait.
    repeat break; count_added;
      (split; [reflexivity|]); (split; [apply incl_refl|]);
      (split; [reflexivity|]);
      intros ? ? ? Hd Hk; congruence.
Qed.

(** C3.  (1) Whatever sequence of starts, stops and child exits a session
    goes through, the process registry never holds two entries under one
    name.  (2) A start whose name is registered first stops the registered
    process: once [kill()] has returned, the start continues from the state
    [stopped], in which the child has been signalled and the name is free.
    (3) For a background start on a registered name whose [spawn] returns a
    child, the trace reads: kill of the old child, then spawn of the new
    one, which is the entry the name holds afterwards.  (4) A background
    start that [spawn] refuses (the first field of the command is empty)
    throws: the registered process has been stopped all the same, and
    nothing is spawned or registered. *)
Theorem startProcess_one_process_per_name :
  (forall calls s name,
     JsMap.wf (runningProcesses s) ->
     JsMap.count name (runningProcesses (run_calls calls s)) <= 1) /\
  (forall s command options details delivered w,
     JsMap.get (process_key command options) (runningProcesses s) = Some details ->
     cp_kill env (pe_process details) (world s) = (Returned delivered, w) ->
     let s1 := stopped (process_key command options) (pe_process details) w s in
     JsMap.has (process_key command options) (runningProcesses s1) = false /\
     trace s1 = (trace s ++ [EvKill (pe_process details);
                   EvConsole ("Stopped process: " ++ process_key command options)])%list /\
     startProcess command options s = startProcess command options s1) /\
  (forall s command options details delivered w child w',
     JsMap.get (process_key command options) (runningProcesses s) = Some details ->
     cp_kill env (pe_process details) (world s) = (Returned delivered, w) ->
     po_waitForExit options = false ->
     truthy (po_logFile options) = None ->
     first_field command <> EmptyString ->
     cp_spawn env (first_field command) (tl (split_on " "%char command))
       (spawn_dir options s) StdioInherit w = (Returned child, w') ->
     exists s',
       startProcess command options s =
         (Returned (ReplyProcessName (process_key command options)), s') /\
       trace s' =
         (trace s ++
            [EvKill (pe_process details);
             EvConsole ("Stopped process: " ++ process_key command options);
             EvSpawn (first_field command) (tl (split_on " "%char command))
               (spawn_dir options s) StdioInherit child;
             EvConsole ("Started process: " ++ process_key command options)])%list /\
       JsMap.get (process_key command options) (runningProcesses s') =
         Some {| pe_process := child; pe_command := command;
                 pe_startTime := now env w'; pe_logFile := po_logFile options |}) /\
  (forall s command options details delivered w,
     JsMap.get (process_key command options) (runningProcesses s) = Some details ->
     cp_kill env (pe_process details) (world s) = (Returned delivered, w) ->
     po_waitForExit options = false ->
     first_field command = EmptyString ->
     returned (fst (startProcess command options s)) = false /\
     JsMap.has (process_key command options)
       (runningProcesses (snd (startProcess command options s))) = false /\
     incl (runningProcesses (snd (startProcess command options s))) (runningProcesses s) /\
     In (EvKill (pe_process details)) (added s (snd (startProcess command options s))) /\
     filter is_spawn (added s (snd (startProcess command options s))) = []).
Proof.
  split; [|split; [|split]].
  - intros calls s name H. apply JsMapFacts.count_wf, run_calls_wf, H.
  - intros s command options details delivered w Hget Hkill s1.
    split; [apply JsMapFacts.has_delete_same|].
    split; [reflexivity|].
    apply (startProcess_stops_first _ _ _ Hget Hkill).
  - intros s command options details delivered w child w'
      Hget Hkill Hwait Hlog Hfile Hspawn.
    eapply startProcess_replaces; eauto.
  - intros s command options details delivered w Hget Hkill Hwait Hfile.
    destruct (startProcess_empty_file s command options Hwait Hfile)
      as [H1 [H2 [H3 H4]]].
    destruct (H4 _ _ _ Hget Hkill) as [H5 H6]. auto.
Qed.

(** C10, as amended.  When [options.name] is missing or empty the registry
    key is [command.split(' ')[0]], the text of the command before its first
    space character.  Two background starts without a name whose commands
    agree on that text, when it is not empty and each [spawn] returns a
    child, share one key: the second start kills the child of the first and
    takes over the entry.  When the text is empty, as for every command that
    begins with a space, the key is empty and a background start throws in
    [spawn]: nothing is spawned and nothing is registered. *)
Theorem default_key_collision :
  (forall command options,
     truthy (po_name options) = None ->
     process_key command options = first_field command /\
     exists rest,
       command = first_field command ++ rest /\
       (rest = EmptyString \/ exists r, rest = String " " r) /\
       (forall c, In c (list_ascii_of_string (first_field command)) -> c <> " "%char)) /\
  (forall s c1 c2 o1 o2 child1 w1 delivered w2 child2 w3,
     truthy (po_name o1) = None ->
     truthy (po_name o2) = None ->
     first_field c1 = first_field c2 ->
     first_field c1 <> EmptyString ->
     po_waitForExit o1 = false ->
     po_waitForExit o2 = false ->
     truthy (po_logFile o1) = None ->
     truthy (po_logFile o2) = None ->
     JsMap.has (first_field c1) (runningProcesses s) = false ->
     cp_spawn env (first_field c1) (tl (split_on " "%char c1))
       (spawn_dir o1 s) StdioInherit (world s) = (Returned child1, w1) ->
     cp_kill env child1 w1 = (Returned delivered, w2) ->
     cp_spawn env (first_field c2) (tl (split_on " "%char c2))
       (spawn_dir o2 s) StdioInherit w2 = (Returned child2, w3) ->
     exists s1 s2,
       startProcess c1 o1 s = (Returned (ReplyProcessName (first_field c1)), s1) /\
       startProcess c2 o2 s1 = (Returned (ReplyProcessName (first_field c1)), s2) /\
       trace s2 =
         (trace s1 ++
            [EvKill child1;
             EvConsole ("Stopped process: " ++ first_field c1);
             EvSpawn (first_field c2) (tl (split_on " "%char c2))
               (spawn_dir o2 s) StdioInherit child2;
             EvConsole ("Started process: " ++ first_field c1)])%list /\
       JsMap.get (first_field c1) (runningProcesses s2) =
         Some {| pe_process := child2; pe_command := c2;
                 pe_startTime := now env w3; pe_logFile := po_logFile o2 |}) /\
  (forall s rest options,
     truthy (po_name options) = None ->
     po_waitForExit options = false ->
     process_key (String " " rest) options = EmptyString /\
     returned (fst (startProcess (String " " rest) options s)) = false /\
     incl (runningProcesses (snd (startProcess (String " " rest) options s)))
       (runningProcesses s) /\
     filter is_spawn (added s (snd (startProcess (String " " rest) options s))) = []).
Proof.
  split; [|split].
  - intros command options Hname. split.
    + unfold process_key, js_or. rewrite Hname. reflexivity.
    + apply first_field_prefix.
  - intros s c1 c2 o1 o2 child1 w1 delivered w2 child2 w3
      Hn1 Hn2 Hsame Hfile Hw1 Hw2 Hl1 Hl2 Hfree Hspawn1 Hkill Hspawn2.
    assert (K1 : process_key c1 o1 = first_field c1)
      by (unfold process_key, js_or; rewrite Hn1; reflexivity).
    assert (K2 : process_key c2 o2 = first_field c1)
      by (unfold process_key, js_or; rewrite Hn2; symmetry; exact Hsame).
    exists (started c1 o1 child1 w1 s).
    destruct (@startProcess_replaces
                (started c1 o1 child1 w1 s) c2 o2
                {| pe_process := child1; pe_command := c1;
                   pe_startTime := now env w1; pe_logFile := po_logFile o1 |}
                delivered w2 child2 w3) as [s2 [E2 [T2 G2]]]; auto.
    + rewrite K2. simpl. rewrite K1. apply JsMapFacts.get_set_same.
    + rewrite <- Hsame. exact Hfile.
    + exists s2. rewrite K2 in *. split; [|split; [|split]]; auto.
      rewrite <- K1. apply startProcess_background; auto.
      rewrite K1. exact Hfree.
  - intros s rest options Hname Hwait.
    pose proof (first_field_after_space rest) as Hfile.
    destruct (startProcess_empty_file s (String " " rest) options Hwait Hfile)
      as [H1 [H2 [H3 _]]].
    split; [|auto].
    unfold process_key, js_or. rewrite Hname. exact Hfile.
Qed.

End ProcessProperties.

(** C10, as the specification words it, fails: [node a.js] and
    [node<TAB>b.js] have the same first white-space-separated token, [node],
    but not the same key, since only a space ends the key.  Started one after
    the other they do not collide: both stay registered and the first child
    is never signalled. *)
Lemma default_key_is_not_first_token :
  let first := "node a.js" in
  let second := "node" ++ tab ++ "b.js" in
  let s := run_calls [CallStart first no_options; CallStart second no_options]
             Demo.start in
  first_whitespace_token first = first_whitespace_token second /\
  process_key first no_options = "node" /\
  process_key second no_options = second /\
  JsMap.keys (runningProcesses s) = ["node"; second] /\
  ~ In (EvKill 1) (trace s).
Proof.
  vm_compute. repeat split; try reflexivity. intuition discriminate.
Qed.

(** ** File watchers *)

Section WatcherProperties.
Variable env : Env.
Implicit Types (s : State env) (operation : FileOp).

Lemma watchFiles_new s dirPath watcher w :
  JsMap.has dirPath (fileWatchers s) = false ->
  chokidar_watch env dirPath (world s) = (watcher, w) ->
  watchFiles dirPath s = (Returned tt, watching dirPath watcher w s).
Proof.
  intros Hhas Hwatch. unfold watchFiles, watching. run.
  rewrite Hhas. run. rewrite Hwatch. run.
  rewrite <- app_assoc. reflexivity.
Qed.

Lemma watchFiles_again s dirPath :
  JsMap.has dirPath (fileWatchers s) = true ->
  watchFiles dirPath s = (Returned tt, s).
Proof.
  intros Hhas. unfold watchFiles. run. rewrite Hhas. reflexivity.
Qed.

Lemma performFileOperation_watch s operation :
  fo_action operation = "watch" ->
  performFileOperation operation s =
    match watchFiles (full_path s (fo_path operation)) s with
    | (Returned _, s') =>
        (Returned (ReplyMessage true ("Watching: " ++ fo_path operation)), s')
    | (Thrown e, s') =>
        (Thrown e, with_trace (trace s' ++ [EvConsole ("File operation error: " ++ e)]) s')
    end.
Proof.
  intros Hact. unfold performFileOperation, resolveProjectPath, full_path.
  rewrite Hact. run.
  destruct (watchFiles _ s) as [[[]|e] s']; reflexivity.
Qed.

Lemma watch_registers s operation :
  fo_action operation = "watch" ->
  JsMap.has (full_path s (fo_path operation))
    (fileWatchers (snd (performFileOperation operation s))) = true /\
  currentDirectory (snd (performFileOperation operation s)) = currentDirectory s /\
  (JsMap.wf (fileWatchers s) ->
   JsMap.wf (fileWatchers (snd (performFileOperation operation s)))).
Proof.
  intros Hact. rewrite (performFileOperation_watch _ _ Hact).
  destruct (JsMap.has (full_path s (fo_path operation)) (fileWatchers s)) eqn:Hhas.
  - rewrite (watchFiles_again _ _ Hhas). simpl. auto.
  - destruct (chokidar_watch env (full_path s (fo_path operation)) (world s))
      as [watcher w] eqn:Hwatch.
    rewrite (watchFiles_new _ _ Hhas Hwatch). simpl.
    split; [|split; [reflexivity|]].
    + apply JsMapFacts.has_get. eexists. apply JsMapFacts.get_set_same.
    + apply JsMapFacts.wf_set.
Qed.

Lemma watch_again_is_noop s operation :
  fo_action operation = "watch" ->
  JsMap.has (full_path s (fo_path operation)) (fileWatchers s) = true ->
  performFileOperation operation s =
    (Returned (ReplyMessage true ("Watching: " ++ fo_path operation)), s).
Proof.
  intros Hact Hhas. rewrite (performFileOperation_watch _ _ Hact).
  rewrite (watchFiles_again _ _ Hhas). reflexivity.
Qed.

(** C6.  After a [watch] file-operation on a path, the watcher registry
    holds exactly one entry for the resolved path, and every further
    [watch] on that path returns its success message and changes nothing:
    no registry, no external call, the very same state. *)
Theorem watch_is_idempotent s operation :
  fo_action operation = "watch" ->
  JsMap.wf (fileWatchers s) ->
  let s1 := snd (performFileOperation operation s) in
  JsMap.count (full_path s (fo_path operation)) (fileWatchers s1) = 1 /\
  performFileOperation operation s1 =
    (Returned (ReplyMessage true ("Watching: " ++ fo_path operation)), s1) /\
  forall n, repeat_operation n operation s1 = s1.
Proof.
  intros Hact Hwf s1.
  destruct (watch_registers s operation Hact) as [Hhas [Hdir Hwf1]].
  fold s1 in Hhas, Hdir, Hwf1.
  assert (Hpath : full_path s1 (fo_path operation) = full_path s (fo_path operation)).
  { unfold full_path. rewrite Hdir. reflexivity. }
  assert (Hagain : performFileOperation operation s1 =
            (Returned (ReplyMessage true ("Watching: " ++ fo_path operation)), s1)).
  { apply watch_again_is_noop; [exact Hact | rewrite Hpath; exact Hhas]. }
  split; [|split].
  - apply JsMapFacts.count_present_wf; auto.
  - exact Hagain.
  - induction n as [|n IH]; [reflexivity|].
    unfold repeat_operation in *. simpl. rewrite IH, Hagain. reflexivity.
Qed.

End WatcherProperties.

(** ** Database operations *)

Section DatabaseProperties.
Variable env : Env.
Implicit Types (s : State env) (operation : DatabaseOp).

(** C9.  For [dbType] [mysql], [postgres] or [sqlite] the executor prints
    the "not yet implemented" notice and returns [null] without throwing;
    for a [dbType] outside [mongodb], [mysql], [postgres], [sqlite] (a
    missing one included) it throws the unsupported-type error, which its
    own handler logs and rethrows. *)
Theorem handleDatabaseOperation_stub_or_unsupported s operation :
  (forall t,
     db_dbType operation = Some t ->
     In t ["mysql"; "postgres"; "sqlite"] ->
     handleDatabaseOperation operation s =
       (Returned ReplyNull,
        with_trace (trace s ++ [EvConsole (t ++ " operations not yet implemented")]) s)) /\
  ((forall t, db_dbType operation = Some t ->
              ~ In t ["mongodb"; "mysql"; "postgres"; "sqlite"]) ->
   handleDatabaseOperation operation s =
     (Thrown ("Unsupported database type: " ++ show (db_dbType operation)),
      with_trace
        (trace s ++
           [EvConsole ("Database error: " ++
                       "Unsupported database type: " ++ show (db_dbType operation))])
        s)).
Proof.
  split.
  - intros t Ht Hin. unfold handleDatabaseOperation. rewrite Ht.
    simpl in Hin. destruct Hin as [<-|[<-|[<-|[]]]]; reflexivity.
  - intros Hout. unfold handleDatabaseOperation.
    destruct (db_dbType operation) as [t|] eqn:Ht; [|reflexivity].
    specialize (Hout t eq_refl). unfold db_kind.
    destruct (String.eqb_spec t "mongodb") as [->|_]; [exfalso; apply Hout; simpl; auto|].
    destruct (String.eqb_spec t "mysql") as [->|_]; [exfalso; apply Hout; simpl; auto|].
    destruct (String.eqb_spec t "postgres") as [->|_]; [exfalso; apply Hout; simpl; auto|].
    destruct (String.eqb_spec t "sqlite") as [->|_]; [exfalso; apply Hout; simpl; auto 6|].
    reflexivity.
Qed.

End DatabaseProperties.

(** ** Package management *)

Section PackageProperties.
Variable env : Env.
Implicit Types (s : State env) (operation : PackageOp).

(** Building the command touches nothing. *)
Lemma package_command_pure operation s :
  exists r, package_command operation s = (r, s).
Proof.
  unfold package_command, join_packages. run.
  repeat break; eauto.
Qed.

Lemma chdir_enters s dir :
  can_chdir env dir (world s) = true ->
  chdir dir s = (Returned tt, with_cwd dir (with_trace (trace s ++ [EvChdir dir]) s)).
Proof. intros H. unfold chdir. rewrite H. reflexivity. Qed.

Lemma handlePackageOperation_frame s operation d :
  truthy (pk_directory operation) = Some d ->
  cwd s = currentDirectory s ->
  can_chdir env (currentDirectory s) (world s) = true ->
  (forall command,
     can_chdir env (currentDirectory s)
       (snd (sh_exec env command (currentDirectory s) (world s))) = true) ->
  cwd (snd (handlePackageOperation operation s)) = cwd s /\
  currentDirectory (snd (handlePackageOperation operation s)) = currentDirectory s.
Proof.
  intros Hdir Hsync Hnow Hafter.
  unfold handlePackageOperation. rewrite Hdir.
  unfold resolveProjectPath, execPromise, chdir. run.
  destruct (can_chdir env
              (if path_isAbsolute env d then d else path_join env (currentDirectory s) d)
              (world s)); simpl.
  - match goal with
    | |- context [package_command operation ?st] =>
        destruct (package_command_pure operation st) as [[command|e] ->]
    end; simpl.
    + specialize (Hafter command).
      destruct (sh_exec env command (currentDirectory s) (world s)) as [[out|e] w];
        simpl in *; rewrite !Hafter; simpl; auto.
    + rewrite Hnow. simpl. auto.
  - rewrite Hnow. simpl. auto.
Qed.

(** C1.  For a package-operation with a [directory], in a session whose
    working directory is [projectState.currentDirectory] (as it is at
    start-up and after every project setup) and whose session directory can
    still be entered when the executor goes back to it, the process working
    directory after
    [handlePackageOperation] is the one before the call, whatever the
    outcome: command built or unsupported, shell command succeeded or
    failed, target directory entered or not.  [currentDirectory] itself is
    untouched. *)
Theorem handlePackageOperation_restores_cwd s operation d :
  truthy (pk_directory operation) = Some d ->
  cwd s = currentDirectory s ->
  can_chdir env (currentDirectory s) (world s) = true ->
  (forall command,
     can_chdir env (currentDirectory s)
       (snd (sh_exec env command (currentDirectory s) (world s))) = true) ->
  cwd (snd (handlePackageOperation operation s)) = cwd s /\
  currentDirectory (snd (handlePackageOperation operation s)) = currentDirectory s.
Proof. apply handlePackageOperation_frame. Qed.

End PackageProperties.

(** ** Properties every executor keeps

    A property of the session that survives console output, external calls
    and registry updates survives every action of a plan, whether the action
    returns or throws, provided the two executors that move the working
    directory keep it. *)

Section Preservation.
Variable env : Env.
Variable P : State env -> Prop.

Hypothesis P_emit : forall s e, P s -> P (with_trace (trace s ++ [e]) s).
Hypothesis P_world : forall s w, P s -> P (with_world w s).
Hypothesis P_register : forall s name entry,
  P s -> P (with_runningProcesses (JsMap.set name entry (runningProcesses s)) s).
Hypothesis P_unregister : forall s name,
  P s -> P (with_runningProcesses (JsMap.delete name (runningProcesses s)) s).
Hypothesis P_watch : forall s dir watcher,
  P s -> P (with_fileWatchers (JsMap.set dir watcher (fileWatchers s)) s).
Hypothesis P_connect : forall s connectionString connection,
  P s -> P (with_databases (JsMap.set connectionString connection (databases s)) s).
Hypothesis P_history : forall s h, P s -> P (with_history h s).
Hypothesis P_leave : forall A (rest : M env A),
  preserves P rest ->
  preserves P (bind (gets (@currentDirectory env))
                 (fun saved => bind (chdir saved) (fun _ => rest))).
Hypothesis P_enter : forall A dir (rest : M env A),
  preserves P rest ->
  preserves P (bind (chdir dir)
                 (fun _ => bind (modify (with_currentDirectory dir)) (fun _ => rest))).
Hypothesis P_package_directory : forall operation d,
  truthy (pk_directory operation) = Some d ->
  preserves P (handlePackageOperation operation).

Lemma preserves_ret A (a : A) : preserves P (ret a).
Proof. intros s H. exact H. Qed.

Lemma preserves_throw A e : preserves P (@throw env A e).
Proof. intros s H. exact H. Qed.

Lemma preserves_gets A (f : State env -> A) : preserves P (gets f).
Proof. intros s H. exact H. Qed.

Lemma preserves_bind A B (m : M env A) (k : A -> M env B) :
  preserves P m -> (forall a, preserves P (k a)) -> preserves P (bind m k).
Proof.
  intros Hm Hk s H. unfold bind. specialize (Hm s H).
  destruct (m s) as [[a|e] s']; simpl in *; [apply Hk|]; exact Hm.
Qed.

Lemma preserves_try_catch A (m : M env A) handler :
  preserves P m -> (forall e, preserves P (handler e)) -> preserves P (try_catch m handler).
Proof.
  intros Hm Hh s H. unfold try_catch. specialize (Hm s H).
  destruct (m s) as [[a|e] s']; simpl in *; [|apply Hh]; exact Hm.
Qed.

Lemma preserves_for_each A (xs : list A) body :
  (forall x, preserves P (body x)) -> preserves P (for_each xs body).
Proof.
  intros Hb. induction xs as [|x xs IH]; simpl.
  - apply preserves_ret.
  - apply preserves_bind; auto.
Qed.

Lemma preserves_emit e : preserves P (emit e).
Proof. intros s H. apply P_emit, H. Qed.

Lemma preserves_console line : preserves P (console line).
Proof. apply preserves_emit. Qed.

Lemma preserves_clock : preserves P (@clock env).
Proof. apply preserves_gets. Qed.

Lemma preserves_call A e (oracle : World env -> outcome A * World env) :
  preserves P (call e oracle).
Proof.
  intros s H. unfold call. simpl.
  destruct (oracle (world s)) as [r w]. simpl. apply P_world, P_emit, H.
Qed.

Lemma preserves_call_total A (oracle : World env -> A * World env) e :
  preserves P (call_total oracle e).
Proof.
  intros s H. unfold call_total.
  destruct (oracle (world s)) as [a w]. simpl. apply P_world, P_emit, H.
Qed.

Lemma preserves_call_shown A (oracle : World env -> outcome A * World env) e failed :
  preserves P (call_shown oracle e failed).
Proof.
  intros s H. unfold call_shown.
  destruct (oracle (world s)) as [[a|error] w]; simpl; apply P_world, P_emit, H.
Qed.

Lemma preserves_spawn cmd args dir stdio : preserves P (spawn cmd args dir stdio).
Proof.
  unfold spawn. destruct (String.eqb cmd EmptyString).
  - apply preserves_throw.
  - apply preserves_call_shown.
Qed.

Lemma preserves_execPromise command : preserves P (execPromise command).
Proof. intros s H. unfold execPromise. apply preserves_call, H. Qed.

Lemma preserves_fs_do c : preserves P (fs_do c).
Proof. intros s H. unfold fs_do. apply preserves_call, H. Qed.

Lemma preserves_resolveProjectPath p : preserves P (resolveProjectPath p).
Proof. apply preserves_gets. Qed.

(** One step of the traversal of an executor's body. *)
Ltac keep :=
  cbv zeta;
  match goal with
  | |- preserves _ (bind _ _) => apply preserves_bind; [|intros ?]
  | |- preserves _ (try_catch _ _) => apply preserves_try_catch; [|intros ?]
  | |- preserves _ (for_each _ _) => apply preserves_for_each; intros ?
  | |- preserves _ (ret _) => apply preserves_ret
  | |- preserves _ (throw _) => apply preserves_throw
  | |- preserves _ (gets _) => apply preserves_gets
  | |- preserves _ (console _) => apply preserves_console
  | |- preserves _ (emit _) => apply preserves_emit
  | |- preserves _ (@clock _) => apply preserves_clock
  | |- preserves _ (call _ _) => apply preserves_call
  | |- preserves _ (call_total _ _) => apply preserves_call_total
  | |- preserves _ (spawn _ _ _ _) => apply preserves_spawn
  | |- preserves _ (execPromise _) => apply preserves_execPromise
  | |- preserves _ (fs_do _) => apply preserves_fs_do
  | |- preserves _ (resolveProjectPath _) => apply preserves_resolveProjectPath
  | |- preserves _ (modify _) => intros ? ?; simpl; auto
  | |- preserves _ (fun s => call _ _ s) => intros ? ?; apply preserves_call; auto
  | |- preserves _ (match ?x with _ => _ end) => destruct x
  | |- preserves _ (if ?x then _ else _) => destruct x
  end.

Lemma preserves_watchFiles dirPath : preserves P (watchFiles dirPath).
Proof. unfold watchFiles. repeat keep. Qed.

Lemma preserves_stopProcess name : preserves P (stopProcess name).
Proof. unfold stopProcess, noRunningProcess. repeat keep. Qed.

Lemma preserves_startProcess command options : preserves P (startProcess command options).
Proof.
  unfold startProcess. repeat keep; try apply preserves_stopProcess.
Qed.

Lemma preserves_onExit name code : preserves P (onExit name code).
Proof. unfold onExit. repeat keep. Qed.

Lemma preserves_listProcesses : preserves P (@listProcesses env).
Proof. unfold listProcesses. repeat keep. Qed.

Lemma preserves_handleMongoDBOperation operation :
  preserves P (handleMongoDBOperation operation).
Proof. unfold handleMongoDBOperation. repeat keep. Qed.

Lemma preserves_handleDatabaseOperation operation :
  preserves P (handleDatabaseOperation operation).
Proof.
  unfold handleDatabaseOperation. repeat keep;
    apply preserves_handleMongoDBOperation.
Qed.

Lemma preserves_handleGitOperation operation : preserves P (handleGitOperation operation).
Proof. unfold handleGitOperation. repeat keep. Qed.

Lemma preserves_package_command operation : preserves P (package_command operation).
Proof. unfold package_command, join_packages. repeat keep. Qed.

Lemma preserves_handlePackageOperation operation :
  preserves P (handlePackageOperation operation).
Proof.
  destruct (truthy (pk_directory operation)) as [d|] eqn:Hdir.
  - eapply P_package_directory, Hdir.
  - unfold handlePackageOperation. rewrite Hdir.
    apply preserves_try_catch.
    + repeat keep. apply preserves_package_command.
    + intros e. apply P_leave. repeat keep.
Qed.

Lemma preserves_performFileOperation operation :
  preserves P (performFileOperation operation).
Proof.
  unfold performFileOperation. repeat keep; apply preserves_watchFiles.
Qed.

Lemma preserves_setup_step step : preserves P (setup_step step).
Proof.
  unfold setup_step. destruct step; repeat keep;
    auto using preserves_handlePackageOperation, preserves_startProcess,
      preserves_handleGitOperation, preserves_handleDatabaseOperation.
Qed.

Lemma preserves_handleProjectSetup setup : preserves P (handleProjectSetup setup).
Proof.
  unfold handleProjectSetup.
  apply preserves_bind; [apply preserves_console | intros _].
  apply preserves_try_catch; [|intros e; repeat keep].
  apply preserves_bind; [apply preserves_resolveProjectPath | intros projectPath].
  apply preserves_bind; [apply preserves_fs_do | intros _].
  apply P_enter.
  repeat keep. apply preserves_setup_step.
Qed.

Lemma preserves_deploy_step platform step : preserves P (deploy_step platform step).
Proof. unfold deploy_step. destruct step; repeat keep. Qed.

Lemma preserves_handleDeployment deployment : preserves P (handleDeployment deployment).
Proof.
  unfold handleDeployment. repeat keep. apply preserves_deploy_step.
Qed.

Lemma preserves_dispatch action : preserves P (dispatch action).
Proof.
  unfold dispatch. destruct action; repeat keep;
    auto using preserves_handleProjectSetup, preserves_performFileOperation,
      preserves_handlePackageOperation, preserves_startProcess, preserves_stopProcess,
      preserves_listProcesses, preserves_handleDatabaseOperation,
      preserves_handleGitOperation, preserves_handleDeployment.
  unfold noRunningProcess. repeat keep.
Qed.

Lemma preserves_run_actions actions : preserves P (run_actions actions).
Proof. apply preserves_for_each, preserves_dispatch. Qed.

Lemma preserves_executeAICommand userCommand parsed :
  preserves P (executeAICommand userCommand parsed).
Proof.
  unfold executeAICommand, record_command. repeat keep.
  apply preserves_run_actions.
Qed.

End Preservation.

(** *** Properties that do not mention the working directory *)

Section Frame.
Variable env : Env.
Variable P : State env -> Prop.

Hypothesis P_emit : forall s e, P s -> P (with_trace (trace s ++ [e]) s).
Hypothesis P_world : forall s w, P s -> P (with_world w s).
Hypothesis P_register : forall s name entry,
  P s -> P (with_runningProcesses (JsMap.set name entry (runningProcesses s)) s).
Hypothesis P_unregister : forall s name,
  P s -> P (with_runningProcesses (JsMap.delete name (runningProcesses s)) s).
Hypothesis P_watch : forall s dir watcher,
  P s -> P (with_fileWatchers (JsMap.set dir watcher (fileWatchers s)) s).
Hypothesis P_connect : forall s connectionString connection,
  P s -> P (with_databases (JsMap.set connectionString connection (databases s)) s).
Hypothesis P_history : forall s h, P s -> P (with_history h s).
Hypothesis P_cwd : forall s dir, P s -> P (with_cwd dir s).
Hypothesis P_currentDirectory : forall s dir, P s -> P (with_currentDirectory dir s).

Lemma frame_chdir dir : preserves P (@chdir env dir).
Proof.
  intros s H. unfold chdir.
  destruct (can_chdir env dir (world s)); simpl; auto.
Qed.

Lemma frame_handlePackageOperation operation :
  preserves P (@handlePackageOperation env operation).
Proof.
  unfold handlePackageOperation.
  apply preserves_try_catch; [|intros e].
  - apply preserves_bind; [|intros _].
    { destruct (truthy (pk_directory operation)) as [d|]; [|intros s H; exact H].
      apply preserves_bind; [intros s H; exact H | intros target; apply frame_chdir]. }
    apply preserves_bind; [|intros command].
    { intros s H. destruct (package_command_pure operation s) as [r ->]. exact H. }
    apply preserves_bind; [apply preserves_execPromise; auto | intros result].
    apply preserves_bind; [|intros _; intros s H; exact H].
    destruct (truthy (pk_directory operation)) as [d|]; [|intros s H; exact H].
    apply preserves_bind; [intros s H; exact H | intros saved; apply frame_chdir].
  - apply preserves_bind; [intros s H; exact H | intros saved].
    apply preserves_bind; [apply frame_chdir | intros _].
    apply preserves_bind; [apply preserves_console; auto | intros _; intros s H; exact H].
Qed.

Lemma frame_dispatch action : preserves P (@dispatch env action).
Proof.
  apply preserves_dispatch; auto.
  - intros A rest Hrest.
    apply preserves_bind; [intros s H; exact H | intros saved].
    apply preserves_bind; [apply frame_chdir | intros _; exact Hrest].
  - intros A dir rest Hrest.
    apply preserves_bind; [apply frame_chdir | intros _].
    apply preserves_bind; [intros s H; simpl; auto | intros _; exact Hrest].
  - intros operation d _. apply frame_handlePackageOperation.
Qed.

Lemma frame_onExit name code : preserves P (@onExit env name code).
Proof. apply preserves_onExit; auto. Qed.

Lemma frame_executeAICommand userCommand parsed :
  preserves P (@executeAICommand env userCommand parsed).
Proof.
  unfold executeAICommand, record_command.
  apply preserves_try_catch; [|intros e].
  - apply preserves_bind; [destruct parsed; intros s H; exact H | intros plan].
    apply preserves_bind; [|intros _].
    { apply preserves_bind; [apply preserves_console; auto | intros _].
      apply preserves_bind; [intros s H; exact H | intros timestamp].
      intros s H. simpl. auto. }
    apply preserves_bind; [apply preserves_for_each, frame_dispatch | intros _].
    apply preserves_bind; [|intros _; intros s H; exact H].
    destruct (plan_needsMonitoring plan);
      [apply preserves_console; auto | intros s H; exact H].
  - apply preserves_bind; [apply preserves_console; auto | intros _; intros s H; exact H].
Qed.

End Frame.

(** *** Instances *)

Section Instances.
Variable env : Env.
Implicit Types (s : State env).

Lemma extends_refl s : extends (trace s) s.
Proof. exists []. symmetry. apply app_nil_r. Qed.

(** The trace only grows, whatever an action does. *)
Lemma dispatch_extends t0 action : preserves (extends t0) (@dispatch env action).
Proof.
  apply frame_dispatch; try (intros s x [t H]; exists t; exact H);
    try (intros s x y [t H]; exists t; exact H).
  intros s e [t H]. exists (t ++ [e])%list. simpl. rewrite H, app_assoc. reflexivity.
Qed.

Lemma registries_wf_initial w dir : registries_wf (initial env w dir).
Proof. repeat split; constructor. Qed.

(** The registries stay well-formed [Map]s through every command of a
    session and every child exit. *)
Lemma dispatch_registries_wf action : preserves (@registries_wf env) (dispatch action).
Proof.
  apply frame_dispatch; intros;
    match goal with H : registries_wf _ |- _ => destruct H as [Hp [Hw Hd]] end;
    repeat split; simpl; auto using JsMapFacts.wf_set, JsMapFacts.wf_delete.
Qed.

Lemma executeAICommand_registries_wf userCommand parsed :
  preserves (@registries_wf env) (executeAICommand userCommand parsed).
Proof.
  apply frame_executeAICommand; intros;
    match goal with H : registries_wf _ |- _ => destruct H as [Hp [Hw Hd]] end;
    repeat split; simpl; auto using JsMapFacts.wf_set, JsMapFacts.wf_delete.
Qed.

Lemma synced_chdir_session A (rest : M env A) :
  preserves (@synced env) rest ->
  preserves (@synced env)
    (bind (gets (@currentDirectory env)) (fun saved => bind (chdir saved) (fun _ => rest))).
Proof.
  intros Hrest s H. unfold bind, gets, chdir. simpl.
  destruct (can_chdir env (currentDirectory s) (world s)); simpl.
  - apply Hrest. reflexivity.
  - exact H.
Qed.

Lemma synced_enter A dir (rest : M env A) :
  preserves (@synced env) rest ->
  preserves (@synced env)
    (bind (chdir dir) (fun _ => bind (modify (with_currentDirectory dir)) (fun _ => rest))).
Proof.
  intros Hrest s H. unfold bind, modify, chdir. simpl.
  destruct (can_chdir env dir (world s)); simpl.
  - apply Hrest. reflexivity.
  - exact H.
Qed.

(** In an environment where every [chdir] succeeds, the working directory
    and [projectState.currentDirectory] agree after every action if they
    agreed before it: [handleProjectSetup] moves both, and
    [handlePackageOperation] moves the former back. *)
Lemma dispatch_synced action :
  (forall dir w, can_chdir env dir w = true) ->
  preserves (@synced env) (dispatch action).
Proof.
  intros Hchdir.
  apply preserves_dispatch; try (intros s x H; exact H);
    try (intros s x y H; exact H).
  - apply synced_chdir_session.
  - apply synced_enter.
  - intros operation d Hdir s H. unfold synced in *.
    destruct (@handlePackageOperation_frame env s operation d Hdir H) as [E1 E2]; auto.
    congruence.
Qed.

Lemma executeAICommand_synced userCommand parsed :
  (forall dir w, can_chdir env dir w = true) ->
  preserves (@synced env) (executeAICommand userCommand parsed).
Proof.
  intros Hchdir.
  apply preserves_executeAICommand; try (intros s x H; exact H);
    try (intros s x y H; exact H).
  - apply synced_chdir_session.
  - apply synced_enter.
  - intros operation d Hdir s H. unfold synced in *.
    destruct (@handlePackageOperation_frame env s operation d Hdir H) as [E1 E2]; auto.
    congruence.
Qed.

Lemma initial_synced w dir : synced (initial env w dir).
Proof. reflexivity. Qed.

End Instances.

(** ** The plan dispatcher *)

Section DispatcherProperties.
Variable env : Env.
Implicit Types (s : State env).

Lemma for_each_app {A} (body : A -> M env unit) xs ys s s1 :
  for_each xs body s = (Returned tt, s1) ->
  for_each (xs ++ ys) body s = for_each ys body s1.
Proof.
  revert s. induction xs as [|x xs IH]; intros s H; simpl in *.
  - unfold ret in H. inversion H. reflexivity.
  - unfold bind in *. destruct (body x s) as [[[]|e] s'].
    + apply IH. exact H.
    + discriminate.
Qed.

Lemma for_each_stops {A} (body : A -> M env unit) xs x ys s s1 s2 error :
  for_each xs body s = (Returned tt, s1) ->
  body x s1 = (Thrown error, s2) ->
  for_each (xs ++ x :: ys) body s = (Thrown error, s2).
Proof.
  intros Hxs Hx. erewrite for_each_app by eassumption. simpl.
  unfold bind. rewrite Hx. reflexivity.
Qed.

Lemma record_command_returns userCommand plan s :
  fst (record_command userCommand plan s) = Returned tt.
Proof. reflexivity. Qed.

(** A parse failure ends the command at once: no history entry, no action. *)
Lemma executeAICommand_unparsed userCommand error s :
  executeAICommand userCommand (Thrown error) s =
    (Returned false, with_trace (trace s ++ [EvConsole ("Error: " ++ error)]) s).
Proof. reflexivity. Qed.

(** C5.  When the actions before index [k] have run and the executor of
    action [k] throws, [executeAICommand] returns [false] and the session is
    left exactly as the throwing action left it, with the error line
    printed: no action after [k] has run (the result does not depend on
    them), and nothing the earlier actions did to the registries or to the
    outside world is undone; the record of their calls is a prefix of the
    final trace. *)
Theorem dispatcher_aborts_on_failure userCommand plan before failing after s s1 s2 error :
  plan_actions plan = (before ++ failing :: after)%list ->
  run_actions before (snd (record_command userCommand plan s)) = (Returned tt, s1) ->
  dispatch failing s1 = (Thrown error, s2) ->
  executeAICommand userCommand (Returned plan) s =
    (Returned false, with_trace (trace s2 ++ [EvConsole ("Error: " ++ error)]) s2) /\
  exists t, trace s2 = (trace s1 ++ t)%list.
Proof.
  intros Hplan Hbefore Hfail. split.
  - unfold executeAICommand, try_catch, bind at 1, ret at 1.
    unfold bind at 1.
    destruct (record_command userCommand plan s) as [r s0] eqn:Hrec.
    pose proof (record_command_returns userCommand plan s) as Hr.
    rewrite Hrec in Hr. simpl in Hr, Hbefore. subst r.
    unfold bind at 1. unfold run_actions in *. rewrite Hplan.
    erewrite for_each_stops by eassumption.
    reflexivity.
  - pose proof (@dispatch_extends env (trace s1) failing s1 (extends_refl s1)) as H.
    rewrite Hfail in H. exact H.
Qed.

End DispatcherProperties.

(** ** Shutdown *)

Section ShutdownProperties.
Variable env : Env.
Implicit Types (s : State env).

Lemma external_app t1 t2 : external (t1 ++ t2)%list = (external t1 ++ external t2)%list.
Proof. apply filter_app. Qed.

Lemma keys_app V (a b : JsMap.t V) :
  JsMap.keys (a ++ b)%list = (JsMap.keys a ++ JsMap.keys b)%list.
Proof. apply map_app. Qed.

Lemma not_in_keys V k (m : JsMap.t V) : ~ In k (JsMap.keys m) -> JsMap.has k m = false.
Proof.
  intros H. destruct (JsMap.has k m) eqn:E; auto.
  apply JsMapFacts.has_in_keys in E. contradiction.
Qed.

Lemma get_middle V k (v : V) pre post :
  ~ In k (JsMap.keys pre) -> JsMap.get k (pre ++ (k, v) :: post)%list = Some v.
Proof.
  intros H. induction pre as [|[k' v'] pre IH]; simpl in *.
  - rewrite String.eqb_refl. reflexivity.
  - destruct (String.eqb_spec k k') as [->|N]; [tauto|]. apply IH. tauto.
Qed.

Lemma delete_middle V k (v : V) pre post :
  ~ In k (JsMap.keys pre) -> ~ In k (JsMap.keys post) ->
  JsMap.delete k (pre ++ (k, v) :: post)%list = (pre ++ post)%list.
Proof.
  intros Hpre Hpost. unfold JsMap.delete. rewrite filter_app. simpl.
  rewrite String.eqb_refl. simpl.
  fold (JsMap.delete k pre). fold (JsMap.delete k post).
  rewrite !JsMapFacts.delete_absent by (apply not_in_keys; assumption).
  reflexivity.
Qed.


(** A closing loop whose calls all return visits every entry, in order, and
    touches no registry. *)
Lemma exit_close_loop label event oracle :
  (forall h, is_console (event h) = false) ->
  (forall h w, returned (fst (oracle h w)) = true) ->
  forall entries s,
  exists s' t,
    for_each entries (@exit_close env label event oracle) s = (Returned tt, s') /\
    trace s' = (trace s ++ t)%list /\
    external t = map (fun e : string * Handle => event (snd e)) entries /\
    runningProcesses s' = runningProcesses s /\
    fileWatchers s' = fileWatchers s /\
    databases s' = databases s.
Proof.
  intros Hev Hok. induction entries as [|[k h] entries IH]; intros s.
  - exists s, []. simpl. rewrite app_nil_r. repeat split; reflexivity.
  - simpl. unfold bind at 1. unfold exit_close at 1. run.
    specialize (Hok h (world s)).
    destruct (oracle h (world s)) as [[[]|err] w]; [|discriminate].
    match goal with
    | |- context [for_each _ _ ?st] => destruct (IH st) as [s' [t H]]
    end.
    destruct H as [Hrun [Htr [Hext [Hp [Hw Hd]]]]].
    exists s', ([EvConsole (label ++ k); event h] ++ t)%list.
    split; [exact Hrun|]. split.
    { rewrite Htr. simpl. rewrite <- !app_assoc. reflexivity. }
    split.
    { rewrite external_app, Hext. unfold external at 1. simpl.
      rewrite Hev. reflexivity. }
    rewrite Hp, Hw, Hd. repeat split; reflexivity.
Qed.

Lemma exit_sequence_loops s :
  exit_sequence s =
  bind (console "Cleaning up before exit...") (fun _ =>
  bind (gets (fun st : State env => JsMap.keys (runningProcesses st))) (fun names =>
  bind (for_each names (@exit_stop env)) (fun _ =>
  bind (gets (@fileWatchers env)) (fun watchers =>
  bind (for_each watchers
          (exit_close "Stopping file watcher for: " EvWatcherClose (watcher_close env)))
    (fun _ =>
  bind (gets (@databases env)) (fun connections =>
  bind (for_each connections
          (exit_close "Closing database connection: " EvConnectionClose
             (connection_close env)))
    (fun _ => console "Thank you for using Super AI Agent! Goodbye."))))))) s.
Proof. reflexivity. Qed.

(** The first loop, exactly: every registered process is signalled, in
    order, and the entries that remain are those whose [kill()] threw. *)
Lemma exit_stop_loop_exact : forall post pre s,
  runningProcesses s = (pre ++ post)%list ->
  JsMap.wf (pre ++ post)%list ->
  exists s' t,
    for_each (JsMap.keys post) (@exit_stop env) s = (Returned tt, s') /\
    trace s' = (trace s ++ t)%list /\
    external t = map (fun e : string * ProcessEntry => EvKill (pe_process (snd e))) post /\
    runningProcesses s' = (pre ++ fst (unkilled env post (world s)))%list /\
    world s' = snd (unkilled env post (world s)) /\
    fileWatchers s' = fileWatchers s /\
    databases s' = databases s.
Proof.
  induction post as [|[k e] post IH]; intros pre s Hreg Hwf.
  - exists s, []. simpl. rewrite !app_nil_r in *. repeat split; auto.
  - unfold JsMap.wf in Hwf. rewrite keys_app in Hwf. simpl in Hwf.
    pose proof (NoDup_remove_1 _ _ _ Hwf) as Hwf'.
    pose proof (NoDup_remove_2 _ _ _ Hwf) as Hnot.
    assert (Hpre : ~ In k (JsMap.keys pre)) by (intros H; apply Hnot, in_or_app; auto).
    assert (Hpost : ~ In k (JsMap.keys post)) by (intros H; apply Hnot, in_or_app; auto).
    cbn [JsMap.keys map fst for_each]. unfold bind at 1. unfold exit_stop at 1.
    unfold bind at 1. unfold console, emit, modify at 1.
    set (s0 := with_trace (trace s ++ [EvConsole ("Stopping process: " ++ k)]) s).
    assert (Hget : JsMap.get k (runningProcesses s0) = Some e).
    { simpl. rewrite Hreg. apply get_middle, Hpre. }
    unfold bind at 1. cbn [unkilled snd].
    change (world s) with (world s0).
    destruct (cp_kill env (pe_process e) (world s0)) as [[b|err] w] eqn:Hkill.
    + rewrite (stopProcess_kill_returns _ _ Hget Hkill). unfold ret at 1.
      destruct (IH pre (stopped k (pe_process e) w s0)) as [s' [t H]].
      * simpl. rewrite Hreg. apply delete_middle; assumption.
      * unfold JsMap.wf. rewrite keys_app. exact Hwf'.
      * destruct H as [Hrun [Htr [Hext [Hkept [Hworld [Hw Hd]]]]]].
        exists s', ([EvConsole ("Stopping process: " ++ k); EvKill (pe_process e);
                     EvConsole ("Stopped process: " ++ k)] ++ t)%list.
        split; [exact Hrun|]. split.
        { rewrite Htr. simpl. rewrite <- !app_assoc. reflexivity. }
        split; [rewrite external_app, Hext; reflexivity|].
        split; [exact Hkept|]. split; [exact Hworld|].
        split; [rewrite Hw | rewrite Hd]; reflexivity.
    + rewrite (stopProcess_kill_throws _ _ Hget Hkill). unfold ret at 1.
      match goal with
      | |- context [for_each _ _ ?st] => set (s1 := st)
      end.
      destruct (IH (pre ++ [(k, e)])%list s1) as [s' [t H]].
      * simpl. rewrite Hreg, <- app_assoc. reflexivity.
      * rewrite <- app_assoc. unfold JsMap.wf. rewrite keys_app. exact Hwf.
      * destruct H as [Hrun [Htr [Hext [Hkept [Hworld [Hw Hd]]]]]].
        simpl in Hkept, Hworld.
        exists s', ([EvConsole ("Stopping process: " ++ k); EvKill (pe_process e);
                     EvConsole ("Error stopping process " ++ k ++ ": " ++ err)] ++ t)%list.
        split; [exact Hrun|]. split.
        { rewrite Htr. simpl. rewrite <- !app_assoc. reflexivity. }
        split; [rewrite external_app, Hext; reflexivity|].
        destruct (unkilled env post w) as [kept w''] eqn:Hrest. simpl in *.
        split; [rewrite Hkept, <- app_assoc; reflexivity|].
        split; [exact Hworld|].
        split; [rewrite Hw | rewrite Hd]; reflexivity.
Qed.

(** A closing loop, whatever its calls answer: the entries are visited in
    order up to the first [close()] that throws, and no registry changes. *)
Lemma exit_close_loop_any label event oracle :
  (forall h, is_console (event h) = false) ->
  forall entries s,
  exists r s' t n,
    for_each entries (@exit_close env label event oracle) s = (r, s') /\
    trace s' = (trace s ++ t)%list /\
    external t = map (fun e : string * Handle => event (snd e)) (firstn n entries) /\
    (returned r = true ->
     external t = map (fun e : string * Handle => event (snd e)) entries) /\
    runningProcesses s' = runningProcesses s /\
    fileWatchers s' = fileWatchers s /\
    databases s' = databases s.
Proof.
  intros Hev. induction entries as [|[k h] entries IH]; intros s.
  - exists (Returned tt), s, [], O. simpl. rewrite app_nil_r. repeat split; reflexivity.
  - cbn [for_each]. unfold bind at 1. unfold exit_close at 1. run.
    destruct (oracle h (world s)) as [[[]|err] w].
    + match goal with
      | |- context [for_each _ _ ?st] => destruct (IH st) as [r [s' [t [n H]]]]
      end.
      destruct H as [Hrun [Htr [Hext [Hall [Hp [Hw Hd]]]]]].
      exists r, s', ([EvConsole (label ++ k); event h] ++ t)%list, (S n).
      split; [exact Hrun|].
      split; [rewrite Htr; simpl; rewrite <- !app_assoc; reflexivity|].
      split.
      { rewrite external_app, Hext. unfold external at 1. simpl. rewrite Hev. reflexivity. }
      split.
      { intros Hret. rewrite external_app, (Hall Hret). unfold external at 1. simpl.
        rewrite Hev. reflexivity. }
      rewrite Hp, Hw, Hd. repeat split; reflexivity.
    + eexists (Thrown err), _, [EvConsole (label ++ k); event h], 1.
      split; [reflexivity|]. simpl.
      split; [rewrite <- app_assoc; reflexivity|].
      split; [unfold external; simpl; rewrite Hev; reflexivity|].
      split; [discriminate|]. repeat split; reflexivity.
Qed.

Lemma unkilled_incl entries : forall w entry,
  In entry (fst (unkilled env entries w)) ->
  In entry entries /\
  exists w', returned (fst (cp_kill env (pe_process (snd entry)) w')) = false.
Proof.
  induction entries as [|e entries IH]; intros w entry Hin; [contradiction|].
  cbn [unkilled] in Hin.
  destruct (cp_kill env (pe_process (snd e)) w) as [[b|err] w'] eqn:Hkill.
  - destruct (IH _ _ Hin) as [H1 H2]. split; [right; exact H1 | exact H2].
  - destruct (unkilled env entries w') as [kept w''] eqn:Hrest. simpl in Hin.
    destruct Hin as [<-|Hin].
    + split; [left; reflexivity|]. exists w. rewrite Hkill. reflexivity.
    + assert (H : In entry (fst (unkilled env entries w'))) by (rewrite Hrest; exact Hin).
      destruct (IH _ _ H) as [H1 H2]. split; [right; exact H1 | exact H2].
Qed.

Lemma unkilled_keeps entries : forall w entry,
  In entry entries ->
  (forall w', returned (fst (cp_kill env (pe_process (snd entry)) w')) = false) ->
  In entry (fst (unkilled env entries w)).
Proof.
  induction entries as [|e entries IH]; intros w entry Hin Hbad; [contradiction|].
  cbn [unkilled].
  destruct Hin as [->|Hin].
  - specialize (Hbad w).
    destruct (cp_kill env (pe_process (snd entry)) w) as [[b|err] w']; [discriminate|].
    destruct (unkilled env entries w') as [kept w'']. left. reflexivity.
  - destruct (cp_kill env (pe_process (snd e)) w) as [[b|err] w'].
    + apply IH; assumption.
    + pose proof (IH w' entry Hin Hbad) as H.
      destruct (unkilled env entries w') as [kept w'']. right. exact H.
Qed.

Lemma unkilled_none entries : forall w,
  (forall h w', returned (fst (cp_kill env h w')) = true) ->
  fst (unkilled env entries w) = [].
Proof.
  induction entries as [|e entries IH]; intros w Hok; [reflexivity|].
  cbn [unkilled]. specialize (Hok (pe_process (snd e)) w) as Hthis.
  destruct (cp_kill env (pe_process (snd e)) w) as [[b|err] w']; [|discriminate].
  apply IH, Hok.
Qed.

(** What the exit sequence does in every case: the state it leaves, the
    calls it made, and its result when every [close()] returns. *)
Lemma exit_sequence_outcome s :
  JsMap.wf (runningProcesses s) ->
  exists r s' t n m,
    exit_sequence s = (r, s') /\
    trace s' = (trace s ++ t)%list /\
    external t
      = (map (fun e : string * ProcessEntry => EvKill (pe_process (snd e)))
           (runningProcesses s)
         ++ map (fun e : string * Handle => EvWatcherClose (snd e))
              (firstn n (fileWatchers s))
         ++ map (fun e : string * Handle => EvConnectionClose (snd e))
              (firstn m (databases s)))%list /\
    runningProcesses s' = fst (unkilled env (runningProcesses s) (world s)) /\
    fileWatchers s' = fileWatchers s /\
    databases s' = databases s /\
    ((forall h w, returned (fst (watcher_close env h w)) = true) ->
     (forall h w, returned (fst (connection_close env h w)) = true) ->
     r = Returned tt /\ external t = shutdown_calls s).
Proof.
  intros Hwf. rewrite exit_sequence_loops.
  unfold bind at 1. unfold console at 1, emit, modify.
  set (s0 := with_trace (trace s ++ [EvConsole "Cleaning up before exit..."]) s).
  unfold bind at 1. unfold gets at 1. cbv beta iota.
  destruct (exit_stop_loop_exact (runningProcesses s) [] s0 eq_refl Hwf)
    as [s1 [t1 [Hrun1 [Htr1 [Hext1 [Hkept [_ [Hw1 Hd1]]]]]]]].
  unfold bind at 1. change (runningProcesses s0) with (runningProcesses s).
  rewrite Hrun1.
  unfold bind at 1. unfold gets at 1. cbv beta iota.
  destruct (@exit_close_loop_any "Stopping file watcher for: " EvWatcherClose
              (watcher_close env) (fun _ => eq_refl) (fileWatchers s1) s1)
    as [r2 [s2 [t2 [n [Hrun2 [Htr2 [Hext2 [Hall2 [Hp2 [Hw2 Hd2]]]]]]]]]].
  unfold bind at 1. rewrite Hrun2.
  destruct r2 as [[]|err2].
  - unfold bind at 1. unfold gets at 1. cbv beta iota.
    destruct (@exit_close_loop_any "Closing database connection: " EvConnectionClose
                (connection_close env) (fun _ => eq_refl) (databases s2) s2)
      as [r3 [s3 [t3 [m [Hrun3 [Htr3 [Hext3 [Hall3 [Hp3 [Hw3 Hd3]]]]]]]]]].
    unfold bind at 1. rewrite Hrun3.
    destruct r3 as [[]|err3].
    + unfold console, emit, modify.
      eexists (Returned tt), _,
        ([EvConsole "Cleaning up before exit..."] ++ t1 ++ t2 ++ t3 ++
              [EvConsole "Thank you for using Super AI Agent! Goodbye."])%list,
        (List.length (fileWatchers s)), (List.length (databases s)).
      rewrite !firstn_all.
      split; [reflexivity|].
      split; [simpl; rewrite Htr3, Htr2, Htr1; simpl; rewrite <- !app_assoc; reflexivity|].
      assert (Hext : external
                ([EvConsole "Cleaning up before exit..."] ++ t1 ++ t2 ++ t3 ++
                 [EvConsole "Thank you for using Super AI Agent! Goodbye."])
              = shutdown_calls s).
      { unfold shutdown_calls.
        change (external ([EvConsole "Cleaning up before exit..."] ++ ?x))
          with (external x).
        rewrite !external_app, Hext1, (Hall2 eq_refl), (Hall3 eq_refl), Hd2, Hw1, Hd1.
        simpl. rewrite app_nil_r. reflexivity. }
      split; [exact Hext|]. simpl.
      rewrite Hp3, Hp2, Hkept, Hw3, Hw2, Hw1, Hd3, Hd2, Hd1. simpl.
      repeat split; auto.
    + eexists (Thrown err3), s3,
        ([EvConsole "Cleaning up before exit..."] ++ t1 ++ t2 ++ t3)%list,
        (List.length (fileWatchers s)), m.
      rewrite firstn_all.
      split; [reflexivity|].
      split; [rewrite Htr3, Htr2, Htr1; simpl; rewrite <- !app_assoc; reflexivity|].
      split.
      { change (external ([EvConsole "Cleaning up before exit..."] ++ ?x))
          with (external x).
        rewrite !external_app, Hext1, (Hall2 eq_refl), Hext3, Hd2, Hw1, Hd1.
        reflexivity. }
      rewrite Hp3, Hp2, Hkept, Hw3, Hw2, Hw1, Hd3, Hd2, Hd1. simpl.
      split; [reflexivity|]. split; [reflexivity|]. split; [reflexivity|].
      intros Hwatch Hconn. exfalso.
      destruct (@exit_close_loop "Closing database connection: " EvConnectionClose
                  (connection_close env) (fun _ => eq_refl) Hconn (databases s2) s2)
        as [s' [t' [Hrun' _]]].
      rewrite Hrun3 in Hrun'. discriminate.
  - eexists (Thrown err2), s2,
      ([EvConsole "Cleaning up before exit..."] ++ t1 ++ t2)%list, n, O.
    split; [reflexivity|].
    split; [rewrite Htr2, Htr1; simpl; rewrite <- !app_assoc; reflexivity|].
    split.
    { change (external ([EvConsole "Cleaning up before exit..."] ++ ?x))
        with (external x).
      rewrite !external_app, Hext1, Hext2, Hw1. simpl. rewrite app_nil_r. reflexivity. }
    rewrite Hp2, Hkept, Hw2, Hw1, Hd2, Hd1. simpl.
    split; [reflexivity|]. split; [reflexivity|]. split; [reflexivity|].
    intros Hwatch Hconn. exfalso.
    destruct (@exit_close_loop "Stopping file watcher for: " EvWatcherClose
                (watcher_close env) (fun _ => eq_refl) Hwatch (fileWatchers s1) s1)
      as [s' [t' [Hrun' _]]].
    rewrite Hrun2 in Hrun'. discriminate.
Qed.

(** C2, as amended.  In every session the exit sequence signals every
    tracked process, in registry order, before anything else it does outside
    the console; a [kill()] that throws is swallowed by [stopProcess] and
    its entry stays registered, every other entry is removed, so the process
    registry ends empty when no [kill()] throws.  The calls that follow are
    [close()] on watchers, then on connections, in registry order; when no
    [close()] throws all of them are made and the sequence returns.  The
    watcher and database registries are left exactly as they were, however
    the sequence ends: no code removes an entry from them. *)
Theorem exit_sequence_drains s :
  JsMap.wf (runningProcesses s) ->
  (exists n m,
     external (added s (snd (exit_sequence s)))
       = (map (fun e : string * ProcessEntry => EvKill (pe_process (snd e)))
            (runningProcesses s)
          ++ map (fun e : string * Handle => EvWatcherClose (snd e))
               (firstn n (fileWatchers s))
          ++ map (fun e : string * Handle => EvConnectionClose (snd e))
               (firstn m (databases s)))%list) /\
  runningProcesses (snd (exit_sequence s))
    = fst (unkilled env (runningProcesses s) (world s)) /\
  (forall entry,
     In entry (runningProcesses s) ->
     (forall w, returned (fst (cp_kill env (pe_process (snd entry)) w)) = false) ->
     In entry (runningProcesses (snd (exit_sequence s)))) /\
  (forall entry,
     In entry (runningProcesses (snd (exit_sequence s))) ->
     In entry (runningProcesses s) /\
     exists w, returned (fst (cp_kill env (pe_process (snd entry)) w)) = false) /\
  ((forall h w, returned (fst (cp_kill env h w)) = true) ->
   runningProcesses (snd (exit_sequence s)) = []) /\
  fileWatchers (snd (exit_sequence s)) = fileWatchers s /\
  databases (snd (exit_sequence s)) = databases s /\
  ((forall h w, returned (fst (watcher_close env h w)) = true) ->
   (forall h w, returned (fst (connection_close env h w)) = true) ->
   fst (exit_sequence s) = Returned tt /\
   external (added s (snd (exit_sequence s))) = shutdown_calls s).
Proof.
  intros Hwf.
  destruct (exit_sequence_outcome s Hwf)
    as [r [s' [t [n [m [Hrun [Htr [Hext [Hkept [Hw [Hd Hall]]]]]]]]]]].
  rewrite Hrun. cbn [fst snd].
  assert (Hadded : added s s' = t).
  { unfold added. rewrite Htr, skipn_app, skipn_all, Nat.sub_diag. reflexivity. }
  rewrite Hadded, Hkept.
  split; [exists n, m; exact Hext|]. split; [reflexivity|].
  split; [intros entry Hin Hbad; apply unkilled_keeps; assumption|].
  split; [intros entry Hin; eapply unkilled_incl; exact Hin|].
  split; [intros Hok; apply unkilled_none, Hok|].
  split; [exact Hw|]. split; [exact Hd|]. exact Hall.
Qed.

End ShutdownProperties.

(** ** The text of the model's answer *)

Module PlanTextFacts.
Import PlanText.

(** *** The parser always has fuel to spare *)

Lemma skip_ws_length s : List.length (skip_ws s) <= List.length s.
Proof.
  induction s as [|c s IH]; simpl; auto.
  destruct (is_json_ws c); simpl; lia.
Qed.

Lemma expect_length c s r : expect c s = Some r -> List.length r < List.length s.
Proof.
  unfold expect. pose proof (skip_ws_length s) as H.
  destruct (skip_ws s) as [|d rest]; [discriminate|].
  destruct (N.eqb d c); [|discriminate].
  intros E. inversion E; subst. simpl in H. lia.
Qed.

Lemma string_body_length : forall s body r,
  string_body s = Some (body, r) -> List.length r < List.length s.
Proof.
  intros s. remember (List.length s) as n eqn:Hn. revert s Hn.
  induction n as [n IH] using lt_wf_ind. intros s -> body r H.
  destruct s as [|c rest]; simpl in H; [discriminate|].
  destruct (N.eqb c 34); [inversion H; subst; simpl; lia|].
  destruct (N.eqb c 92).
  - destruct rest as [|e rest']; [discriminate|].
    destruct (N.eqb e 117).
    + destruct rest' as [|h1 [|h2 [|h3 [|h4 rest'']]]]; try discriminate.
      destruct (hex_value h1), (hex_value h2), (hex_value h3), (hex_value h4);
        try discriminate.
      destruct (string_body rest'') as [[b r']|] eqn:E; [|discriminate].
      inversion H; subst.
      apply (IH (List.length rest'')) in E; simpl; auto; lia.
    + destruct (unescape e); [|discriminate].
      destruct (string_body rest') as [[b r']|] eqn:E; [|discriminate].
      inversion H; subst.
      apply (IH (List.length rest')) in E; simpl; auto; lia.
  - destruct (N.ltb c 32); [discriminate|].
    destruct (string_body rest) as [[b r']|] eqn:E; [|discriminate].
    inversion H; subst.
    apply (IH (List.length rest)) in E; simpl; auto; lia.
Qed.

Lemma digits_length : forall s ds r,
  digits s = (ds, r) -> List.length r <= List.length s.
Proof.
  induction s as [|c s IH]; simpl; intros ds r H.
  - inversion H; subst. auto.
  - destruct (is_digit c).
    + destruct (digits s) as [ds' r'] eqn:E. inversion H; subst.
      specialize (IH _ _ eq_refl). lia.
    + inversion H; subst. simpl. lia.
Qed.

Lemma fraction_length s frac r :
  fraction s = Some (frac, r) -> List.length r <= List.length s.
Proof.
  unfold fraction. destruct s as [|c s']; [intros H; inversion H; subst; auto|].
  destruct (N.eqb c 46).
  - destruct (digits s') as [ds r'] eqn:E. apply digits_length in E.
    destruct ds; [discriminate|]. intros H. inversion H; subst. simpl. lia.
  - intros H. inversion H; subst. auto.
Qed.

Lemma exponent_length s exp r :
  exponent s = Some (exp, r) -> List.length r <= List.length s.
Proof.
  unfold exponent, exponent_sign. destruct s as [|e s']; [intros H; inversion H; subst; auto|].
  destruct (N.eqb e 101 || N.eqb e 69).
  - destruct s' as [|x s''].
    + simpl. discriminate.
    + destruct (N.eqb x 43 || N.eqb x 45).
      * destruct (digits s'') as [ds r'] eqn:E. apply digits_length in E.
        destruct ds; [discriminate|]. intros H. inversion H; subst. simpl. lia.
      * destruct (digits (x :: s'')) as [ds r'] eqn:E. apply digits_length in E.
        destruct ds; [discriminate|]. intros H. inversion H; subst. simpl in *. lia.
  - intros H. inversion H; subst. auto.
Qed.

Lemma unsigned_number_length s lexeme r :
  unsigned_number s = Some (lexeme, r) -> List.length r < List.length s.
Proof.
  unfold unsigned_number. destruct s as [|d s']; [discriminate|].
  destruct (is_digit d); [|discriminate].
  assert (Hint : forall int s1,
            (if N.eqb d 48 then ([d], s')
             else let (ds, r') := digits s' in (d :: ds, r')) = (int, s1) ->
            List.length s1 <= List.length s').
  { intros int s1. destruct (N.eqb d 48).
    - intros H. inversion H; subst. auto.
    - destruct (digits s') as [ds r'] eqn:E. apply digits_length in E.
      intros H. inversion H; subst. exact E. }
  destruct (if N.eqb d 48 then _ else _) as [int s1].
  specialize (Hint _ _ eq_refl).
  destruct (fraction s1) as [[frac s2]|] eqn:Ef; [|discriminate].
  apply fraction_length in Ef.
  destruct (exponent s2) as [[exp s3]|] eqn:Ee; [|discriminate].
  apply exponent_length in Ee.
  intros H. inversion H; subst. simpl. lia.
Qed.

Lemma number_length s lexeme r :
  number s = Some (lexeme, r) -> List.length r < List.length s.
Proof.
  unfold number. destruct s as [|c s']; [discriminate|].
  destruct (N.eqb c 45).
  - destruct (unsigned_number s') as [[l r']|] eqn:E; [|discriminate].
    apply unsigned_number_length in E. intros H. inversion H; subst. simpl. lia.
  - apply unsigned_number_length.
Qed.

Lemma starts_with_length : forall p s,
  starts_with p s = true -> List.length p <= List.length s.
Proof.
  induction p as [|a p IH]; intros s H; simpl; [lia|].
  destruct s as [|c s]; simpl in H; [discriminate|].
  apply andb_true_iff in H as [_ H]. apply IH in H. simpl. lia.
Qed.

Lemma literal_length (word : string) s n :
  starts_with (of_string word) s = true ->
  n = List.length (of_string word) -> 0 < n ->
  List.length (skipn n s) < List.length s.
Proof.
  intros H -> Hpos. apply starts_with_length in H.
  rewrite length_skipn. lia.
Qed.

(** Turns the equations of a parser run into facts about lengths. *)
Ltac measure :=
  repeat match goal with
  | H : expect _ _ = Some _ |- _ => apply expect_length in H
  | H : string_body _ = Some _ |- _ => apply string_body_length in H
  | H : number _ = Some _ |- _ => apply number_length in H
  | H : skip_ws ?s = _ |- _ =>
      let L := fresh "L" in
      pose proof (skip_ws_length s) as L; rewrite H in L; clear H
  | H : starts_with (of_string ?w) ?s = true |- _ =>
      let L := fresh "L" in
      let n := eval vm_compute in (List.length (of_string w)) in
      assert (L : List.length (skipn n s) < List.length s)
        by (apply (literal_length w); [exact H | vm_compute; reflexivity | lia]);
      clear H
  end.

(** Case analysis on every [match] and [if] of a parser run [H]. *)
Ltac cases H :=
  repeat match type of H with
  | context [match ?x with _ => _ end] => destruct x eqn:?; try discriminate
  | context [if ?x then _ else _] => destruct x eqn:?; try discriminate
  end.

Local Opaque starts_with skipn of_string number string_body expect skip_ws.

(** Every successful run consumes input. *)
Lemma consumes : forall fuel,
  (forall s v r, value fuel s = Parsed v r -> List.length r < List.length s) /\
  (forall s ms r, members fuel s = Parsed ms r -> List.length r < List.length s) /\
  (forall s vs r, elements fuel s = Parsed vs r -> List.length r < List.length s).
Proof.
  induction fuel as [|fuel [IHv [IHm IHe]]].
  - repeat split; intros; discriminate.
  - repeat split; intros s x r H; simpl in H; cases H;
      inversion H; subst; clear H;
      repeat match goal with
      | E : value fuel _ = Parsed _ _ |- _ => apply IHv in E
      | E : members fuel _ = Parsed _ _ |- _ => apply IHm in E
      | E : elements fuel _ = Parsed _ _ |- _ => apply IHe in E
      end;
      measure; simpl in *; lia.
Qed.

Lemma enough_fuel : forall fuel,
  (forall s, 2 * List.length s < fuel -> value fuel s <> OutOfFuel) /\
  (forall s, 2 * List.length s < fuel -> members fuel s <> OutOfFuel) /\
  (forall s, 2 * List.length s + 1 < fuel -> elements fuel s <> OutOfFuel).
Proof.
  induction fuel as [|fuel [IHv [IHm IHe]]].
  - repeat split; intros; lia.
  - destruct (consumes fuel) as [Cv [Cm Ce]].
    repeat split; intros s Hlen H; simpl in H; cases H;
      repeat match goal with
      | E : value fuel _ = Parsed _ _ |- _ => apply Cv in E
      | E : members fuel _ = Parsed _ _ |- _ => apply Cm in E
      | E : elements fuel _ = Parsed _ _ |- _ => apply Ce in E
      end;
      match goal with
      | E : value fuel _ = OutOfFuel |- _ => apply IHv in E; [exact E|]
      | E : members fuel _ = OutOfFuel |- _ => apply IHm in E; [exact E|]
      | E : elements fuel _ = OutOfFuel |- _ => apply IHe in E; [exact E|]
      end;
      measure; simpl in *; lia.
Qed.

Local Transparent starts_with skipn of_string number string_body expect skip_ws.

(** [JSON_parse] answers every text: a value or a syntax error. *)
Lemma JSON_parse_fuel text : JSON_parse text <> OutOfFuel.
Proof.
  unfold JSON_parse. intros H.
  destruct (value (2 * List.length text + 2) text) as [v r| |] eqn:E.
  - destruct (skip_ws r); discriminate.
  - discriminate.
  - apply (proj1 (enough_fuel _)) in E; [exact E | lia].
Qed.

End PlanTextFacts.

Module PlanTextProperties.
Import PlanText.

(** The answer is rejected as soon as [cleanJson] does not parse, whatever
    the extraction step would have found. *)
Lemma parse_response_needs_clean_json response :
  JSON_parse (clean (trim response)) = SyntaxError ->
  parse_response response = SyntaxError.
Proof. intros H. unfold parse_response. rewrite H. reflexivity. Qed.

Local Arguments N.eqb : simpl never.
Local Arguments N.leb : simpl never.
Local Arguments N.ltb : simpl never.

(** Decides the comparisons of a code unit [c] with constants, given
    bounds on [c] in the context. *)
Ltac compare_code :=
  repeat match goal with
  | |- context [N.eqb ?a ?b] => destruct (N.eqb_spec a b); [lia|]
  | |- context [N.leb ?a ?b] => destruct (N.leb_spec a b); try lia
  | |- context [N.ltb ?a ?b] => destruct (N.ltb_spec a b); try lia
  end; simpl; try reflexivity.

Lemma prose_letter_bounds c :
  is_prose_letter c = true ->
  ((65 <= c <= 90) \/ (97 <= c <= 122 /\ c <> 116 /\ c <> 102 /\ c <> 110))%N.
Proof.
  unfold is_prose_letter. intros H.
  apply orb_true_iff in H as [H|H].
  - apply andb_true_iff in H as [H1 H2].
    apply N.leb_le in H1, H2. left. lia.
  - repeat (apply andb_true_iff in H as [H ?]).
    repeat match goal with
    | E : negb _ = true |- _ => apply negb_true_iff, N.eqb_neq in E
    | E : N.leb _ _ = true |- _ => apply N.leb_le in E
    end.
    right. lia.
Qed.

Lemma trimStart_last l c :
  is_space c = false -> exists l', trimStart (l ++ [c])%list = (l' ++ [c])%list.
Proof.
  intros H. induction l as [|a l IH]; simpl.
  - rewrite H. exists []. reflexivity.
  - destruct (is_space a); [exact IH | exists (a :: l); reflexivity].
Qed.

(** [trim] leaves a first character that is not white space in place. *)
Lemma trim_keeps_first c rest :
  is_space c = false -> exists rest', trim (c :: rest) = c :: rest'.
Proof.
  intros H. unfold trim.
  replace (trimStart (c :: rest)) with (c :: rest) by (simpl; rewrite H; reflexivity).
  change (rev (c :: rest)) with (rev rest ++ [c])%list.
  destruct (trimStart_last (rev rest) c H) as [l' E]. rewrite E.
  rewrite rev_app_distr. simpl. eauto.
Qed.

(** Cleaning leaves a prose letter at the head of the text in place. *)
Lemma clean_keeps_first c rest :
  is_prose_letter c = true -> exists rest', clean (c :: rest) = c :: rest'.
Proof.
  intros H. apply prose_letter_bounds in H.
  assert (F1 : fence_json (c :: rest) = None)
    by (unfold fence_json; simpl; compare_code).
  assert (F2 : forall r, fence (c :: r) = None)
    by (intros r; unfold fence; simpl; compare_code).
  assert (F3 : forall r, zero_width (c :: r) = None)
    by (intros r; unfold zero_width, is_zero_width; compare_code).
  assert (F4 : forall r, line_comment (c :: r) = None).
  { intros r. unfold line_comment. destruct c as [|p]; [lia|].
    do 6 (destruct p; try reflexivity); lia. }
  assert (F5 : forall r, block_comment (c :: r) = None).
  { intros r. unfold block_comment. destruct c as [|p]; [lia|].
    do 6 (destruct p; try reflexivity); lia. }
  unfold clean. cbn [remove_matches].
  rewrite F1. cbn [remove_matches]. rewrite F2. cbn [remove_matches].
  rewrite F3. cbn [remove_matches]. rewrite F4. cbn [remove_matches].
  rewrite F5. eauto.
Qed.

(** No JSON text begins with a prose letter. *)
Lemma JSON_parse_prose c rest :
  is_prose_letter c = true -> JSON_parse (c :: rest) = SyntaxError.
Proof.
  intros H. apply prose_letter_bounds in H. unfold JSON_parse.
  replace (2 * List.length (c :: rest) + 2)%nat
    with (S (2 * List.length (c :: rest) + 1)) by lia.
  cbn [value].
  assert (W : skip_ws (c :: rest) = c :: rest).
  { simpl. unfold is_json_ws. compare_code. }
  rewrite W.
  assert (T : starts_with (of_string "true") (c :: rest) = false)
    by (simpl; compare_code).
  assert (F : starts_with (of_string "false") (c :: rest) = false)
    by (simpl; compare_code).
  assert (U : starts_with (of_string "null") (c :: rest) = false)
    by (simpl; compare_code).
  assert (D : number (c :: rest) = None).
  { unfold number, unsigned_number, is_digit. compare_code. }
  rewrite T, F, U, D. compare_code.
Qed.

(** An answer that opens with a sentence is rejected, whatever follows the
    sentence: the plan it may contain is never looked for. *)
Lemma answer_opening_with_prose_is_rejected c rest :
  is_prose_letter c = true -> parse_response (c :: rest) = SyntaxError.
Proof.
  intros H. apply parse_response_needs_clean_json.
  assert (Hspace : is_space c = false).
  { pose proof (prose_letter_bounds c H) as B.
    unfold is_space, is_white_space, is_line_terminator. compare_code. }
  destruct (trim_keeps_first c rest Hspace) as [r1 ->].
  destruct (clean_keeps_first c r1 H) as [r2 ->].
  apply JSON_parse_prose, H.
Qed.

(** A plan that is only fenced is accepted. *)
Lemma fenced_plan_is_accepted :
  parse_response (of_string fenced_response) = Parsed plan_value [].
Proof. vm_compute. reflexivity. Qed.

(** A fenced plan with a URL in one of its strings is rejected: the pattern
    for line comments cuts the string at its two slashes. *)
Lemma plan_with_url_is_rejected :
  parse_response (of_string clone_response) = SyntaxError.
Proof. vm_compute. reflexivity. Qed.

(** C4.  The plan object parses on its own, and the span between the first
    opening and the last closing brace of the prose-wrapped answer is exactly
    that object; yet the answer is rejected, because [cleanJson], which still
    holds the prose, is given to [JSON.parse] before the extraction. *)
Theorem prose_wrapped_plan_is_rejected :
  JSON_parse (of_string plan_object) = Parsed plan_value [] /\
  brace_span (trim (of_string prose_response)) = Some (of_string plan_object) /\
  JSON_parse (clean (trim (of_string prose_response))) = SyntaxError /\
  parse_response (of_string prose_response) = SyntaxError.
Proof. vm_compute. repeat split; reflexivity. Qed.

End PlanTextProperties.

(** * Concrete runs

    The theorems above at the sessions of [Demo]. *)

(** C8 at a fresh session: nothing is registered under [bg]. *)
Lemma stopProcess_absent_run :
  JsMap.has "bg" (runningProcesses Demo.start) = false /\
  exists reply s',
    stopProcess "bg" Demo.start = (Returned reply, s') /\
    success reply = false /\
    runningProcesses s' = runningProcesses Demo.start /\
    fileWatchers s' = fileWatchers Demo.start /\
    databases s' = databases Demo.start /\
    world s' = world Demo.start /\
    cwd s' = cwd Demo.start /\
    trace s' = (trace Demo.start ++ [EvConsole ("No running process named " ++ "bg")])%list.
Proof.
  split; [reflexivity|].
  apply (@stopProcess_absent_fails_quietly Demo.env Demo.start "bg"). reflexivity.
Defined.

(** C7 at a session that tracks [bg]. *)
Lemma stopProcess_present_run :
  (JsMap.get "bg" (runningProcesses Demo.tracking) = Some Demo.bg_entry /\
   cp_kill Demo.env (pe_process Demo.bg_entry) (world Demo.tracking) =
     (Returned true, world Demo.tracking)) /\
  exists reply s',
    stopProcess "bg" Demo.tracking = (Returned reply, s') /\
    success reply = true /\
    JsMap.has "bg" (runningProcesses s') = false /\
    runningProcesses s' = JsMap.delete "bg" (runningProcesses Demo.tracking) /\
    trace s' = (trace Demo.tracking ++
                  [EvKill (pe_process Demo.bg_entry);
                   EvConsole ("Stopped process: " ++ "bg")])%list.
Proof.
  split; [split; reflexivity|].
  apply (@stopProcess_present_succeeds Demo.env Demo.tracking "bg" Demo.bg_entry true
           (world Demo.tracking)); reflexivity.
Defined.

(** When [kill()] throws the entry stays and the result is a failure. *)
Lemma stopProcess_unkillable_run :
  exists s',
    stopProcess "bg" Demo.unkillable = (Returned (ReplyError "kill EPERM"), s') /\
    JsMap.has "bg" (runningProcesses s') = true.
Proof. eexists. split; reflexivity. Qed.

(** C6 at a fresh session. *)
Lemma watch_is_idempotent_run :
  (fo_action (Demo.file_op "watch" "src" EmptyString) = "watch" /\
   JsMap.wf (fileWatchers Demo.start)) /\
  let operation := Demo.file_op "watch" "src" EmptyString in
  let s1 := snd (performFileOperation operation Demo.start) in
  JsMap.count (full_path Demo.start (fo_path operation)) (fileWatchers s1) = 1 /\
  performFileOperation operation s1 =
    (Returned (ReplyMessage true ("Watching: " ++ fo_path operation)), s1) /\
  forall n, repeat_operation n operation s1 = s1.
Proof.
  split; [split; [reflexivity | constructor]|].
  apply (@watch_is_idempotent Demo.env Demo.start (Demo.file_op "watch" "src" EmptyString));
    [reflexivity | constructor].
Defined.

(** C9 at a [mysql] query and at a query of an unknown type. *)
Lemma handleDatabaseOperation_run :
  handleDatabaseOperation Demo.mysql_query Demo.start =
    (Returned ReplyNull,
     with_trace (trace Demo.start ++ [EvConsole ("mysql" ++ " operations not yet implemented")])
       Demo.start) /\
  handleDatabaseOperation Demo.oracle_query Demo.start =
    (Thrown ("Unsupported database type: " ++ show (db_dbType Demo.oracle_query)),
     with_trace
       (trace Demo.start ++
          [EvConsole ("Database error: " ++
                      "Unsupported database type: " ++ show (db_dbType Demo.oracle_query))])
       Demo.start).
Proof.
  split.
  - apply (proj1 (@handleDatabaseOperation_stub_or_unsupported Demo.env Demo.start
                    Demo.mysql_query) "mysql"); [reflexivity | simpl; auto].
  - apply (proj2 (@handleDatabaseOperation_stub_or_unsupported Demo.env Demo.start
                    Demo.oracle_query)).
    intros t E. inversion E; subst. simpl.
    intros [H|[H|[H|[H|[]]]]]; discriminate.
Defined.

(** C1 at a session where the command succeeds. *)
Lemma handlePackageOperation_restores_cwd_run :
  (truthy (pk_directory (Demo.npm_install (Some "web"))) = Some "web" /\
   cwd Demo.start = currentDirectory Demo.start /\
   can_chdir Demo.env (currentDirectory Demo.start) (world Demo.start) = true) /\
  cwd (snd (handlePackageOperation (Demo.npm_install (Some "web")) Demo.start))
    = cwd Demo.start /\
  currentDirectory (snd (handlePackageOperation (Demo.npm_install (Some "web")) Demo.start))
    = currentDirectory Demo.start.
Proof.
  split; [repeat split; reflexivity|].
  apply (@handlePackageOperation_restores_cwd Demo.env Demo.start
           (Demo.npm_install (Some "web")) "web");
    intros; reflexivity.
Defined.

(** The same where the command fails: the executor throws from [web] and
    the working directory is back in [/home/u]. *)
Lemma handlePackageOperation_failure_run :
  exists s',
    handlePackageOperation (Demo.npm_install (Some "web")) Demo.offline =
      (Thrown "Command failed: npm install express ", s') /\
    cwd s' = "/home/u" /\
    external (trace s') =
      [EvChdir "/home/u/web"; EvExec "npm install express " "/home/u"; EvChdir "/home/u"].
Proof. eexists. repeat split; reflexivity. Qed.

(** C5 at a plan whose second action reads a file that does not exist. *)
Lemma dispatcher_aborts_on_failure_run :
  let plan := Demo.write_read_write in
  let before := [FileOperation (Demo.file_op "write" "a.txt" "hi")] in
  let failing := FileOperation (Demo.file_op "read" "missing.txt" EmptyString) in
  let after := [FileOperation (Demo.file_op "write" "b.txt" "never")] in
  let error := "ENOENT: no such file or directory, open /home/u/missing.txt" in
  let s1 := snd (run_actions before (snd (record_command "do it" plan Demo.start))) in
  let s2 := snd (dispatch failing s1) in
  (plan_actions plan = (before ++ failing :: after)%list /\
   run_actions before (snd (record_command "do it" plan Demo.start)) = (Returned tt, s1) /\
   dispatch failing s1 = (Thrown error, s2)) /\
  executeAICommand "do it" (Returned plan) Demo.start =
    (Returned false, with_trace (trace s2 ++ [EvConsole ("Error: " ++ error)]) s2) /\
  exists t, trace s2 = (trace s1 ++ t)%list.
Proof.
  intros plan before failing after error s1 s2.
  split; [repeat split; reflexivity|].
  apply (@dispatcher_aborts_on_failure Demo.env "do it" plan before failing after
           Demo.start s1 s2 error); reflexivity.
Defined.

(** In that run the file written by the first action is on disk with its
    content, and the third action never wrote its file. *)
Lemma dispatcher_keeps_first_file :
  exists s',
    executeAICommand "do it" (Returned Demo.write_read_write) Demo.start
      = (Returned false, s') /\
    JsMap.get "/home/u/a.txt" (Demo.files (world s')) = Some "hi" /\
    JsMap.has "/home/u/b.txt" (Demo.files (world s')) = false /\
    external (trace s') =
      [EvFsWrite (FsWriteFile "/home/u/a.txt" "hi"); EvReadFile "/home/u/missing.txt"].
Proof. eexists. repeat split; reflexivity. Qed.

(** C2 at a session with one process, one watcher and one connection, in
    the environment where nothing throws. *)
Lemma exit_sequence_drains_run :
  JsMap.wf (runningProcesses Demo.busy_calm) /\
  (forall h w, returned (fst (cp_kill Demo.calm h w)) = true) /\
  (forall h w, returned (fst (watcher_close Demo.calm h w)) = true) /\
  (forall h w, returned (fst (connection_close Demo.calm h w)) = true) /\
  runningProcesses (snd (exit_sequence Demo.busy_calm)) = [] /\
  fileWatchers (snd (exit_sequence Demo.busy_calm)) = fileWatchers Demo.busy_calm /\
  databases (snd (exit_sequence Demo.busy_calm)) = databases Demo.busy_calm /\
  fst (exit_sequence Demo.busy_calm) = Returned tt /\
  external (added Demo.busy_calm (snd (exit_sequence Demo.busy_calm)))
    = shutdown_calls Demo.busy_calm.
Proof.
  assert (Hwf : JsMap.wf (runningProcesses Demo.busy_calm)).
  { unfold JsMap.wf. vm_compute. repeat constructor. intros []. }
  assert (Hkill : forall h w, returned (fst (cp_kill Demo.calm h w)) = true)
    by (intros; reflexivity).
  assert (Hwatch : forall h w, returned (fst (watcher_close Demo.calm h w)) = true)
    by (intros; reflexivity).
  assert (Hconn : forall h w, returned (fst (connection_close Demo.calm h w)) = true)
    by (intros; reflexivity).
  destruct (@exit_sequence_drains Demo.calm Demo.busy_calm Hwf)
    as [_ [_ [_ [_ [Hempty [Hw [Hd Hall]]]]]]].
  split; [exact Hwf|]. split; [exact Hkill|]. split; [exact Hwatch|].
  split; [exact Hconn|]. split; [exact (Hempty Hkill)|].
  split; [exact Hw|]. split; [exact Hd|]. exact (Hall Hwatch Hconn).
Defined.

(** C2, as the specification words it, fails: with one process, one watcher
    and one connection registered and every stop and close succeeding, the
    exit sequence returns and the watcher and the connection are still in
    their registries. *)
Lemma exit_sequence_keeps_watchers_and_connections :
  fst (exit_sequence Demo.busy) = Returned tt /\
  runningProcesses (snd (exit_sequence Demo.busy)) = [] /\
  fileWatchers (snd (exit_sequence Demo.busy)) = [("/home/u/src", 2)] /\
  databases (snd (exit_sequence Demo.busy)) = [("mongodb-local", 3)].
Proof. vm_compute. repeat split; reflexivity. Qed.

(** A [close()] that throws ends the exit sequence: the error leaves
    [exit_sequence] and the connection is never closed.  The clean-up of the
    fatal-error handler, given the same session, closes it. *)
Lemma exit_sequence_close_failure_run :
  fst (exit_sequence Demo.busy_stuck) = Thrown "watcher is stuck" /\
  ~ In (EvConnectionClose 3) (trace (snd (exit_sequence Demo.busy_stuck))) /\
  fst (fatal_cleanup Demo.busy_stuck) = Returned tt /\
  In (EvConnectionClose 3) (trace (snd (fatal_cleanup Demo.busy_stuck))).
Proof.
  split; [reflexivity|]. split; [|split; [reflexivity|]].
  - vm_compute. intuition discriminate.
  - vm_compute. intuition.
Qed.

(** C3 at three starts of [bg] with an exit in between, and at a start of
    [bg] in a session that tracks it. *)
Lemma startProcess_one_process_per_name_run :
  let calls :=
    [CallStart "sleep 1" (Demo.named "bg"); CallStart "sleep 2" (Demo.named "bg");
     ChildExit "bg" "0"; CallStart "sleep 3" (Demo.named "bg")] in
  let s := Demo.tracking in
  let options := Demo.named "bg" in
  let key := process_key "sleep 2" options in
  let w' := snd (Demo.fresh (world s)) in
  (JsMap.wf (runningProcesses Demo.start) /\
   JsMap.get key (runningProcesses s) = Some Demo.bg_entry /\
   cp_kill Demo.env (pe_process Demo.bg_entry) (world s) = (Returned true, world s) /\
   po_waitForExit options = false /\
   truthy (po_logFile options) = None /\
   first_field "sleep 2" <> EmptyString /\
   cp_spawn Demo.env (first_field "sleep 2") (tl (split_on " "%char "sleep 2"))
     (spawn_dir options s) StdioInherit (world s) = (Returned 2, w') /\
   first_field " sleep 2" = EmptyString) /\
  JsMap.count "bg" (runningProcesses (run_calls calls Demo.start)) <= 1 /\
  (let s1 := stopped key (pe_process Demo.bg_entry) (world s) s in
   JsMap.has key (runningProcesses s1) = false /\
   trace s1 = (trace s ++ [EvKill (pe_process Demo.bg_entry);
                           EvConsole ("Stopped process: " ++ key)])%list /\
   startProcess "sleep 2" options s = startProcess "sleep 2" options s1) /\
  (exists s',
     startProcess "sleep 2" options s = (Returned (ReplyProcessName key), s') /\
     trace s' =
       (trace s ++
          [EvKill (pe_process Demo.bg_entry);
           EvConsole ("Stopped process: " ++ key);
           EvSpawn (first_field "sleep 2") (tl (split_on " "%char "sleep 2"))
             (spawn_dir options s) StdioInherit 2;
           EvConsole ("Started process: " ++ key)])%list /\
     JsMap.get key (runningProcesses s') =
       Some {| pe_process := 2; pe_command := "sleep 2";
               pe_startTime := now Demo.env w'; pe_logFile := po_logFile options |}) /\
  (returned (fst (startProcess " sleep 2" options s)) = false /\
   JsMap.has key (runningProcesses (snd (startProcess " sleep 2" options s))) = false /\
   incl (runningProcesses (snd (startProcess " sleep 2" options s))) (runningProcesses s) /\
   In (EvKill (pe_process Demo.bg_entry))
     (added s (snd (startProcess " sleep 2" options s))) /\
   filter is_spawn (added s (snd (startProcess " sleep 2" options s))) = []).
Proof.
  intros calls s options key w'.
  destruct (@startProcess_one_process_per_name Demo.env) as [H1 [H2 [H3 H4]]].
  split; [repeat split; try reflexivity; try constructor; discriminate|].
  split; [apply H1; constructor|].
  split; [|split].
  - apply (H2 s "sleep 2" options Demo.bg_entry true (world s)); reflexivity.
  - apply (H3 s "sleep 2" options Demo.bg_entry true (world s) 2 w');
      try reflexivity; discriminate.
  - apply (H4 s " sleep 2" options Demo.bg_entry true (world s)); reflexivity.
Defined.

(** C10 at [node a.js] followed by [node b.js], and at a command that
    begins with a space. *)
Lemma default_key_collision_run :
  let w1 := snd (Demo.fresh (world Demo.start)) in
  let w3 := snd (Demo.fresh w1) in
  (truthy (po_name no_options) = None /\
   first_field "node a.js" = first_field "node b.js" /\
   first_field "node a.js" <> EmptyString /\
   po_waitForExit no_options = false /\
   truthy (po_logFile no_options) = None /\
   JsMap.has (first_field "node a.js") (runningProcesses Demo.start) = false /\
   cp_spawn Demo.env (first_field "node a.js") (tl (split_on " "%char "node a.js"))
     (spawn_dir no_options Demo.start) StdioInherit (world Demo.start) = (Returned 1, w1) /\
   cp_kill Demo.env 1 w1 = (Returned true, w1) /\
   cp_spawn Demo.env (first_field "node b.js") (tl (split_on " "%char "node b.js"))
     (spawn_dir no_options Demo.start) StdioInherit w1 = (Returned 2, w3)) /\
  (process_key "node a.js" no_options = first_field "node a.js" /\
   exists rest,
     "node a.js" = first_field "node a.js" ++ rest /\
     (rest = EmptyString \/ exists r, rest = String " " r) /\
     (forall c, In c (list_ascii_of_string (first_field "node a.js")) -> c <> " "%char)) /\
  (exists s1 s2,
     startProcess "node a.js" no_options Demo.start
       = (Returned (ReplyProcessName (first_field "node a.js")), s1) /\
     startProcess "node b.js" no_options s1
       = (Returned (ReplyProcessName (first_field "node a.js")), s2) /\
     trace s2 =
       (trace s1 ++
          [EvKill 1;
           EvConsole ("Stopped process: " ++ first_field "node a.js");
           EvSpawn (first_field "node b.js") (tl (split_on " "%char "node b.js"))
             (spawn_dir no_options Demo.start) StdioInherit 2;
           EvConsole ("Started process: " ++ first_field "node a.js")])%list /\
     JsMap.get (first_field "node a.js") (runningProcesses s2) =
       Some {| pe_process := 2; pe_command := "node b.js";
               pe_startTime := now Demo.env w3; pe_logFile := po_logFile no_options |}) /\
  (process_key " node a.js" no_options = EmptyString /\
   returned (fst (startProcess " node a.js" no_options Demo.start)) = false /\
   incl (runningProcesses (snd (startProcess " node a.js" no_options Demo.start)))
     (runningProcesses Demo.start) /\
   filter is_spawn (added Demo.start (snd (startProcess " node a.js" no_options Demo.start)))
     = []).
Proof.
  intros w1 w3.
  destruct (@default_key_collision Demo.env) as [H1 [H2 H3]].
  split; [repeat split; try reflexivity; discriminate|].
  split; [apply H1; reflexivity|].
  split.
  - apply (H2 Demo.start "node a.js" "node b.js" no_options no_options 1 w1 true w1 2 w3);
      try reflexivity; discriminate.
  - apply (H3 Demo.start "node a.js" no_options); reflexivity.
Defined.

(** The other side of the race: once the ['exit'] observer of the child has
    run, the name is gone and a stop answers with the failure of C8. *)
Lemma stop_after_exit_run :
  fst (stopProcess "bg" (snd (onExit "bg" "0" Demo.tracking)))
    = Returned (ReplyMessage false "No running process named bg").
Proof. reflexivity. Qed.

(** The observer removes by name: when [bg] has been restarted, the late
    exit of the first child unregisters the second one, which was never
    signalled. *)
Lemma stale_exit_run :
  let s := run_calls [CallStart "sleep 2" (Demo.named "bg"); ChildExit "bg" "143"]
             Demo.tracking in
  runningProcesses s = [] /\
  In (EvSpawn "sleep" ["2"] "/home/u" StdioInherit 2) (trace s) /\
  ~ In (EvKill 2) (trace s).
Proof.
  vm_compute. split; [reflexivity|]. split; [intuition|].
  intuition discriminate.
Qed.

(** * Further properties of the executors *)

Section TraceFacts.
Variable env : Env.
Implicit Types (s : State env).

Lemma skipn_length_app A (l t : list A) : skipn (List.length l) (l ++ t) = t.
Proof. induction l as [|a l IH]; simpl; auto. Qed.

Lemma added_app s s' t : trace s' = (trace s ++ t)%list -> added s s' = t.
Proof. intros H. unfold added. rewrite H. apply skipn_length_app. Qed.

Lemma added_nil s s' : trace s' = trace s -> added s s' = [].
Proof. intros H. apply added_app. rewrite H. symmetry. apply app_nil_r. Qed.

Lemma same_session_refl s : same_session s s.
Proof. repeat split. Qed.

Lemma executed_app t1 t2 : executed (t1 ++ t2) = (executed t1 ++ executed t2)%list.
Proof.
  induction t1 as [|e t1 IH]; simpl; auto.
  destruct e; simpl; rewrite ?IH; reflexivity.
Qed.

End TraceFacts.

(** Brings the trace of the final state into the form [trace s ++ events]
    and computes [added]. *)
Ltac settle :=
  simpl; unfold added; simpl;
  rewrite <- ?app_assoc; rewrite ?skipn_length_app, ?skipn_all; simpl.

(** ** Git operations *)

Section GitProperties.
Variable env : Env.
Implicit Types (s : State env) (operation : GitOp).

(** X1.  [handleGitOperation] leaves the session as it is; for each of its
    six actions it runs exactly one shell command, in the session
    directory, whether the command succeeds or fails; for any other action
    it throws the unsupported-operation error without running anything. *)
Theorem handleGitOperation_single_command s operation :
  same_session s (snd (handleGitOperation operation s)) /\
  (In (git_action operation) git_actions ->
   exists command,
     executed (added s (snd (handleGitOperation operation s)))
       = [(command, currentDirectory s)]) /\
  (~ In (git_action operation) git_actions ->
   fst (handleGitOperation operation s)
     = Thrown ("Unsupported Git operation: " ++ git_action operation) /\
   external (added s (snd (handleGitOperation operation s))) = []).
Proof.
  unfold handleGitOperation, execPromise, git_actions. run.
  repeat match goal with
  | |- context [String.eqb (git_action operation) ?a] =>
      destruct (String.eqb_spec (git_action operation) a)
  end;
  repeat match goal with
  | |- context [sh_exec env ?c ?d ?w] => destruct (sh_exec env c d w) as [[?|?] ?]
  end;
  (split; [repeat split|]); split; intros H; settle;
  try (eexists; reflexivity);
  try (exfalso; simpl in H; intuition congruence);
  try (split; reflexivity).
Qed.

(** X2.  Only [push] and [commit] have defaults for a missing field: a
    [push] without branch pushes to [main], while a [checkout] without
    branch and a [clone] without repository pass the text [undefined] to
    git. *)
Theorem handleGitOperation_missing_fields s operation :
  (git_action operation = "push" -> truthy (git_branch operation) = None ->
   executed (added s (snd (handleGitOperation operation s)))
     = [("git push origin main", currentDirectory s)]) /\
  (git_action operation = "checkout" -> git_branch operation = None ->
   executed (added s (snd (handleGitOperation operation s)))
     = [("git checkout undefined", currentDirectory s)]) /\
  (git_action operation = "clone" -> git_repository operation = None ->
   executed (added s (snd (handleGitOperation operation s)))
     = [("git clone undefined", currentDirectory s)]) /\
  (git_action operation = "commit" -> truthy (git_message operation) = None ->
   executed (added s (snd (handleGitOperation operation s)))
     = [("git commit -m " ++ dquote ++ "Commit by AI Agent" ++ dquote,
         currentDirectory s)]).
Proof.
  unfold handleGitOperation, execPromise, js_or. run.
  repeat split; intros Ha Hb; rewrite Ha, Hb; simpl;
    match goal with
    | |- context [sh_exec env ?c ?d ?w] => destruct (sh_exec env c d w) as [[?|?] ?]
    end; settle; reflexivity.
Qed.

End GitProperties.

(** ** Package management *)

Section PackageRuns.
Variable env : Env.
Implicit Types (s : State env) (operation : PackageOp).

(** X3.  [handlePackageOperation] runs at most one shell command, and runs
    it in [projectState.currentDirectory] whatever the [directory] of the
    operation is: [execPromise] passes the session directory as [cwd], so
    the [chdir] into [directory] does not move the command. *)
Theorem handlePackageOperation_runs_in_session_directory s operation :
  List.length (executed (added s (snd (handlePackageOperation operation s)))) <= 1 /\
  forall command dir,
    In (command, dir) (executed (added s (snd (handlePackageOperation operation s)))) ->
    dir = currentDirectory s.
Proof.
  unfold handlePackageOperation, resolveProjectPath, execPromise, chdir. run.
  destruct (truthy (pk_directory operation)) as [d|]; simpl.
  - destruct (can_chdir env _ (world s)); simpl.
    + match goal with
      | |- context [package_command operation ?st] =>
          destruct (package_command_pure operation st) as [[command|e] ->]
      end; simpl.
      * destruct (sh_exec env command (currentDirectory s) (world s)) as [[out|e] w];
          simpl; repeat break; settle;
          (split; [lia | intros c dir [E|[]]; congruence]).
      * repeat break; settle; (split; [lia | intros c dir []]).
    + repeat break; settle; (split; [lia | intros c dir []]).
  - destruct (package_command_pure operation s) as [[command|e] ->]; simpl.
    + destruct (sh_exec env command (currentDirectory s) (world s)) as [[out|e] w];
        simpl; repeat break; settle;
        (split; [lia | intros c dir [E|[]]; congruence]).
    + repeat break; settle; (split; [lia | intros c dir []]).
Qed.

Lemma package_command_unknown_manager operation s :
  ~ In (pk_manager operation) ["npm"; "pip"] ->
  package_command operation s =
    (Thrown ("Unsupported package manager: " ++ pk_manager operation), s).
Proof.
  intros H. unfold package_command.
  destruct (String.eqb_spec (pk_manager operation) "npm") as [E|_];
    [exfalso; apply H; simpl; auto|].
  destruct (String.eqb_spec (pk_manager operation) "pip") as [E|_];
    [exfalso; apply H; simpl; auto|].
  reflexivity.
Qed.

(** X4.  With a package manager other than [npm] and [pip] (the prompt
    offers [yarn] and [composer]) [handlePackageOperation] always throws and
    never runs a shell command.  When the [directory] of the operation, if
    it has one, can be entered and the session directory entered again, the
    error is the unsupported-manager error and the working directory is
    back at [projectState.currentDirectory]. *)
Theorem handlePackageOperation_unknown_manager s operation :
  ~ In (pk_manager operation) ["npm"; "pip"] ->
  returned (fst (handlePackageOperation operation s)) = false /\
  executed (added s (snd (handlePackageOperation operation s))) = [] /\
  (can_chdir env (currentDirectory s) (world s) = true ->
   (forall d, truthy (pk_directory operation) = Some d ->
              can_chdir env (full_path s d) (world s) = true) ->
   fst (handlePackageOperation operation s)
     = Thrown ("Unsupported package manager: " ++ pk_manager operation) /\
   cwd (snd (handlePackageOperation operation s)) = currentDirectory s).
Proof.
  intros Hman.
  unfold handlePackageOperation, resolveProjectPath, execPromise, chdir, full_path. run.
  destruct (truthy (pk_directory operation)) as [d|]; simpl.
  - destruct (can_chdir env
                (if path_isAbsolute env d then d else path_join env (currentDirectory s) d)
                (world s)) eqn:Htarget; simpl.
    + rewrite package_command_unknown_manager by exact Hman. simpl.
      destruct (can_chdir env (currentDirectory s) (world s)) eqn:Hback; settle;
        (split; [reflexivity|]); (split; [reflexivity|]); intros H1 H2;
        [split; reflexivity | discriminate].
    + destruct (can_chdir env (currentDirectory s) (world s)) eqn:Hback; settle;
        (split; [reflexivity|]); (split; [reflexivity|]); intros H1 H2;
        specialize (H2 d eq_refl); congruence.
  - rewrite package_command_unknown_manager by exact Hman. simpl.
    destruct (can_chdir env (currentDirectory s) (world s)) eqn:Hback; settle;
      (split; [reflexivity|]); (split; [reflexivity|]); intros H1 H2;
      [split; reflexivity | discriminate].
Qed.

End PackageRuns.

(** ** MongoDB operations *)

Section MongoProperties.
Variable env : Env.
Implicit Types (s : State env) (operation : DatabaseOp).

(** X5.  An operation on a connection string that is already registered
    does not connect again and leaves the connection registry as it is,
    whatever its action and outcome. *)
Theorem handleMongoDBOperation_reuses_connection s operation :
  JsMap.has (db_connectionString operation) (databases s) = true ->
  databases (snd (handleMongoDBOperation operation s)) = databases s /\
  forall c, ~ In (EvConnect c) (added s (snd (handleMongoDBOperation operation s))).
Proof.
  intros Hhas. unfold handleMongoDBOperation. run. rewrite Hhas. simpl.
  repeat break; settle; (split; [reflexivity|]);
    intros c H; simpl in H; intuition discriminate.
Qed.

(** X6.  On a connection string that is not registered the first thing
    [handleMongoDBOperation] does is connect.  When the connection is
    made it is registered before the action is looked at, so it stays
    registered when the driver call fails and when the action is not
    supported; when connecting fails nothing is registered and no driver
    call is made. *)
Theorem handleMongoDBOperation_connects_first s operation :
  JsMap.has (db_connectionString operation) (databases s) = false ->
  (forall connection w,
     mongoose_connect env (db_connectionString operation) (world s)
       = (Returned connection, w) ->
     databases (snd (handleMongoDBOperation operation s))
       = JsMap.set (db_connectionString operation) connection (databases s)) /\
  (forall error w,
     mongoose_connect env (db_connectionString operation) (world s)
       = (Thrown error, w) ->
     fst (handleMongoDBOperation operation s) = Thrown error /\
     databases (snd (handleMongoDBOperation operation s)) = databases s /\
     added s (snd (handleMongoDBOperation operation s))
       = [EvConnect (db_connectionString operation)]).
Proof.
  intros Hhas. unfold handleMongoDBOperation. run. rewrite Hhas. simpl.
  split.
  - intros connection w Hc. rewrite Hc. simpl. repeat break; reflexivity.
  - intros error w Hc. rewrite Hc. settle. auto.
Qed.

End MongoProperties.

(** ** File operations *)

Section FileProperties.
Variable env : Env.
Implicit Types (s : State env) (operation : FileOp).

(** Case analysis on the [switch] of [performFileOperation] and on the
    answers of the file system. *)
Ltac file_cases operation :=
  repeat match goal with
  | |- context [String.eqb (fo_action operation) ?a] =>
      destruct (String.eqb_spec (fo_action operation) a)
  end;
  repeat match goal with
  | |- context [fs_readFile env ?p ?d ?w] => destruct (fs_readFile env p d w) as [[?|?] ?]
  | |- context [fs_readdir env ?p ?d ?w] => destruct (fs_readdir env p d w) as [[?|?] ?]
  | |- context [fs_write env ?c ?d ?w] => destruct (fs_write env c d w) as [[?|?] ?]
  | |- context [if fo_recursive operation then _ else _] =>
      destruct (fo_recursive operation)
  end.

(** X7.  For each of its eight file-system actions [performFileOperation]
    makes exactly one call to the file system, successful or not, and the
    paths it hands over are the paths of the plan resolved against
    [projectState.currentDirectory] ([rename] resolves both).  It touches
    no registry, and a failure is logged once before it is rethrown. *)
Theorem performFileOperation_one_call s operation :
  In (fo_action operation) fs_actions ->
  same_session s (snd (performFileOperation operation s)) /\
  (exists call,
     external (added s (snd (performFileOperation operation s))) = [call] /\
     fs_paths call = map (full_path s) (plan_paths operation)) /\
  (forall error,
     fst (performFileOperation operation s) = Thrown error ->
     exists events,
       added s (snd (performFileOperation operation s))
         = (events ++ [EvConsole ("File operation error: " ++ error)])%list).
Proof.
  intros Hin.
  unfold performFileOperation, resolveProjectPath, fs_do, plan_paths, full_path. run.
  file_cases operation;
    try (exfalso; unfold fs_actions in Hin; simpl in Hin; intuition congruence);
    (split; [repeat split|split]);
    try (eexists; split; settle; reflexivity);
    intros error H; settle; simpl in H; try discriminate;
    inversion H; subst;
    match goal with
    | |- exists events, [?a; ?b] = _ => exists [a]; reflexivity
    end.
Qed.

(** X8.  An action that is neither [watch] nor one of the eight
    file-system actions makes [performFileOperation] throw the
    unsupported-operation error without any call to the file system. *)
Theorem performFileOperation_unknown_action s operation :
  ~ In (fo_action operation) ("watch" :: fs_actions) ->
  fst (performFileOperation operation s)
    = Thrown ("Unsupported file operation: " ++ fo_action operation) /\
  external (added s (snd (performFileOperation operation s))) = [] /\
  same_session s (snd (performFileOperation operation s)).
Proof.
  intros Hout.
  unfold performFileOperation, resolveProjectPath, fs_do. run.
  repeat match goal with
  | |- context [String.eqb (fo_action operation) ?a] =>
      destruct (String.eqb_spec (fo_action operation) a);
        [exfalso; apply Hout; unfold fs_actions; simpl; intuition|]
  end.
  settle. repeat split.
Qed.

End FileProperties.

(** ** Starting, listing and stopping processes *)

Section ProcessLifecycle.
Variable env : Env.
Implicit Types (s : State env) (command name : string) (options : ProcessOptions).

Lemma listProcesses_snapshot s :
  exists rows,
    listProcesses s = (Returned rows, s) /\
    map row_name rows = JsMap.keys (runningProcesses s) /\
    forall name details,
      In (name, details) (runningProcesses s) ->
      exists uptime,
        In (name, pe_command details, uptime, js_or (pe_logFile details) "N/A") rows.
Proof.
  unfold listProcesses. run. eexists. split; [reflexivity|]. split.
  - unfold JsMap.keys. rewrite map_map. apply map_ext. intros [n d]. reflexivity.
  - intros name details Hin. eexists.
    apply in_map_iff. exists (name, details). split; [reflexivity | exact Hin].
Qed.

Lemma get_in V k (v : V) m : JsMap.get k m = Some v -> In (k, v) m.
Proof.
  induction m as [|[k' v'] m IH]; simpl; [discriminate|].
  destruct (String.eqb_spec k k') as [->|N]; intros H.
  - inversion H; subst. left. reflexivity.
  - right. apply IH, H.
Qed.

(** X9.  A process started in the background under a free name, by a
    command whose first field is not empty and for which [spawn] returns a
    child, is listed, with its command, the moment the start returns, and
    the listing changes nothing; once it is stopped no row carries its
    name. *)
Theorem started_process_is_listed_until_stopped s command options child w :
  JsMap.has (process_key command options) (runningProcesses s) = false ->
  po_waitForExit options = false ->
  truthy (po_logFile options) = None ->
  first_field command <> EmptyString ->
  cp_spawn env (first_field command) (tl (split_on " "%char command))
    (spawn_dir options s) StdioInherit (world s) = (Returned child, w) ->
  let s1 := snd (startProcess command options s) in
  (exists rows uptime,
     listProcesses s1 = (Returned rows, s1) /\
     In (process_key command options, command, uptime, "N/A") rows /\
     map row_name rows
       = (JsMap.keys (runningProcesses s) ++ [process_key command options])%list) /\
  (forall delivered w2,
     cp_kill env child w = (Returned delivered, w2) ->
     let s2 := snd (stopProcess (process_key command options) s1) in
     exists rows,
       listProcesses s2 = (Returned rows, s2) /\
       ~ In (process_key command options) (map row_name rows)).
Proof.
  intros Hfree Hwait Hlog Hfile Hspawn s1.
  assert (E1 : s1 = started command options child w s).
  { unfold s1. rewrite (startProcess_background _ _ _ Hfree Hwait Hlog Hfile Hspawn).
    reflexivity. }
  assert (Hget : JsMap.get (process_key command options) (runningProcesses s1)
                 = Some {| pe_process := child; pe_command := command;
                           pe_startTime := now env w;
                           pe_logFile := po_logFile options |}).
  { rewrite E1. simpl. apply JsMapFacts.get_set_same. }
  split.
  - destruct (listProcesses_snapshot s1) as [rows [Hl [Hn Hrow]]].
    destruct (Hrow _ _ (get_in _ _ Hget)) as [uptime Hin].
    exists rows, uptime. split; [exact Hl|]. split.
    + simpl in Hin. unfold js_or in Hin.
      destruct (po_logFile options) as [f|]; simpl in *.
      * destruct (String.eqb f EmptyString); [exact Hin | discriminate].
      * exact Hin.
    + rewrite Hn, E1. simpl. apply JsMapFacts.keys_set_absent, Hfree.
  - intros delivered w2 Hkill s2.
    destruct (listProcesses_snapshot s2) as [rows [Hl [Hn _]]].
    exists rows. split; [exact Hl|]. rewrite Hn. unfold s2.
    assert (Hk : cp_kill env child (world s1) = (Returned delivered, w2))
      by (rewrite E1; exact Hkill).
    rewrite (stopProcess_kill_returns _ _ Hget Hk). simpl.
    intros Hin. apply JsMapFacts.has_in_keys in Hin.
    rewrite JsMapFacts.has_delete_same in Hin. discriminate.
Qed.

(** X10.  A start with [waitForExit] runs the command with [execPromise];
    it spawns nothing and registers nothing.  It still stops a registered
    process of the same name first: once [kill()] has returned the name is
    free, although no process has taken its place. *)
Theorem startProcess_blocking s command options :
  po_waitForExit options = true ->
  executed (added s (snd (startProcess command options s)))
    = [(command, currentDirectory s)] /\
  filter is_spawn (added s (snd (startProcess command options s))) = [] /\
  incl (runningProcesses (snd (startProcess command options s))) (runningProcesses s) /\
  (forall details delivered w,
     JsMap.get (process_key command options) (runningProcesses s) = Some details ->
     cp_kill env (pe_process details) (world s) = (Returned delivered, w) ->
     JsMap.has (process_key command options)
       (runningProcesses (snd (startProcess command options s))) = false /\
     In (EvKill (pe_process details)) (added s (snd (startProcess command options s)))).
Proof.
  intros Hwait. unfold startProcess. run.
  destruct (JsMap.get (process_key command options) (runningProcesses s))
    as [details|] eqn:Hget.
  - assert (Hhas : JsMap.has (process_key command options) (runningProcesses s) = true)
      by (apply JsMapFacts.has_get; eauto).
    rewrite Hhas. simpl.
    destruct (cp_kill env (pe_process details) (world s)) as [[b|e] w] eqn:Hkill.
    + pose proof (stopProcess_kill_returns _ _ Hget Hkill) as Hstop. run.
      rewrite Hstop. simpl. rewrite Hwait. unfold execPromise. run.
      destruct (sh_exec env command (currentDirectory s) w) as [[out|e] w'];
        settle; (split; [reflexivity|]); (split; [reflexivity|]);
        (split; [apply JsMapFacts.delete_incl|]);
        intros d' b' w0 Hd Hk; split;
        try apply JsMapFacts.has_delete_same;
        inversion Hd; subst; simpl; auto.
    + pose proof (stopProcess_kill_throws _ _ Hget Hkill) as Hstop. run.
      rewrite Hstop. simpl. rewrite Hwait. unfold execPromise. run.
      destruct (sh_exec env command (currentDirectory s) w) as [[out|e'] w'];
        settle; (split; [reflexivity|]); (split; [reflexivity|]);
        (split; [apply incl_refl|]);
        intros d' b' w0 Hd Hk; congruence.
  - assert (Hhas : JsMap.has (process_key command options) (runningProcesses s) = false)
      by (apply JsMapFacts.has_false_get; exact Hget).
    rewrite Hhas. simpl. rewrite Hwait. unfold execPromise. run.
    destruct (sh_exec env command (currentDirectory s) (world s)) as [[out|e] w'];
      settle; (split; [reflexivity|]); (split; [reflexivity|]);
      (split; [apply incl_refl|]);
      intros d' b' w0 Hd Hk; congruence.
Qed.

(** X11.  When [fs.openSync] throws ([fs] is bound to the promises API,
    which has no [openSync]), a background start with a [logFile] throws
    before it spawns anything: nothing is registered, and if a process of
    that name was registered and its [kill()] returned, the old process has
    been stopped and the name is left free. *)
Theorem startProcess_log_file_unopened s command options f :
  po_waitForExit options = false ->
  truthy (po_logFile options) = Some f ->
  (forall w, returned (fst (fs_openSync env f w)) = false) ->
  returned (fst (startProcess command options s)) = false /\
  filter is_spawn (added s (snd (startProcess command options s))) = [] /\
  incl (runningProcesses (snd (startProcess command options s))) (runningProcesses s) /\
  (forall details delivered w,
     JsMap.get (process_key command options) (runningProcesses s) = Some details ->
     cp_kill env (pe_process details) (world s) = (Returned delivered, w) ->
     JsMap.has (process_key command options)
       (runningProcesses (snd (startProcess command options s))) = false /\
     In (EvKill (pe_process details)) (added s (snd (startProcess command options s)))).
Proof.
  intros Hwait Hlog Hopen. unfold startProcess. run.
  destruct (JsMap.get (process_key command options) (runningProcesses s))
    as [details|] eqn:Hget.
  - assert (Hhas : JsMap.has (process_key command options) (runningProcesses s) = true)
      by (apply JsMapFacts.has_get; eauto).
    rewrite Hhas. simpl.
    destruct (cp_kill env (pe_process details) (world s)) as [[b|e] w] eqn:Hkill.
    + pose proof (stopProcess_kill_returns _ _ Hget Hkill) as Hstop. run.
      rewrite Hstop. simpl. rewrite Hwait, Hlog. simpl.
      specialize (Hopen w).
      destruct (fs_openSync env f w) as [[fd|e] w']; [discriminate|].
      settle. split; [reflexivity|]. split; [reflexivity|].
      split; [apply JsMapFacts.delete_incl|].
      intros d' b' w0 Hd Hk. split; [apply JsMapFacts.has_delete_same|].
      inversion Hd; subst. simpl. auto.
    + pose proof (stopProcess_kill_throws _ _ Hget Hkill) as Hstop. run.
      rewrite Hstop. simpl. rewrite Hwait, Hlog. simpl.
      specialize (Hopen w).
      destruct (fs_openSync env f w) as [[fd|e'] w']; [discriminate|].
      settle. split; [reflexivity|]. split; [reflexivity|].
      split; [apply incl_refl|].
      intros d' b' w0 Hd Hk. congruence.
  - assert (Hhas : JsMap.has (process_key command options) (runningProcesses s) = false)
      by (apply JsMapFacts.has_false_get; exact Hget).
    rewrite Hhas. simpl. rewrite Hwait, Hlog. simpl.
    specialize (Hopen (world s)).
    destruct (fs_openSync env f (world s)) as [[fd|e] w']; [discriminate|].
    settle. split; [reflexivity|]. split; [reflexivity|].
    split; [apply incl_refl|].
    intros d' b' w0 Hd Hk. congruence.
Qed.

End ProcessLifecycle.

(** ** The command history *)

Section SessionHistory.
Variable env : Env.
Implicit Types (s : State env) (plan : Plan).

(** No executor writes to the history. *)
Lemma run_actions_keeps_history actions h :
  preserves (fun s : State env => history s = h) (run_actions actions).
Proof.
  apply preserves_for_each. intros action.
  apply frame_dispatch; intros; simpl; assumption.
Qed.

Lemma recentCommands_firstn s : recentCommands s = firstn 5 (rev (history s)).
Proof. unfold recentCommands. symmetry. apply firstn_rev. Qed.

(** The history after a command: one more entry when the answer parsed,
    whatever the actions did. *)
Lemma executeAICommand_history userCommand parsed s :
  history (snd (executeAICommand userCommand parsed s))
    = match parsed with
      | Returned plan =>
          (history s ++
             [{| he_command := userCommand; he_timestamp := now env (world s);
                 he_type := plan_type plan;
                 he_description := plan_description plan |}])%list
      | Thrown _ => history s
      end.
Proof.
  destruct parsed as [plan|error]; [|reflexivity].
  unfold executeAICommand, try_catch, bind at 1, ret at 1. unfold bind at 1.
  destruct (record_command userCommand plan s) as [r s0] eqn:Hrec.
  assert (H0 : history s0
               = (history s ++
                    [{| he_command := userCommand; he_timestamp := now env (world s);
                        he_type := plan_type plan;
                        he_description := plan_description plan |}])%list).
  { unfold record_command in Hrec. run. inversion Hrec; subst. reflexivity. }
  pose proof (record_command_returns userCommand plan s) as Hr.
  rewrite Hrec in Hr. simpl in Hr. subst r.
  unfold bind at 1.
  pose proof (@run_actions_keeps_history (plan_actions plan) _ s0 H0) as Hkeep.
  destruct (run_actions (plan_actions plan) s0) as [[[]|e] s1]; simpl in Hkeep.
  - destruct (plan_needsMonitoring plan); run; exact Hkeep.
  - run. exact Hkeep.
Qed.

(** X12.  [executeAICommand] never throws.  When the answer parsed, it
    appends exactly one entry to the history, stamped with the time before
    the first action, whether the actions then succeed or fail; the [info]
    command shows that command first, followed by the four before it; and
    the result says whether every action ran through.  When the answer did
    not parse, the result is [false] and the history is untouched. *)
Theorem executeAICommand_records_command userCommand parsed s :
  returned (fst (executeAICommand userCommand parsed s)) = true /\
  match parsed with
  | Returned plan =>
      let entry := {| he_command := userCommand; he_timestamp := now env (world s);
                      he_type := plan_type plan;
                      he_description := plan_description plan |} in
      history (snd (executeAICommand userCommand parsed s))
        = (history s ++ [entry])%list /\
      recentCommands (snd (executeAICommand userCommand parsed s))
        = entry :: firstn 4 (rev (history s)) /\
      fst (executeAICommand userCommand parsed s)
        = Returned (returned (fst (run_actions (plan_actions plan)
                                     (snd (record_command userCommand plan s)))))
  | Thrown error =>
      fst (executeAICommand userCommand parsed s) = Returned false /\
      history (snd (executeAICommand userCommand parsed s)) = history s
  end.
Proof.
  pose proof (executeAICommand_history userCommand parsed s) as Hh.
  destruct parsed as [plan|error]; [|repeat split].
  split; [|split; [exact Hh | split]].
  - unfold executeAICommand, try_catch, bind at 1, ret at 1. unfold bind at 1.
    destruct (record_command userCommand plan s) as [r s0] eqn:Hrec.
    pose proof (record_command_returns userCommand plan s) as Hr.
    rewrite Hrec in Hr. simpl in Hr. subst r.
    unfold bind at 1.
    destruct (run_actions (plan_actions plan) s0) as [[[]|e] s1].
    + destruct (plan_needsMonitoring plan); reflexivity.
    + reflexivity.
  - rewrite recentCommands_firstn, Hh, rev_app_distr. reflexivity.
  - unfold executeAICommand, try_catch, bind at 1, ret at 1. unfold bind at 1.
    destruct (record_command userCommand plan s) as [r s0] eqn:Hrec.
    pose proof (record_command_returns userCommand plan s) as Hr.
    rewrite Hrec in Hr. simpl in Hr. subst r.
    unfold bind at 1. simpl.
    destruct (run_actions (plan_actions plan) s0) as [[[]|e] s1].
    + destruct (plan_needsMonitoring plan); reflexivity.
    + reflexivity.
Qed.

Lemma run_actions_skipped actions : forall s,
  forallb skipped actions = true ->
  exists t,
    run_actions actions s = (Returned tt, with_trace (trace s ++ t) s) /\
    external t = [].
Proof.
  induction actions as [|action actions IH]; intros s Hall.
  - exists []. simpl. unfold ret. rewrite app_nil_r. destruct s; split; reflexivity.
  - simpl in Hall. apply andb_prop in Hall. destruct Hall as [Hskip Hrest].
    destruct action; try discriminate; unfold run_actions; simpl; unfold bind.
    + simpl. destruct (IH s Hrest) as [t [Hrun Hext]].
      unfold run_actions in Hrun. rewrite Hrun.
      exists t. split; [reflexivity | exact Hext].
    + unfold console, emit, modify.
      match goal with
      | |- context [for_each _ _ ?st] => destruct (IH st Hrest) as [t [Hrun Hext]]
      end.
      unfold run_actions in Hrun. rewrite Hrun. simpl.
      exists (EvConsole ("Unsupported action type: " ++ type) :: t).
      rewrite <- app_assoc. split; [reflexivity | exact Hext].
Qed.

(** X13.  A plan made only of actions the dispatcher has no case for (an
    unknown [type], or a [process-operation] whose [action] is none of
    [start], [stop] and [list]) is reported as a success: [executeAICommand]
    returns [true] although nothing was done outside the console and the
    history. *)
Theorem executeAICommand_skips_unknown_actions userCommand plan s :
  forallb skipped (plan_actions plan) = true ->
  fst (executeAICommand userCommand (Returned plan) s) = Returned true /\
  external (added s (snd (executeAICommand userCommand (Returned plan) s))) = [] /\
  cwd (snd (executeAICommand userCommand (Returned plan) s)) = cwd s /\
  currentDirectory (snd (executeAICommand userCommand (Returned plan) s))
    = currentDirectory s /\
  runningProcesses (snd (executeAICommand userCommand (Returned plan) s))
    = runningProcesses s /\
  fileWatchers (snd (executeAICommand userCommand (Returned plan) s)) = fileWatchers s /\
  databases (snd (executeAICommand userCommand (Returned plan) s)) = databases s.
Proof.
  intros Hall.
  unfold executeAICommand, try_catch, bind at 1, ret at 1. unfold bind at 1.
  unfold record_command. run.
  match goal with
  | |- context [run_actions _ ?st] =>
      destruct (run_actions_skipped (plan_actions plan) st Hall) as [t [Hrun Hext]]
  end.
  rewrite Hrun.
  destruct (plan_needsMonitoring plan); settle;
    rewrite ?external_app, Hext; repeat split.
Qed.

End SessionHistory.

(** ** Project setup *)

Section SetupProperties.
Variable env : Env.
Implicit Types (s : State env) (setup : Setup).

(** Discharges the side conditions of the preservation lemmas for a
    property of [cwd] and [currentDirectory] alone. *)
Ltac untouched := intros; simpl; assumption.

Lemma install_stays p operation :
  truthy (pk_directory operation) = None ->
  preserves (fun s : State env => cwd s = p /\ currentDirectory s = p)
    (handlePackageOperation operation).
Proof.
  intros Hdir. unfold handlePackageOperation. rewrite Hdir.
  apply preserves_try_catch.
  - apply preserves_bind; [apply preserves_ret | intros _].
    apply preserves_bind; [apply preserves_package_command | intros command].
    apply preserves_bind; [apply preserves_execPromise; untouched | intros result].
    apply preserves_bind; [apply preserves_ret | intros _].
    apply preserves_ret.
  - intros error s [H1 H2]. unfold bind, gets, chdir. simpl.
    rewrite H2. destruct (can_chdir env p (world s)); simpl; auto.
Qed.

Lemma setup_step_stays p step :
  preserves (fun s : State env => cwd s = p /\ currentDirectory s = p) (setup_step step).
Proof.
  destruct step; unfold setup_step.
  - apply preserves_bind; [apply preserves_fs_do; untouched | intros _].
    apply preserves_console; untouched.
  - apply preserves_bind; [apply preserves_fs_do; untouched | intros _].
    apply preserves_console; untouched.
  - apply preserves_bind; [apply preserves_execPromise; untouched | intros _].
    apply preserves_ret.
  - apply preserves_bind; [apply install_stays; reflexivity | intros _].
    apply preserves_ret.
  - apply preserves_bind; [apply preserves_startProcess; untouched | intros _].
    apply preserves_ret.
  - apply preserves_bind; [apply preserves_handleGitOperation; untouched | intros _].
    apply preserves_ret.
  - apply preserves_bind; [apply preserves_handleDatabaseOperation; untouched | intros _].
    apply preserves_ret.
  - apply preserves_console; untouched.
Qed.

(** X14.  [handleProjectSetup] moves the session into the project
    directory and never moves it back: once the directory is made and
    entered, both the working directory and [projectState.currentDirectory]
    are the project path when the call ends, whether the steps ran through
    or one of them threw ([originalDir] is read but never used).  When the
    directory cannot be made or entered the call throws, no step has run and
    the session is where it was. *)
Theorem handleProjectSetup_moves_session s setup :
  let projectPath := full_path s (js_or (su_path setup) (su_name setup)) in
  let made := fs_write env (FsMkdir projectPath) (cwd s) (world s) in
  (returned (fst made) = true ->
   can_chdir env projectPath (snd made) = true ->
   cwd (snd (handleProjectSetup setup s)) = projectPath /\
   currentDirectory (snd (handleProjectSetup setup s)) = projectPath) /\
  (returned (fst made) = false \/ can_chdir env projectPath (snd made) = false ->
   returned (fst (handleProjectSetup setup s)) = false /\
   same_session s (snd (handleProjectSetup setup s)) /\
   executed (added s (snd (handleProjectSetup setup s))) = []).
Proof.
  intros projectPath made. unfold made, projectPath, full_path. clear made projectPath.
  unfold handleProjectSetup, resolveProjectPath, fs_do, chdir. run.
  set (p := if path_isAbsolute env (js_or (su_path setup) (su_name setup))
            then js_or (su_path setup) (su_name setup)
            else path_join env (currentDirectory s) (js_or (su_path setup) (su_name setup))).
  destruct (fs_write env (FsMkdir p) (cwd s) (world s)) as [[[]|e] w]; simpl.
  - destruct (can_chdir env p w) eqn:Hgo; simpl.
    + split; [|intros [H|H]; discriminate]. intros _ _.
      match goal with
      | |- context [for_each _ _ ?st] =>
          pose proof (@preserves_for_each env
                        (fun s : State env => cwd s = p /\ currentDirectory s = p)
                        _ (su_steps setup) (@setup_step env)
                        (@setup_step_stays p) st (conj eq_refl eq_refl)) as Hstay;
          destruct (for_each (su_steps setup) (@setup_step env) st) as [[[]|e] s']
      end; simpl in *; exact Hstay.
    + split; [intros _ H; discriminate|]. intros _.
      settle. repeat split.
  - split; [intros H; discriminate|]. intros _.
    settle. repeat split.
Qed.

End SetupProperties.

(** ** Shutdown, continued *)

Section ShutdownFailures.
Variable env : Env.
Implicit Types (s : State env).

(** A loop whose every call sits in its own [try]/[catch] makes every call,
    in order, and returns. *)
Lemma guarded_loop A B (event : A -> Event)
    (oracle : A -> World env -> outcome B * World env)
    (done : A -> string) (failed : A -> string -> string) :
  (forall a, is_console (event a) = false) ->
  forall entries s,
  exists t w,
    for_each entries
      (fun entry : A =>
         try_catch
           (bind (call (event entry) (oracle entry)) (fun _ => console (done entry)))
           (fun e => console (failed entry e))) s
      = (Returned tt, with_trace (trace s ++ t) (with_world w s)) /\
    external t = map event entries.
Proof.
  intros Hev.
  set (body := fun entry : A =>
         try_catch
           (bind (call (event entry) (oracle entry)) (fun _ => console (done entry)))
           (fun e => console (failed entry e))).
  induction entries as [|a entries IH]; intros s.
  - exists [], (world s). simpl. rewrite app_nil_r. destruct s. split; reflexivity.
  - simpl. unfold bind at 1. unfold body at 1.
    unfold try_catch, bind, call, console, emit, modify. simpl.
    destruct (oracle a (world s)) as [[b|e] w];
      match goal with
      | |- context [for_each _ _ ?st] => destruct (IH st) as [t [w' [Hrun Hext]]]
      end; rewrite Hrun; simpl.
    + exists (event a :: EvConsole (done a) :: t), w'.
      rewrite <- !app_assoc. split; [reflexivity|].
      unfold external in *. simpl. rewrite Hev. simpl. rewrite Hext. reflexivity.
    + exists (event a :: EvConsole (failed a e) :: t), w'.
      rewrite <- !app_assoc. split; [reflexivity|].
      unfold external in *. simpl. rewrite Hev. simpl. rewrite Hext. reflexivity.
Qed.

(** X15.  The clean-up of the fatal-error handler never throws: it signals
    every registered process and closes every watcher and every connection,
    in registry order, whatever the earlier calls did, and it leaves the
    three registries as they were. *)
Theorem fatal_cleanup_attempts_everything s :
  fst (fatal_cleanup s) = Returned tt /\
  external (added s (snd (fatal_cleanup s))) = shutdown_calls s /\
  same_session s (snd (fatal_cleanup s)).
Proof.
  assert (H : exists t w,
            fatal_cleanup s = (Returned tt, with_trace (trace s ++ t) (with_world w s)) /\
            external t = shutdown_calls s).
  { unfold fatal_cleanup.
    unfold bind at 1. unfold gets at 1. cbv beta iota.
    assert (Hfirst : exists t0,
              (match runningProcesses s with
               | [] => ret tt
               | _ :: _ => console "Attempting to stop running processes before exit..."
               end) s = (Returned tt, with_trace (trace s ++ t0) s) /\ external t0 = []).
    { destruct (runningProcesses s).
      - exists []. unfold ret. rewrite app_nil_r. destruct s. split; reflexivity.
      - exists [EvConsole "Attempting to stop running processes before exit..."].
        split; reflexivity. }
    destruct Hfirst as [t0 [Hrun0 Hext0]].
    unfold bind at 1. rewrite Hrun0.
    set (s0 := with_trace (trace s ++ t0) s).
    destruct (@guarded_loop _ _
                (fun entry : string * ProcessEntry => EvKill (pe_process (snd entry)))
                (fun entry => cp_kill env (pe_process (snd entry)))
                (fun entry => "Stopped process: " ++ fst entry)
                (fun entry e => "Failed to stop process " ++ fst entry ++ ": " ++ e)
                (fun _ => eq_refl) (runningProcesses s) s0) as [t1 [w1 [Hrun1 Hext1]]].
    cbv beta in Hrun1. unfold bind at 1. rewrite Hrun1.
    set (s1 := with_trace (trace s0 ++ t1) (with_world w1 s0)).
    unfold bind at 1. unfold gets at 1. cbv beta iota.
    destruct (@guarded_loop _ _
                (fun entry : string * Handle => EvWatcherClose (snd entry))
                (fun entry => watcher_close env (snd entry))
                (fun entry => "Stopped file watcher for: " ++ fst entry)
                (fun entry e => "Failed to close watcher for " ++ fst entry ++ ": " ++ e)
                (fun _ => eq_refl) (fileWatchers s1) s1) as [t2 [w2 [Hrun2 Hext2]]].
    cbv beta in Hrun2. unfold bind at 1. rewrite Hrun2.
    set (s2 := with_trace (trace s1 ++ t2) (with_world w2 s1)).
    unfold bind at 1. unfold gets at 1. cbv beta iota.
    destruct (@guarded_loop _ _
                (fun entry : string * Handle => EvConnectionClose (snd entry))
                (fun entry => connection_close env (snd entry))
                (fun entry => "Closed database connection: " ++ fst entry)
                (fun entry e =>
                   "Failed to close database connection " ++ fst entry ++ ": " ++ e)
                (fun _ => eq_refl) (databases s2) s2) as [t3 [w3 [Hrun3 Hext3]]].
    cbv beta in Hrun3. rewrite Hrun3.
    exists (t0 ++ t1 ++ t2 ++ t3)%list, w3. split.
    - unfold s2, s1, s0. simpl. rewrite <- !app_assoc. reflexivity.
    - rewrite !external_app, Hext0, Hext1, Hext2, Hext3. reflexivity. }
  destruct H as [t [w [Hrun Hext]]]. rewrite Hrun. simpl.
  split; [reflexivity|]. split; [|repeat split].
  rewrite (@added_app _ s _ t) by reflexivity. exact Hext.
Qed.



End ShutdownFailures.

(** ** Deployment *)

Section DeploymentProperties.
Variable env : Env.
Implicit Types (s : State env) (deployment : Deployment).

Lemma handleDeployment_same_session s deployment :
  same_session s (snd (handleDeployment deployment s)).
Proof.
  apply (@preserves_handleDeployment env (same_session s)).
  - intros s' e H. exact H.
  - intros s' w H. exact H.
  - apply same_session_refl.
Qed.

(** X17.  A deployment moves nothing in the session: directories,
    registries and history are as before, however it ends.  It stops at the
    first step that throws: the error is logged once and rethrown, the steps
    after it are not run (the result does not depend on them) and the
    completion line is not printed. *)
Theorem handleDeployment_stops_at_failing_step s deployment before failing after
    s1 s2 error :
  dp_steps deployment = (before ++ failing :: after)%list ->
  for_each before (deploy_step (dp_platform deployment))
    (with_trace (trace s ++ [EvConsole ("Deploying to " ++ dp_platform deployment ++ "...")]) s)
    = (Returned tt, s1) ->
  deploy_step (dp_platform deployment) failing s1 = (Thrown error, s2) ->
  handleDeployment deployment s
    = (Thrown error,
       with_trace (trace s2 ++ [EvConsole ("Deployment error: " ++ error)]) s2) /\
  same_session s s2.
Proof.
  intros Hsteps Hbefore Hfail.
  assert (Hrun : handleDeployment deployment s
                 = (Thrown error,
                    with_trace (trace s2 ++ [EvConsole ("Deployment error: " ++ error)]) s2)).
  { unfold handleDeployment. unfold bind at 1. unfold console at 1, emit, modify.
    unfold try_catch. unfold bind at 1. rewrite Hsteps.
    erewrite for_each_stops by eassumption. reflexivity. }
  split; [exact Hrun|].
  pose proof (handleDeployment_same_session s deployment) as H.
  rewrite Hrun in H. exact H.
Qed.

End DeploymentProperties.

(** ** Stopping a process from a plan *)

Section StopAction.
Variable env : Env.
Implicit Types (s : State env) (options : ProcessOptions).

(** X18.  A [stop] action whose [options] are present never aborts the
    plan, whether the name is registered or not and whether [kill()] throws
    or not; it signals at most the registered process of that name.  A
    [stop] action without [options] throws before anything is done. *)
Theorem stop_action_never_aborts s (options : option ProcessOptions) :
  match options with
  | Some o =>
      fst (dispatch (ProcessStop options) s) = Returned tt /\
      (forall child, In (EvKill child) (added s (snd (dispatch (ProcessStop options) s))) ->
         exists name details,
           po_name o = Some name /\
           JsMap.get name (runningProcesses s) = Some details /\
           pe_process details = child)
  | None =>
      returned (fst (dispatch (ProcessStop options) s)) = false /\
      snd (dispatch (ProcessStop options) s) = s
  end.
Proof.
  destruct options as [o|]; [|split; reflexivity].
  unfold dispatch. destruct (po_name o) as [name|].
  - unfold bind.
    destruct (JsMap.get name (runningProcesses s)) as [details|] eqn:Hget.
    + destruct (cp_kill env (pe_process details) (world s)) as [[b|e] w] eqn:Hkill.
      * rewrite (stopProcess_kill_returns _ _ Hget Hkill). split; [reflexivity|].
        intros child. unfold stopped, ret. settle.
        intros [E|[E|[]]]; [|discriminate].
        inversion E; subst. eauto.
      * rewrite (stopProcess_kill_throws _ _ Hget Hkill). split; [reflexivity|].
        intros child. unfold ret. settle.
        intros [E|[E|[]]]; [|discriminate].
        inversion E; subst. eauto.
    + assert (Hhas : JsMap.has name (runningProcesses s) = false)
        by (apply JsMapFacts.has_false_get; exact Hget).
      rewrite (stopProcess_not_registered _ _ Hhas). split; [reflexivity|].
      intros child. unfold ret. settle. intros [E|[]]. discriminate.
  - unfold noRunningProcess. run. split; [reflexivity|].
    intros child. settle. intros [E|[]]. discriminate.
Qed.

End StopAction.

(** ** The parsing step, continued *)

Module PlanTextAcceptance.
Import PlanText PlanTextVocabulary.

Local Open Scope N_scope.

Local Arguments N.eqb : simpl never.
Local Arguments N.leb : simpl never.
Local Arguments N.ltb : simpl never.

Lemma trimStart_spaces lead s :
  forallb is_space lead = true -> trimStart (lead ++ s)%list = trimStart s.
Proof.
  induction lead as [|c lead IH]; simpl; intros H; [reflexivity|].
  apply andb_prop in H. destruct H as [Hc Hrest].
  rewrite Hc. apply IH, Hrest.
Qed.

Lemma forallb_rev A (f : A -> bool) l : forallb f (rev l) = forallb f l.
Proof.
  induction l as [|a l IH]; simpl; [reflexivity|].
  rewrite forallb_app, IH. simpl. rewrite andb_true_r. apply andb_comm.
Qed.

(** [trim] removes the white space around a text that begins and ends with
    other characters. *)
Lemma trim_strips lead first middle last trail :
  forallb is_space lead = true -> forallb is_space trail = true ->
  is_space first = false -> is_space last = false ->
  trim (lead ++ first :: middle ++ last :: trail)%list = (first :: middle ++ [last])%list.
Proof.
  intros Hlead Htrail Hfirst Hlast. unfold trim.
  rewrite trimStart_spaces by exact Hlead.
  replace (trimStart (first :: middle ++ last :: trail))
    with (first :: middle ++ last :: trail) by (simpl; rewrite Hfirst; reflexivity).
  replace (rev (first :: middle ++ last :: trail))
    with (rev trail ++ last :: rev (first :: middle))%list
    by (simpl; rewrite rev_app_distr; simpl; rewrite <- !app_assoc; reflexivity).
  rewrite trimStart_spaces by (rewrite forallb_rev; exact Htrail).
  replace (trimStart (last :: rev (first :: middle)))
    with (last :: rev (first :: middle)) by (simpl; rewrite Hlast; reflexivity).
  simpl. rewrite rev_app_distr, rev_involutive. reflexivity.
Qed.

Lemma remove_matches_free pattern :
  (forall s, matches_here s = false -> pattern s = None) ->
  forall s, free_of_patterns s = true -> remove_matches pattern O s = s.
Proof.
  intros Hpattern. induction s as [|c rest IH]; intros Hfree; [reflexivity|].
  cbn [free_of_patterns] in Hfree. apply andb_prop in Hfree.
  destruct Hfree as [Hhere Hrest]. apply negb_true_iff in Hhere.
  cbn [remove_matches]. rewrite (Hpattern _ Hhere). rewrite (IH Hrest). reflexivity.
Qed.

Lemma starts_with_app a b s : starts_with (a ++ b)%list s = true -> starts_with a s = true.
Proof.
  revert s. induction a as [|x a IH]; intros s H; [destruct s; reflexivity|].
  destruct s as [|c s]; [discriminate|].
  simpl in *. apply andb_prop in H. destruct H as [H1 H2].
  rewrite H1. simpl. apply IH, H2.
Qed.

Lemma clean_free s : free_of_patterns s = true -> clean s = s.
Proof.
  intros Hfree. unfold clean.
  rewrite (@remove_matches_free fence_json); [|clear; intros s H | exact Hfree].
  2:{ unfold matches_here in H. unfold fence_json.
      destruct (starts_with (backticks ++ of_string "json")%list s) eqn:E; [|reflexivity].
      apply starts_with_app in E. unfold fence in H. rewrite E in H. discriminate. }
  rewrite (@remove_matches_free fence); [|clear; intros s H | exact Hfree].
  2:{ unfold matches_here in H. destruct (fence s); [discriminate | reflexivity]. }
  rewrite (@remove_matches_free zero_width); [|clear; intros s H | exact Hfree].
  2:{ unfold matches_here in H.
      destruct (fence s); [discriminate|].
      destruct (zero_width s); [discriminate | reflexivity]. }
  rewrite (@remove_matches_free line_comment); [|clear; intros s H | exact Hfree].
  2:{ unfold matches_here in H.
      destruct (fence s); [discriminate|].
      destruct (zero_width s); [discriminate|].
      destruct (line_comment s); [discriminate | reflexivity]. }
  rewrite (@remove_matches_free block_comment); [reflexivity |clear; intros s H | exact Hfree].
  unfold matches_here in H.
  destruct (fence s); [discriminate|].
  destruct (zero_width s); [discriminate|].
  destruct (line_comment s); [discriminate|].
  destruct (block_comment s); [discriminate | reflexivity].
Qed.

Lemma lastIndexOf_last c s : lastIndexOf c (s ++ [c])%list = Some (List.length s).
Proof.
  induction s as [|d s IH]; simpl.
  - rewrite N.eqb_refl. reflexivity.
  - rewrite IH. reflexivity.
Qed.

Lemma indexOf_last c s : exists i, indexOf c (s ++ [c])%list = Some i.
Proof.
  induction s as [|d s IH]; simpl.
  - rewrite N.eqb_refl. eauto.
  - destruct (N.eqb d c); [eauto|]. destruct IH as [i ->]. eauto.
Qed.

(** The span from the first [{] to the last [}] of a text that begins
    with the one and ends with the other is the text. *)
Lemma brace_span_whole body :
  brace_span (123 :: body ++ [125])%list = Some (123 :: body ++ [125])%list /\
  includes 123 (123 :: body ++ [125])%list = true /\
  includes 125 (123 :: body ++ [125])%list = true.
Proof.
  split; [|split].
  - unfold brace_span.
    change (indexOf 123 (123 :: body ++ [125])%list) with (Some O).
    change (123 :: body ++ [125])%list with ((123 :: body) ++ [125])%list.
    rewrite lastIndexOf_last. unfold substring.
    rewrite Nat.max_r, Nat.min_l by lia. rewrite Nat.sub_0_r. simpl skipn.
    replace (S (List.length (123 :: body))) with (List.length ((123 :: body) ++ [125]))
      by (rewrite length_app; simpl; lia).
    rewrite firstn_all. reflexivity.
  - reflexivity.
  - unfold includes.
    change (123 :: body ++ [125])%list with ((123 :: body) ++ [125])%list.
    destruct (indexOf_last 125 (123 :: body)) as [i ->]. reflexivity.
Qed.

(** X19.  An answer that is one object, from an opening to a closing
    brace, with nothing but white space around it, and in which none of the
    five clean-up patterns matches, is parsed as [JSON.parse] parses the
    object: the clean-up and the extraction change nothing, and the two
    calls of [JSON.parse] see the same text. *)
Theorem bare_object_is_parsed_as_is lead body trail :
  forallb is_space lead = true ->
  forallb is_space trail = true ->
  free_of_patterns (123 :: body ++ [125])%list = true ->
  parse_response (lead ++ 123 :: body ++ 125 :: trail)%list
    = JSON_parse (123 :: body ++ [125])%list.
Proof.
  intros Hlead Htrail Hfree. unfold parse_response.
  rewrite (@trim_strips lead 123 body 125 trail Hlead Htrail eq_refl eq_refl).
  rewrite (clean_free _ Hfree).
  destruct (brace_span_whole body) as [-> [-> ->]]. simpl andb. cbv iota.
  destruct (JSON_parse (123 :: body ++ [125])%list); reflexivity.
Qed.

(** X20.  An answer whose first character after leading white space is a
    prose letter is rejected, whatever follows: a plan further on in the
    answer is never looked for. *)
Theorem answer_led_by_prose_is_rejected lead c rest :
  forallb is_space lead = true ->
  is_prose_letter c = true ->
  parse_response (lead ++ c :: rest)%list = SyntaxError.
Proof.
  intros Hlead Hc.
  rewrite <- (PlanTextProperties.answer_opening_with_prose_is_rejected c rest Hc).
  unfold parse_response, trim. rewrite trimStart_spaces by exact Hlead. reflexivity.
Qed.

(** *** A string value with two slashes *)






















End PlanTextAcceptance.

(** ** The logger *)

Module LoggerProperties.
Import Logger.

Lemma levels_method m :
  levels (method_name m) = Rank (match m with Debug => 0 | Info => 1 | Warn => 2 | Error => 3 end).
Proof. destruct m; reflexivity. Qed.

(** X22.  The level is a threshold: when a method logs, every more severe
    method logs as well.  A logger whose level is none of the five names (a
    misspelt or capitalised name, say) is silent: not even [error] prints or
    writes anything. *)
Theorem logger_threshold l :
  (forall m m',
     js_ge (levels (method_name m')) (levels (method_name m)) = true ->
     shouldLog (method_name m) l = true ->
     shouldLog (method_name m') l = true) /\
  ((forall n, levels (logLevel l) <> Rank n) ->
   forall m timestamp message args, log m timestamp message args l = []).
Proof.
  split.
  - intros m m'. unfold shouldLog. rewrite !levels_method.
    destruct (levels (logLevel l)) as [n| |]; simpl; try discriminate.
    intros H1 H2. apply Nat.leb_le in H1, H2. apply Nat.leb_le. lia.
  - intros Hnot m timestamp message args. unfold log, shouldLog.
    rewrite levels_method.
    destruct (levels (logLevel l)) as [n| |]; [|reflexivity|reflexivity].
    exfalso. apply (Hnot n). reflexivity.
Qed.

Lemma levels_inherited level : In level prototype_names -> levels level = Inherited.
Proof.
  unfold prototype_names. simpl.
  intros H. repeat (destruct H as [<-|H]; [reflexivity|]). contradiction.
Qed.

(** X23.  [setLogLevel] takes every name for which [this.levels[name]] is
    not [undefined], and that includes the names of [Object.prototype]:
    given one of them it stores it as the level without printing anything,
    and from then on no method logs; a later [setLogLevel] with one of the
    five names is accepted again. *)
Theorem setLogLevel_inherited_name_silences level timestamp l :
  In level prototype_names ->
  logLevel (fst (setLogLevel level timestamp l)) = level /\
  snd (setLogLevel level timestamp l) = [] /\
  (forall m timestamp' message args,
     log m timestamp' message args (fst (setLogLevel level timestamp l)) = []) /\
  (forall m timestamp',
     logLevel (fst (setLogLevel (method_name m) timestamp'
                      (fst (setLogLevel level timestamp l))))
       = method_name m).
Proof.
  intros Hin. pose proof (@levels_inherited level Hin) as Hlevel.
  unfold setLogLevel. rewrite Hlevel. cbn [fst snd logLevel].
  assert (Hsilent : forall m timestamp' message args,
            log m timestamp' message args {| logLevel := level; logFile := logFile l |} = []).
  { intros m timestamp' message args. unfold log, shouldLog.
    cbn [logLevel]. rewrite Hlevel, levels_method. reflexivity. }
  split; [reflexivity|]. split; [apply Hsilent|]. split; [apply Hsilent|].
  intros m timestamp'. rewrite levels_method. reflexivity.
Qed.

(** X24.  What [setLogLevel] reports goes through the logger itself: the
    confirmation is filtered by the new level, so a change to [warn],
    [error] or [none] is silent, and the warning about an unknown name is
    filtered by the current level, so with [error] or [none] an unknown
    name is dropped without a word.  An unknown name never changes the
    level. *)
Theorem setLogLevel_feedback level timestamp l :
  (In level ["warn"; "error"; "none"] ->
   logLevel (fst (setLogLevel level timestamp l)) = level /\
   snd (setLogLevel level timestamp l) = []) /\
  (In level ["debug"; "info"] ->
   logLevel (fst (setLogLevel level timestamp l)) = level /\
   snd (setLogLevel level timestamp l)
     = [Print Info ("Log level set to " ++ level) [];
        AppendFile (logFile l)
          (entry timestamp Info ("Log level set to " ++ level ++ " ") ++ line_feed)]) /\
  (levels level = Undefined ->
   fst (setLogLevel level timestamp l) = l /\
   (In (logLevel l) ["error"; "none"] -> snd (setLogLevel level timestamp l) = [])).
Proof.
  split; [|split].
  - simpl. intros [<-|[<-|[<-|[]]]]; split; reflexivity.
  - simpl. intros [<-|[<-|[]]]; split; reflexivity.
  - intros Hlevel. unfold setLogLevel. rewrite Hlevel. split; [reflexivity|].
    simpl. intros [E|[E|[]]]; unfold log, shouldLog; rewrite <- E; reflexivity.
Qed.

(** *** The log history *)

Lemma split_on_separator sep a b :
  split_on sep (a ++ String sep b) = (split_on sep a ++ split_on sep b)%list.
Proof.
  induction a as [|c a IH]; simpl.
  - rewrite Ascii.eqb_refl. reflexivity.
  - destruct (Ascii.eqb c sep); [rewrite IH; reflexivity|].
    rewrite IH. destruct (split_on_cons sep a) as [w [ws ->]]. reflexivity.
Qed.

Lemma split_on_single_line s :
  single_line s = true -> split_on (ascii_of_nat 10) s = [s].
Proof.
  induction s as [|c s IH]; simpl; intros H; [reflexivity|].
  apply andb_prop in H. destruct H as [Hc Hs]. apply negb_true_iff in Hc.
  rewrite Hc, (IH Hs). reflexivity.
Qed.

Lemma single_line_app a b :
  single_line a = true -> single_line b = true -> single_line (a ++ b) = true.
Proof.
  induction a as [|c a IH]; simpl; intros Ha Hb; [exact Hb|].
  apply andb_prop in Ha. destruct Ha as [Hc Ha]. rewrite Hc. simpl. apply IH; assumption.
Qed.

Lemma entry_single_line timestamp m message :
  single_line timestamp = true -> single_line message = true ->
  single_line (entry timestamp m message) = true /\
  nonempty (entry timestamp m message) = true.
Proof.
  intros Ht Hm. split.
  - unfold entry. repeat apply single_line_app; try assumption; try reflexivity.
    destruct m; reflexivity.
  - unfold entry. destruct timestamp; reflexivity.
Qed.

Lemma string_append_assoc (a b c : string) : (a ++ b) ++ c = a ++ b ++ c.
Proof. induction a as [|x a IH]; simpl; [reflexivity | rewrite IH; reflexivity]. Qed.

Lemma slice_last A (xs : list A) x : slice (- 1) (xs ++ [x]) = [x].
Proof.
  unfold slice. rewrite length_app. simpl List.length.
  replace (- 1 <? 0)%Z with true by reflexivity.
  replace (Z.to_nat (Z.max (Z.of_nat (List.length xs + 1) + - 1) 0)) with (List.length xs)
    by lia.
  apply skipn_length_app.
Qed.

(** X25.  What [_writeToFile] appends, [getLogHistory] gives back: after
    a message without line feed has been appended to a log that is empty or
    ends with a line feed, [getLogHistory(1)] is the one formatted entry,
    without its line feed. *)
Theorem logged_entry_is_read_back older timestamp m message :
  single_line timestamp = true ->
  single_line message = true ->
  older = EmptyString \/ (exists lines, older = lines ++ line_feed) ->
  getLogHistory (Some 1%Z) (Data (older ++ entry timestamp m message ++ line_feed))
    = Returned [entry timestamp m message].
Proof.
  intros Ht Hm Holder.
  destruct (@entry_single_line timestamp m message Ht Hm) as [Hline Hfull].
  unfold getLogHistory. f_equal.
  assert (Hsplit : exists before,
            filter nonempty
              (split_on (ascii_of_nat 10) (older ++ entry timestamp m message ++ line_feed))
            = (before ++ [entry timestamp m message])%list).
  { unfold line_feed.
    destruct Holder as [->|[lines ->]].
    - exists []. simpl String.append.
      rewrite split_on_separator, (@split_on_single_line _ Hline). simpl.
      rewrite Hfull. reflexivity.
    - exists (filter nonempty (split_on (ascii_of_nat 10) lines)).
      rewrite string_append_assoc. simpl String.append.
      rewrite split_on_separator, split_on_separator, (@split_on_single_line _ Hline).
      rewrite !filter_app. simpl. rewrite Hfull. reflexivity. }
  destruct Hsplit as [before ->]. apply slice_last.
Qed.

(** X26.  [getLogHistory] returns the tail of the non-empty lines of the
    log: for a positive [lines] the last [lines] of them, or all when there
    are fewer; for [lines = 0] all of them, not none, since [slice(-0)]
    starts at the beginning.  A missing log file gives the empty list; any
    other read error is rethrown. *)
Theorem getLogHistory_window lines data :
  let all := filter nonempty (split_on (ascii_of_nat 10) data) in
  (exists dropped kept,
     all = (dropped ++ kept)%list /\
     getLogHistory (Some lines) (Data data) = Returned kept /\
     forallb nonempty kept = true /\
     ((0 < lines)%Z -> List.length kept = Nat.min (Z.to_nat lines) (List.length all)) /\
     (lines = 0%Z -> kept = all)) /\
  getLogHistory None (Data data) = getLogHistory (Some 10%Z) (Data data) /\
  (forall message, getLogHistory (Some lines) (Failure "ENOENT" message) = Returned []) /\
  (forall code message,
     code <> "ENOENT" ->
     getLogHistory (Some lines) (Failure code message) = Thrown message).
Proof.
  intros all. split; [|split; [reflexivity|split; [reflexivity|]]].
  - unfold getLogHistory. fold all. unfold slice.
    set (from := Z.to_nat _).
    exists (firstn from all), (skipn from all).
    split; [symmetry; apply firstn_skipn|]. split; [reflexivity|].
    split; [|split].
    + apply forallb_forall. intros x Hx.
      assert (Hin : In x all).
      { rewrite <- (firstn_skipn from all). apply in_or_app. right. exact Hx. }
      unfold all in Hin. apply filter_In in Hin. tauto.
    + intros Hpos. rewrite length_skipn. unfold from.
      destruct (Z.ltb_spec (- lines) 0); lia.
    + intros ->. unfold from. simpl.
      replace (Z.to_nat (Z.min 0 (Z.of_nat (List.length all)))) with O by lia.
      reflexivity.
  - intros code message Hcode. unfold getLogHistory.
    destruct (String.eqb_spec code "ENOENT"); [contradiction | reflexivity].
Qed.

End LoggerProperties.

(** ** The stored API key *)

Module ApiKeyProperties.
Import ApiKey.

(** X27.  A non-empty key in the store is returned without asking, and
    the store is left as it is.  Without one (no key, or an empty one) the
    user is asked and the answer is stored as it is, empty or not.  So
    [getApiKey] asks at most once: after a call that returned a non-empty
    key, the next call returns that key without asking and leaves the store
    alone, whatever the user would type; after an empty answer the next
    call asks again. *)
Theorem getApiKey_asks_once store answer answer' :
  (forall stored,
     JsMap.get key_name store = Some stored -> stored <> EmptyString ->
     getApiKey store answer = {| apiKey := stored; config := store; asked := false |}) /\
  (truthy (JsMap.get key_name store) = None ->
   getApiKey store answer
     = {| apiKey := answer; config := JsMap.set key_name answer store; asked := true |} /\
   JsMap.get key_name (config (getApiKey store answer)) = Some answer) /\
  (apiKey (getApiKey store answer) <> EmptyString ->
   getApiKey (config (getApiKey store answer)) answer'
     = {| apiKey := apiKey (getApiKey store answer);
          config := config (getApiKey store answer);
          asked := false |}) /\
  (truthy (JsMap.get key_name store) = None -> answer = EmptyString ->
   asked (getApiKey (config (getApiKey store answer)) answer') = true).
Proof.
  split; [|split; [|split]].
  - intros stored Hget Hne. unfold getApiKey. rewrite Hget. simpl.
    destruct (String.eqb_spec stored EmptyString); [contradiction | reflexivity].
  - intros Hnone. unfold getApiKey. rewrite Hnone. cbn [config].
    split; [reflexivity | apply JsMapFacts.get_set_same].
  - unfold getApiKey.
    destruct (truthy (JsMap.get key_name store)) as [stored|] eqn:Hstored;
      cbn [apiKey config asked].
    + rewrite Hstored. reflexivity.
    + rewrite JsMapFacts.get_set_same. cbn [truthy].
      intros H. destruct (String.eqb_spec answer EmptyString); [contradiction | reflexivity].
  - intros Hnone ->. unfold getApiKey. rewrite Hnone. cbn [config].
    rewrite JsMapFacts.get_set_same. reflexivity.
Qed.

End ApiKeyProperties.

(** ** A late exit *)

Section LateExit.
Variable env : Env.
Implicit Types (s : State env) (command : string) (options : ProcessOptions).

(** X28.  The ['exit'] observer removes by name.  When a background start
    (first field not empty, [spawn] returning a child) has replaced the
    process registered under a name, the exit of the old child, which
    [kill()] has just caused, unregisters the new process: the name is free
    again although the new child was never signalled, and a stop of that
    name finds nothing to stop. *)
Theorem late_exit_unregisters_replacement s command options details delivered w child w'
    code :
  JsMap.get (process_key command options) (runningProcesses s) = Some details ->
  cp_kill env (pe_process details) (world s) = (Returned delivered, w) ->
  po_waitForExit options = false ->
  truthy (po_logFile options) = None ->
  first_field command <> EmptyString ->
  cp_spawn env (first_field command) (tl (split_on " "%char command))
    (spawn_dir options s) StdioInherit w = (Returned child, w') ->
  child <> pe_process details ->
  let s1 := snd (startProcess command options s) in
  let s2 := snd (onExit (process_key command options) code s1) in
  (exists entry,
     JsMap.get (process_key command options) (runningProcesses s1) = Some entry /\
     pe_process entry = child) /\
  JsMap.has (process_key command options) (runningProcesses s2) = false /\
  In (EvSpawn (first_field command) (tl (split_on " "%char command))
        (spawn_dir options s) StdioInherit child) (added s s2) /\
  ~ In (EvKill child) (added s s2) /\
  fst (stopProcess (process_key command options) s2)
    = Returned (ReplyMessage false
                  ("No running process named " ++ process_key command options)).
Proof.
  intros Hget Hkill Hwait Hlog Hfile Hspawn Hfresh s1 s2.
  destruct (@startProcess_replaces env s command options details delivered w child w'
              Hget Hkill Hwait Hlog Hfile Hspawn)
    as [s' [Hrun [Htrace Hentry]]].
  assert (E1 : s1 = s') by (unfold s1; rewrite Hrun; reflexivity).
  assert (Hfree : JsMap.has (process_key command options) (runningProcesses s2) = false).
  { unfold s2, onExit. run. apply JsMapFacts.has_delete_same. }
  assert (Hadded : added s s2
                   = [EvKill (pe_process details);
                      EvConsole ("Stopped process: " ++ process_key command options);
                      EvSpawn (first_field command) (tl (split_on " "%char command))
                        (spawn_dir options s) StdioInherit child;
                      EvConsole ("Started process: " ++ process_key command options);
                      EvConsole ("Process " ++ process_key command options
                                  ++ " exited with code " ++ code)]).
  { apply added_app. unfold s2, onExit. run. rewrite E1, Htrace.
    rewrite <- app_assoc. reflexivity. }
  split; [rewrite E1; eexists; split; [exact Hentry | reflexivity]|].
  split; [exact Hfree|]. rewrite Hadded.
  split; [simpl; auto|]. split.
  - simpl. intros [E|[E|[E|[E|[E|[]]]]]]; try discriminate.
    inversion E. apply Hfresh. symmetry. assumption.
  - rewrite (@stopProcess_not_registered env _ _ Hfree). reflexivity.
Qed.

End LateExit.

(** ** Invariants of a session *)

Section SessionInvariants.
Variable env : Env.
Implicit Types (s : State env).

Lemma session_step_registries_wf step s :
  registries_wf s -> registries_wf (session_step step s).
Proof.
  destruct step as [userCommand parsed|processName code]; simpl.
  - apply executeAICommand_registries_wf.
  - apply frame_onExit; intros;
      match goal with H : registries_wf _ |- _ => destruct H as [Hp [Hw Hd]] end;
      repeat split; simpl; auto using JsMapFacts.wf_set, JsMapFacts.wf_delete.
Qed.

Lemma session_step_history step s :
  List.length (history (session_step step s))
    = (if is_recorded step then 1 else 0) + List.length (history s).
Proof.
  destruct step as [userCommand parsed|processName code]; simpl.
  - rewrite executeAICommand_history.
    destruct parsed as [plan|error]; [|reflexivity].
    rewrite length_app. simpl. lia.
  - reflexivity.
Qed.

(** X29.  Through a whole session, whatever the commands, their plans and
    the moments at which children exit: the three registries never hold a
    key twice, and the history holds one entry for every command whose
    answer parsed, however its actions ended. *)
Theorem session_keeps_registries_and_history steps : forall s,
  registries_wf s ->
  registries_wf (run_session steps s) /\
  List.length (history (run_session steps s))
    = List.length (filter is_recorded steps) + List.length (history s).
Proof.
  induction steps as [|step steps IH]; intros s Hwf; [split; [exact Hwf | reflexivity]|].
  change (run_session (step :: steps) s) with (run_session steps (session_step step s)).
  destruct (IH (session_step step s) (session_step_registries_wf step Hwf))
    as [H1 H2].
  split; [exact H1|]. rewrite H2, session_step_history.
  simpl. destruct (is_recorded step); simpl; lia.
Qed.

(** X30.  Where every [chdir] succeeds, the working directory of the
    process and [projectState.currentDirectory] agree after every step of
    a session that began with them equal: a project setup moves both, a
    package operation moves the working directory back. *)
Theorem session_stays_in_sync steps : forall s,
  (forall dir w, can_chdir env dir w = true) ->
  synced s ->
  synced (run_session steps s).
Proof.
  induction steps as [|step steps IH]; intros s Hchdir Hsync; [exact Hsync|].
  change (run_session (step :: steps) s) with (run_session steps (session_step step s)).
  apply IH; [exact Hchdir|].
  destruct step as [userCommand parsed|processName code]; simpl.
  - apply executeAICommand_synced; assumption.
  - exact Hsync.
Qed.

End SessionInvariants.

(** * Runs of the further properties

    Each property with a premise, at an input of the [Demo] world. *)

Lemma handleGitOperation_single_command_run :
  In (git_action (Demo.git_op "add")) git_actions /\
  exists command,
    executed (added Demo.start (snd (handleGitOperation (Demo.git_op "add") Demo.start)))
      = [(command, "/home/u")].
Proof.
  assert (H : In (git_action (Demo.git_op "add")) git_actions) by (simpl; tauto).
  split; [exact H|].
  exact (proj1 (proj2 (handleGitOperation_single_command Demo.start (Demo.git_op "add"))) H).
Defined.

Lemma handleGitOperation_missing_fields_run :
  git_action (Demo.git_op "checkout") = "checkout" /\
  git_branch (Demo.git_op "checkout") = None /\
  executed (added Demo.start (snd (handleGitOperation (Demo.git_op "checkout") Demo.start)))
    = [("git checkout undefined", "/home/u")].
Proof.
  split; [reflexivity|]. split; [reflexivity|].
  exact (proj1 (proj2 (handleGitOperation_missing_fields Demo.start (Demo.git_op "checkout")))
           eq_refl eq_refl).
Defined.

(** [yarn] in a directory that is there, and in one that is gone. *)
Lemma handlePackageOperation_unknown_manager_run :
  let nowhere :=
    initial Demo.env
      {| Demo.files := []; Demo.gone := ["/home/u/app"]; Demo.failing := [];
         Demo.stuck := []; Demo.next := 1; Demo.time := 0 |}
      "/home/u" in
  ~ In (pk_manager Demo.yarn_add) ["npm"; "pip"] /\
  fst (handlePackageOperation Demo.yarn_add Demo.start)
    = Thrown "Unsupported package manager: yarn" /\
  cwd (snd (handlePackageOperation Demo.yarn_add Demo.start)) = "/home/u" /\
  returned (fst (handlePackageOperation Demo.yarn_add nowhere)) = false /\
  executed (added nowhere (snd (handlePackageOperation Demo.yarn_add nowhere))) = [].
Proof.
  intros nowhere.
  assert (H1 : ~ In (pk_manager Demo.yarn_add) ["npm"; "pip"])
    by (simpl; intros [H|[H|[]]]; discriminate).
  split; [exact H1|].
  pose proof (@handlePackageOperation_unknown_manager Demo.env Demo.start Demo.yarn_add H1)
    as Hthere.
  pose proof (@handlePackageOperation_unknown_manager Demo.env nowhere Demo.yarn_add H1)
    as Hgone.
  split; [|split].
  - exact (proj1 (proj2 (proj2 Hthere) eq_refl (fun d _ => eq_refl))).
  - exact (proj2 (proj2 (proj2 Hthere) eq_refl (fun d _ => eq_refl))).
  - exact (conj (proj1 Hgone) (proj1 (proj2 Hgone))).
Defined.

Lemma handleMongoDBOperation_reuses_connection_run :
  JsMap.has (db_connectionString (Demo.mongo_op "query")) (databases Demo.busy) = true /\
  databases (snd (handleMongoDBOperation (Demo.mongo_op "query") Demo.busy))
    = databases Demo.busy.
Proof.
  split; [reflexivity|].
  exact (proj1 (@handleMongoDBOperation_reuses_connection Demo.env Demo.busy
                  (Demo.mongo_op "query") eq_refl)).
Defined.

Lemma handleMongoDBOperation_connects_first_run :
  JsMap.has (db_connectionString (Demo.mongo_op "rename")) (databases Demo.start) = false /\
  mongoose_connect Demo.env "mongodb-local" (world Demo.start)
    = (Returned 1, snd (Demo.fresh Demo.quiet)) /\
  databases (snd (handleMongoDBOperation (Demo.mongo_op "rename") Demo.start))
    = [("mongodb-local", 1)].
Proof.
  split; [reflexivity|]. split; [reflexivity|].
  exact (proj1 (@handleMongoDBOperation_connects_first Demo.env Demo.start
                  (Demo.mongo_op "rename") eq_refl)
           1 (snd (Demo.fresh Demo.quiet)) eq_refl).
Defined.

Lemma performFileOperation_one_call_run :
  In (fo_action (Demo.file_op "rename" "a.txt" EmptyString)) fs_actions /\
  exists call,
    external (added Demo.start
                (snd (performFileOperation (Demo.file_op "rename" "a.txt" EmptyString)
                        Demo.start))) = [call] /\
    fs_paths call = ["/home/u/a.txt"; "/home/u/"].
Proof.
  assert (H : In (fo_action (Demo.file_op "rename" "a.txt" EmptyString)) fs_actions)
    by (simpl; tauto).
  split; [exact H|].
  exact (proj1 (proj2 (@performFileOperation_one_call Demo.env Demo.start
                         (Demo.file_op "rename" "a.txt" EmptyString) H))).
Defined.

Lemma performFileOperation_unknown_action_run :
  ~ In (fo_action (Demo.file_op "copy" "a.txt" EmptyString)) ("watch" :: fs_actions) /\
  fst (performFileOperation (Demo.file_op "copy" "a.txt" EmptyString) Demo.start)
    = Thrown "Unsupported file operation: copy".
Proof.
  assert (H : ~ In (fo_action (Demo.file_op "copy" "a.txt" EmptyString))
                ("watch" :: fs_actions))
    by (simpl; intuition discriminate).
  split; [exact H|].
  exact (proj1 (@performFileOperation_unknown_action Demo.env Demo.start
                  (Demo.file_op "copy" "a.txt" EmptyString) H)).
Defined.

Lemma started_process_is_listed_until_stopped_run :
  JsMap.has (process_key "sleep 1000" (Demo.named "bg")) (runningProcesses Demo.start)
    = false /\
  first_field "sleep 1000" <> EmptyString /\
  cp_spawn Demo.env "sleep" ["1000"] "/home/u" StdioInherit (world Demo.start)
    = (Returned 1, snd (Demo.fresh Demo.quiet)) /\
  exists rows uptime,
    listProcesses Demo.tracking = (Returned rows, Demo.tracking) /\
    In ("bg", "sleep 1000", uptime, "N/A") rows /\
    map row_name rows = ["bg"].
Proof.
  assert (Hfile : first_field "sleep 1000" <> EmptyString) by discriminate.
  split; [reflexivity|]. split; [exact Hfile|]. split; [reflexivity|].
  exact (proj1 (@started_process_is_listed_until_stopped Demo.env Demo.start "sleep 1000"
                  (Demo.named "bg") 1 (snd (Demo.fresh Demo.quiet))
                  eq_refl eq_refl eq_refl Hfile eq_refl)).
Defined.

Lemma startProcess_blocking_run :
  po_waitForExit Demo.waiting = true /\
  executed (added Demo.tracking (snd (startProcess "sleep 5" Demo.waiting Demo.tracking)))
    = [("sleep 5", "/home/u")] /\
  filter is_spawn (added Demo.tracking (snd (startProcess "sleep 5" Demo.waiting Demo.tracking)))
    = [].
Proof.
  split; [reflexivity|].
  pose proof (@startProcess_blocking Demo.env Demo.tracking "sleep 5" Demo.waiting eq_refl)
    as H.
  exact (conj (proj1 H) (proj1 (proj2 H))).
Defined.

Lemma startProcess_log_file_unopened_run :
  po_waitForExit Demo.logged = false /\
  truthy (po_logFile Demo.logged) = Some "out.log" /\
  (forall w, returned (fst (fs_openSync Demo.env "out.log" w)) = false) /\
  returned (fst (startProcess "node server.js" Demo.logged Demo.tracking)) = false /\
  JsMap.has "bg" (runningProcesses (snd (startProcess "node server.js" Demo.logged
                                         Demo.tracking))) = false.
Proof.
  assert (H3 : forall w, returned (fst (fs_openSync Demo.env "out.log" w)) = false)
    by (intros w; reflexivity).
  split; [reflexivity|]. split; [reflexivity|]. split; [exact H3|].
  pose proof (@startProcess_log_file_unopened Demo.env Demo.tracking "node server.js"
                Demo.logged "out.log" eq_refl eq_refl H3) as H.
  split; [exact (proj1 H)|].
  exact (proj1 (proj2 (proj2 (proj2 H)) Demo.bg_entry true (world Demo.tracking)
                  eq_refl eq_refl)).
Defined.

Lemma executeAICommand_skips_unknown_actions_run :
  forallb skipped (plan_actions Demo.unknown_actions) = true /\
  fst (executeAICommand "mail the report" (Returned Demo.unknown_actions) Demo.start)
    = Returned true.
Proof.
  split; [reflexivity|].
  exact (proj1 (@executeAICommand_skips_unknown_actions Demo.env "mail the report"
                  Demo.unknown_actions Demo.start eq_refl)).
Defined.

(** The install of the second step fails; the session stays in the project
    directory all the same. *)
Lemma handleProjectSetup_moves_session_run :
  returned (fst (fs_write Demo.env (FsMkdir "/home/u/app") "/home/u" (world Demo.offline)))
    = true /\
  returned (fst (handleProjectSetup Demo.app_setup Demo.offline)) = false /\
  cwd (snd (handleProjectSetup Demo.app_setup Demo.offline)) = "/home/u/app" /\
  currentDirectory (snd (handleProjectSetup Demo.app_setup Demo.offline)) = "/home/u/app".
Proof.
  split; [reflexivity|]. split; [reflexivity|].
  exact (proj1 (@handleProjectSetup_moves_session Demo.env Demo.offline Demo.app_setup)
           eq_refl eq_refl).
Defined.


Lemma handleDeployment_stops_at_failing_step_run :
  let announced :=
    with_trace (trace Demo.unreachable ++ [EvConsole "Deploying to firebase..."])
      Demo.unreachable in
  let s1 := snd (deploy_step "firebase" (DeployBuild "npm run build") announced) in
  let s2 := snd (deploy_step "firebase" (DeployUpload "firebase deploy") s1) in
  dp_steps Demo.firebase
    = ([DeployBuild "npm run build"] ++ DeployUpload "firebase deploy"
         :: [DeployInvoke "curl example.org"])%list /\
  for_each [DeployBuild "npm run build"] (deploy_step "firebase") announced
    = (Returned tt, s1) /\
  deploy_step "firebase" (DeployUpload "firebase deploy") s1
    = (Thrown "Command failed: firebase deploy", s2) /\
  handleDeployment Demo.firebase Demo.unreachable
    = (Thrown "Command failed: firebase deploy",
       with_trace
         (trace s2 ++ [EvConsole "Deployment error: Command failed: firebase deploy"]) s2).
Proof.
  intros announced s1 s2.
  assert (H1 : dp_steps Demo.firebase
               = ([DeployBuild "npm run build"] ++ DeployUpload "firebase deploy"
                    :: [DeployInvoke "curl example.org"])%list) by reflexivity.
  assert (H2 : for_each [DeployBuild "npm run build"]
                 (deploy_step (dp_platform Demo.firebase))
                 (with_trace
                    (trace Demo.unreachable
                       ++ [EvConsole ("Deploying to " ++ dp_platform Demo.firebase ++ "...")])
                    Demo.unreachable)
               = (Returned tt, s1)) by reflexivity.
  assert (H3 : deploy_step (dp_platform Demo.firebase) (DeployUpload "firebase deploy") s1
               = (Thrown "Command failed: firebase deploy", s2)) by reflexivity.
  split; [exact H1|]. split; [exact H2|]. split; [exact H3|].
  exact (proj1 (@handleDeployment_stops_at_failing_step Demo.env Demo.unreachable
                  Demo.firebase _ _ _ s1 s2 _ H1 H2 H3)).
Defined.

Lemma late_exit_unregisters_replacement_run :
  JsMap.get (process_key "sleep 2" (Demo.named "bg")) (runningProcesses Demo.tracking)
    = Some Demo.bg_entry /\
  cp_kill Demo.env 1 (world Demo.tracking) = (Returned true, world Demo.tracking) /\
  first_field "sleep 2" <> EmptyString /\
  cp_spawn Demo.env "sleep" ["2"] "/home/u" StdioInherit (world Demo.tracking)
    = (Returned 2, snd (Demo.fresh (world Demo.tracking))) /\
  JsMap.has "bg"
    (runningProcesses
       (snd (onExit "bg" "143"
               (snd (startProcess "sleep 2" (Demo.named "bg") Demo.tracking))))) = false.
Proof.
  assert (Hfile : first_field "sleep 2" <> EmptyString) by discriminate.
  split; [reflexivity|]. split; [reflexivity|]. split; [exact Hfile|].
  split; [reflexivity|].
  assert (Hfresh : 2 <> pe_process Demo.bg_entry) by discriminate.
  exact (proj1 (proj2 (@late_exit_unregisters_replacement Demo.env Demo.tracking "sleep 2"
                         (Demo.named "bg") Demo.bg_entry true (world Demo.tracking) 2
                         (snd (Demo.fresh (world Demo.tracking))) "143"
                         eq_refl eq_refl eq_refl eq_refl Hfile eq_refl Hfresh))).
Defined.

Lemma session_keeps_registries_and_history_run :
  let steps :=
    [Command "write two files" (Returned Demo.write_read_write);
     Exited "bg" "0";
     Command "do something" (Thrown "Unexpected token H in JSON at position 0")] in
  registries_wf Demo.start /\
  registries_wf (run_session steps Demo.start) /\
  List.length (history (run_session steps Demo.start)) = 1.
Proof.
  intros steps.
  assert (H : registries_wf Demo.start) by (apply registries_wf_initial).
  split; [exact H|].
  exact (@session_keeps_registries_and_history Demo.env steps Demo.start H).
Defined.

Lemma session_stays_in_sync_run :
  (forall dir w, can_chdir Demo.steady dir w = true) /\
  synced (initial Demo.steady Demo.quiet "/home/u") /\
  synced (run_session
            [Command "new project" (Returned Demo.app_plan);
             Command "install" (Returned
                                  {| plan_type := "npm";
                                     plan_actions :=
                                       [PackageOperation (Demo.npm_install (Some "lib"))];
                                     plan_description := "install";
                                     plan_needsMonitoring := false |})]
            (initial Demo.steady Demo.quiet "/home/u")).
Proof.
  assert (H1 : forall dir w, can_chdir Demo.steady dir w = true) by (intros; reflexivity).
  assert (H2 : synced (initial Demo.steady Demo.quiet "/home/u")) by reflexivity.
  split; [exact H1|]. split; [exact H2|].
  exact (@session_stays_in_sync Demo.steady _ _ H1 H2).
Defined.

(** The plan object with a space before it and a line feed after it. *)
Lemma bare_object_is_parsed_as_is_run :
  let body := removelast (tl (PlanText.of_string PlanText.plan_object)) in
  forallb PlanText.is_space [32%N] = true /\
  forallb PlanText.is_space [10%N] = true /\
  PlanTextVocabulary.free_of_patterns (123%N :: body ++ [125%N])%list = true /\
  (123%N :: body ++ [125%N])%list = PlanText.of_string PlanText.plan_object /\
  PlanText.parse_response ([32%N] ++ 123%N :: body ++ 125%N :: [10%N])%list
    = PlanText.JSON_parse (PlanText.of_string PlanText.plan_object).
Proof.
  intros body.
  assert (H3 : PlanTextVocabulary.free_of_patterns (123%N :: body ++ [125%N])%list = true)
    by (vm_compute; reflexivity).
  assert (H4 : (123%N :: body ++ [125%N])%list = PlanText.of_string PlanText.plan_object)
    by (vm_compute; reflexivity).
  split; [reflexivity|]. split; [reflexivity|]. split; [exact H3|]. split; [exact H4|].
  rewrite <- H4.
  exact (@PlanTextAcceptance.bare_object_is_parsed_as_is [32%N] body [10%N]
           eq_refl eq_refl H3).
Defined.

Lemma answer_led_by_prose_is_rejected_run :
  forallb PlanText.is_space [32%N; 10%N] = true /\
  PlanText.is_prose_letter 72%N = true /\
  PlanText.parse_response
    ([32%N; 10%N] ++ 72%N :: PlanText.of_string ("ere you go: " ++ PlanText.plan_object))%list
    = PlanText.SyntaxError.
Proof.
  split; [reflexivity|]. split; [reflexivity|].
  exact (@PlanTextAcceptance.answer_led_by_prose_is_rejected [32%N; 10%N] 72%N
           (PlanText.of_string ("ere you go: " ++ PlanText.plan_object)) eq_refl eq_refl).
Defined.


(** A level written in capitals. *)
Lemma logger_threshold_run :
  let l := Logger.constructor (Some "INFO") None "/home/u/.ai-agent.log" in
  (forall n, Logger.levels (Logger.logLevel l) <> Logger.Rank n) /\
  Logger.log Logger.Error "2024-05-01T10:00:00.000Z" "disk full" [] l = [].
Proof.
  intros l.
  assert (H : forall n, Logger.levels (Logger.logLevel l) <> Logger.Rank n)
    by (intros n E; discriminate E).
  split; [exact H|].
  exact (proj2 (LoggerProperties.logger_threshold l) H Logger.Error
           "2024-05-01T10:00:00.000Z" "disk full" []).
Defined.

Lemma setLogLevel_inherited_name_silences_run :
  let l := Logger.constructor None None "/home/u/.ai-agent.log" in
  In "toString" Logger.prototype_names /\
  Logger.logLevel (fst (Logger.setLogLevel "toString" "2024-05-01T10:00:00.000Z" l))
    = "toString" /\
  snd (Logger.setLogLevel "toString" "2024-05-01T10:00:00.000Z" l) = [].
Proof.
  intros l.
  assert (H : In "toString" Logger.prototype_names) by (simpl; tauto).
  split; [exact H|].
  pose proof (@LoggerProperties.setLogLevel_inherited_name_silences "toString"
                "2024-05-01T10:00:00.000Z" l H) as R.
  exact (conj (proj1 R) (proj1 (proj2 R))).
Defined.

Lemma setLogLevel_feedback_run :
  let l := Logger.constructor None None "/home/u/.ai-agent.log" in
  In "error" ["warn"; "error"; "none"] /\
  Logger.logLevel (fst (Logger.setLogLevel "error" "2024-05-01T10:00:00.000Z" l)) = "error" /\
  snd (Logger.setLogLevel "error" "2024-05-01T10:00:00.000Z" l) = [].
Proof.
  intros l.
  assert (H : In "error" ["warn"; "error"; "none"]) by (simpl; tauto).
  split; [exact H|].
  exact (proj1 (LoggerProperties.setLogLevel_feedback "error" "2024-05-01T10:00:00.000Z" l)
           H).
Defined.

Lemma logged_entry_is_read_back_run :
  let older := "2024-05-01T09:59:58.000Z [WARN] low memory " ++ Logger.line_feed in
  Logger.single_line "2024-05-01T10:00:00.000Z" = true /\
  Logger.single_line "server started " = true /\
  (older = EmptyString \/
   exists lines, older = lines ++ Logger.line_feed) /\
  Logger.getLogHistory (Some 1%Z)
    (Logger.Data (older ++ Logger.entry "2024-05-01T10:00:00.000Z" Logger.Info
                              "server started " ++ Logger.line_feed))
    = Returned ["2024-05-01T10:00:00.000Z [INFO] server started "].
Proof.
  intros older.
  assert (H : older = EmptyString \/ exists lines, older = lines ++ Logger.line_feed)
    by (right; eexists; reflexivity).
  split; [reflexivity|]. split; [reflexivity|]. split; [exact H|].
  exact (@LoggerProperties.logged_entry_is_read_back older "2024-05-01T10:00:00.000Z"
           Logger.Info "server started " eq_refl eq_refl H).
Defined.

Lemma getApiKey_asks_once_run :
  truthy (JsMap.get ApiKey.key_name (@nil (string * string))) = None /\
  ApiKey.getApiKey [] "k-123"
    = {| ApiKey.apiKey := "k-123";
         ApiKey.config := [("gemini-api-key", "k-123")];
         ApiKey.asked := true |} /\
  ApiKey.apiKey (ApiKey.getApiKey [] "k-123") <> EmptyString /\
  ApiKey.getApiKey (ApiKey.config (ApiKey.getApiKey [] "k-123")) "k-456"
    = {| ApiKey.apiKey := "k-123";
         ApiKey.config := [("gemini-api-key", "k-123")];
         ApiKey.asked := false |} /\
  ApiKey.asked (ApiKey.getApiKey (ApiKey.config (ApiKey.getApiKey [] EmptyString)) "k-456")
    = true.
Proof.
  assert (H : ApiKey.apiKey (ApiKey.getApiKey [] "k-123") <> EmptyString)
    by (intros E; discriminate E).
  pose proof (ApiKeyProperties.getApiKey_asks_once [] "k-123" "k-456") as R.
  pose proof (ApiKeyProperties.getApiKey_asks_once [] EmptyString "k-456") as E.
  split; [reflexivity|].
  split; [exact (proj1 (proj1 (proj2 R) eq_refl))|].
  split; [exact H|].
  split; [exact (proj1 (proj2 (proj2 R)) H)|].
  exact (proj2 (proj2 (proj2 E)) eq_refl eq_refl).
Defined.
